(** * run_demo.py: replay server, fusion engine and event mapper

    A shallow embedding of [server/evidence/executables/run_demo.py].

    Conventions of the embedding.
    - JSON data decoded by [json.loads] is the type [value]; a JSON object
      (a Python [dict] with string keys) is an association list [dict].
    - Python floats and ints are rationals ([Q]) with exact arithmetic; the
      non-finite floats (nan, inf) and rounding are not represented.
    - A [datetime] is an instant in microseconds on one time line ([Z]); the
      timestamps of the datasets all carry an offset, so any two of them
      compare. A [timedelta] is a number of microseconds ([Z]).
    - A Python exception is a value of [exn]; a call that may raise returns
      [exn + A].
    - Mutation of [self] is explicit state passing. *)

From Stdlib Require Import ZArith QArith Qminmax String Ascii List Sorted Permutation Lia.
From Stdlib Require Import DecimalString DecimalNat Lqa.
From stdpp Require Import base option gmap strings list.

Set Warnings "-register-all".
Close Scope Q_scope.
Open Scope string_scope.
Open Scope list_scope.

(** ** Decoded JSON values *)

Inductive value : Type :=
| VNone
| VBool (b : bool)
| VNum (q : Q)
| VStr (s : string)
| VList (l : list value)
| VDict (d : list (string * value)).

Abbreviation dict := (list (string * value)).

(** Exceptions raised by the modelled code. *)
Inductive exn : Type :=
| TypeError
| ValueError
| KeyError
| IndexError.

(** [bool(x)]: the truth value Python's [if], [or], [not] and [any] test. *)
Definition truthy (v : value) : bool :=
  match v with
  | VNone => false
  | VBool b => b
  | VNum q => negb (Qeq_bool q 0)
  | VStr s => negb (String.eqb s "")
  | VList l => match l with [] => false | _ :: _ => true end
  | VDict d => match d with [] => false | _ :: _ => true end
  end.

(** [a or b]. *)
Definition py_or (a b : value) : value := if truthy a then a else b.

(** [d.get(k)] as an option: [None] when the key is absent. *)
Fixpoint dict_lookup (d : dict) (k : string) : option value :=
  match d with
  | [] => None
  | (k', v) :: d' => if String.eqb k' k then Some v else dict_lookup d' k
  end.

(** [d.get(k, dflt)]. *)
Definition dict_get_default (d : dict) (k : string) (dflt : value) : value :=
  match dict_lookup d k with Some v => v | None => dflt end.

(** [d.get(k)]: Python's [None] when the key is absent. *)
Definition dict_get (d : dict) (k : string) : value := dict_get_default d k VNone.

(** [d[k]]: raises [KeyError] when the key is absent. *)
Definition dict_index (d : dict) (k : string) : exn + value :=
  match dict_lookup d k with Some v => inr v | None => inl KeyError end.

(** [d[k] = v]: overwrite in place, or add the key at the end. *)
Fixpoint dict_set (d : dict) (k : string) (v : value) : dict :=
  match d with
  | [] => [(k, v)]
  | (k', v') :: d' =>
      if String.eqb k' k then (k, v) :: d' else (k', v') :: dict_set d' k v
  end.

(** The number a bool, int or float stands for in arithmetic and
    comparisons ([True == 1]); [None] for the other types. *)
Definition as_number (v : value) : option Q :=
  match v with
  | VBool b => Some (if b then 1%Q else 0%Q)
  | VNum q => Some q
  | _ => None
  end.

(** [a == b] on decoded JSON: numbers by value (bools are ints), strings
    and lists structurally, dicts as maps. *)
Fixpoint py_eq (a b : value) : bool :=
  match a, b with
  | VNone, VNone => true
  | VStr s, VStr t => String.eqb s t
  | VList xs, VList ys =>
      (fix go (xs ys : list value) : bool :=
         match xs, ys with
         | [], [] => true
         | x :: xs', y :: ys' => py_eq x y && go xs' ys'
         | _, _ => false
         end) xs ys
  | VDict d, VDict e =>
      Nat.eqb (length d) (length e) &&
      (fix go (d : list (string * value)) : bool :=
         match d with
         | [] => true
         | (k, v) :: d' =>
             match dict_lookup e k with
             | Some w => py_eq v w && go d'
             | None => false
             end
         end) d
  | (VBool _ | VNum _), (VBool _ | VNum _) =>
      match as_number a, as_number b with
      | Some x, Some y => Qeq_bool x y
      | _, _ => false
      end
  | _, _ => false
  end.

(** [x >= n] for a number [n]: [TypeError] unless [x] is a bool, int or
    float. *)
Definition py_ge_num (x : value) (n : Q) : exn + bool :=
  match as_number x with
  | Some q => inr (Qle_bool n q)
  | None => inl TypeError
  end.

(** [s.upper()]. *)
Definition upper_ascii (c : ascii) : ascii :=
  let n := nat_of_ascii c in
  if (Nat.leb 97 n && Nat.leb n 122)%bool then ascii_of_nat (n - 32) else c.

Fixpoint upper (s : string) : string :=
  match s with
  | EmptyString => EmptyString
  | String c s' => String (upper_ascii c) (upper s')
  end.

(** [s.startswith(p)]. *)
Definition startswith (s p : string) : bool := String.prefix p s.

Example upper_inside : upper "inside_bag" = "INSIDE_BAG".
Proof. reflexivity. Qed.

Example py_eq_bool_int : py_eq (VBool true) (VNum 1) = true.
Proof. reflexivity. Qed.

(** ** Exceptions as results *)

Definition bind {E A B : Type} (m : E + A) (k : A -> E + B) : E + B :=
  match m with
  | inl e => inl e
  | inr a => k a
  end.

Notation "'let!' x ':=' m 'in' k" := (bind m (fun x => k))
  (at level 10, x name, m at level 100, k at level 200).

(** [min(a, b)] and [max(a, b)] of Python: the first argument unless the
    second is strictly smaller (larger). *)
Definition py_min (a b : Q) : Q := if Qle_bool a b then a else b.
Definition py_max (a b : Q) : Q := if Qle_bool b a then a else b.

(** [abs(x)]. *)
Definition py_abs (x : Q) : Q := if Qle_bool 0 x then x else (- x)%Q.

(** [a > b]. *)
Definition Qgt_bool (a b : Q) : bool := negb (Qle_bool a b).

(** ** Part 2: the fusion engine *)

(** The reasons [compute] records. Each constructor stands for one of the
    strings the source builds, with the values the string is formatted
    from. *)
Inductive reason : Type :=
| VisionNotInPos (product : value) (accuracy : Q)
    (* f"Vision {product}@{accuracy:.2f} not in POS" *)
| RfidInBag
    (* "RFID in scan/bag area for vision SKU" *)
| VisionNePos (product sku : value)
    (* f"Vision {product} ≠ POS {sku}" *)
| WeightDelta (observed expected : Q)
    (* f"Weight delta {observed-expected:.0f}g (obs={observed}, exp={expected})" *)
| HighQueuePressure.
    (* "High queue pressure" *)

(** [self.state[st]], the dict
    [{"pos": [], "rfid": [], "vision": [], "queue": {}, "score": 0.0, "reasons": []}]. *)
Record station_state : Type := mk_station {
  pos : list dict;
  rfid : list dict;
  vision : list dict;
  queue : dict;
  score : Q;
  reasons : list reason
}.

Definition empty_station : station_state :=
  {| pos := []; rfid := []; vision := []; queue := [];
     score := 0%Q; reasons := [] |}.

Record FusionEngine : Type := mk_engine {
  vision_conf : Q;
  weight_tol_pct : Q;
  state : gmap string station_state;
  weights : gmap string Q
}.

(** [FusionEngine(products_csv)] with the default thresholds, the table
    read by [_load_weights] given as [w]. *)
Definition new_engine (w : gmap string Q) : FusionEngine :=
  {| vision_conf := 85 # 100; weight_tol_pct := 7 # 100;
     state := ∅; weights := w |}.

Definition set_state (e : FusionEngine) (m : gmap string station_state) : FusionEngine :=
  {| vision_conf := vision_conf e; weight_tol_pct := weight_tol_pct e;
     state := m; weights := weights e |}.

(** The result dict of [compute]: [{"score": ..., "reasons": ...}]. *)
Record fusion_result : Type := mk_result {
  r_score : Q;
  r_reasons : list reason
}.

(** [xs[-1] if xs else None]. *)
Definition latest (xs : list dict) : option dict := last xs.

(** [xs.append(x)] followed by [if len(xs) > cap: xs.pop(0)]. *)
Definition append_bounded (cap : nat) (xs : list dict) (x : dict) : list dict :=
  let ys := xs ++ [x] in
  if Nat.ltb cap (length ys) then tail ys else ys.

(** [self.weights.get(k)]: a list or dict key is unhashable; the keys of
    the table are strings, so no other kind of key is found. *)
Definition weights_get (w : gmap string Q) (k : value) : exn + option Q :=
  match k with
  | VStr s => inr (w !! s)
  | VList _ | VDict _ => inl TypeError
  | _ => inr None
  end.

(** [str(x).upper().startswith("IN")]. For a value that is not a string,
    [str] gives "None", "True", "False", a numeral, or text that opens
    with a bracket or brace, none of which starts with "IN". *)
Definition location_is_in (x : value) : bool :=
  match x with
  | VStr s => startswith (upper s) "IN"
  | _ => false
  end.

Section Fusion.

(** [float(s)] for a string [s]: the number read, or [None] where Python
    raises [ValueError]. *)
Variable float_of_str : string -> option Q.

(** [float(x)]. *)
Definition py_float (x : value) : exn + Q :=
  match x with
  | VNum q => inr q
  | VBool b => inr (if b then 1%Q else 0%Q)
  | VStr s => match float_of_str s with Some q => inr q | None => inl ValueError end
  | VNone | VList _ | VDict _ => inl TypeError
  end.

(** [_get]: the station's state, created empty on first use. *)
Definition _get (e : FusionEngine) (st : string) : station_state * FusionEngine :=
  match state e !! st with
  | Some s => (s, e)
  | None => (empty_station, set_state e (<[st := empty_station]> (state e)))
  end.

(** The write-back of a station dict mutated in place. *)
Definition put (e : FusionEngine) (st : string) (s : station_state) : FusionEngine :=
  set_state e (<[st := s]> (state e)).

Definition last_pos (e : FusionEngine) (st : string) : option dict * FusionEngine :=
  let '(s, e1) := _get e st in (latest (pos s), e1).

Definition get_queue (e : FusionEngine) (st : string) : dict * FusionEngine :=
  let '(s, e1) := _get e st in (queue s, e1).

Definition with_pos (s : station_state) (l : list dict) : station_state :=
  {| pos := l; rfid := rfid s; vision := vision s; queue := queue s;
     score := score s; reasons := reasons s |}.

Definition with_rfid (s : station_state) (l : list dict) : station_state :=
  {| pos := pos s; rfid := l; vision := vision s; queue := queue s;
     score := score s; reasons := reasons s |}.

Definition with_vision (s : station_state) (l : list dict) : station_state :=
  {| pos := pos s; rfid := rfid s; vision := l; queue := queue s;
     score := score s; reasons := reasons s |}.

Definition with_queue (s : station_state) (q : dict) : station_state :=
  {| pos := pos s; rfid := rfid s; vision := vision s; queue := q;
     score := score s; reasons := reasons s |}.

Definition with_result (s : station_state) (sc : Q) (rs : list reason) : station_state :=
  {| pos := pos s; rfid := rfid s; vision := vision s; queue := queue s;
     score := sc; reasons := rs |}.

(** [push_pos]. The record is appended first and given its
    ["expected_weight"] afterwards; the list holds the same object, so the
    stored record carries the key. An unhashable SKU raises after the
    append. The result is the exception raised, if any. *)
Definition push_pos (e : FusionEngine) (st : string) (data : dict)
  : option exn * FusionEngine :=
  let '(s, e1) := _get e st in
  let stored := with_pos s (append_bounded 10 (pos s) data) in
  if truthy (dict_get data "sku") then
    match weights_get (weights e) (dict_get data "sku") with
    | inl x => (Some x, put e1 st stored)
    | inr None => (None, put e1 st stored)
    | inr (Some exp) =>
        let data' := dict_set data "expected_weight" (VNum exp) in
        (None, put e1 st (with_pos s (append_bounded 10 (pos s) data')))
    end
  else (None, put e1 st stored).

(** [push_rfid]: a frame with no truthy sku, epc or location is ignored. *)
Definition push_rfid (e : FusionEngine) (st : string) (data : dict) : FusionEngine :=
  if negb (truthy (dict_get data "sku") || truthy (dict_get data "epc")
           || truthy (dict_get data "location"))
  then e
  else
    let '(s, e1) := _get e st in
    put e1 st (with_rfid s (append_bounded 20 (rfid s) data)).

Definition push_vision (e : FusionEngine) (st : string) (data : dict) : FusionEngine :=
  if negb (truthy (dict_get data "predicted_product")) then e
  else
    let '(s, e1) := _get e st in
    put e1 st (with_vision s (append_bounded 10 (vision s) data)).

(** [set_queue]: [q or {}] of a dict is the dict itself. *)
Definition set_queue (e : FusionEngine) (st : string) (q : dict) : FusionEngine :=
  let '(s, e1) := _get e st in
  put e1 st (with_queue s q).

(** *** [compute]

    The body of [compute] is four rules run in sequence on the local
    variables [score] and [reasons], here the pair [acc]. *)

Definition acc : Type := Q * list reason.

Definition is_none (x : value) : bool :=
  match x with VNone => true | _ => false end.

(** Rule 1, scan avoidance. [v["predicted_product"]] is read with
    [dict_get]: the key is present once [v.get("predicted_product")] is
    truthy. [float] of the accuracy may raise. *)
Definition seen_in_pos (s : station_state) (product : value) : bool :=
  existsb (fun x => py_eq (dict_get x "sku") product) (pos s).

Definition in_bag (s : station_state) (product : value) : bool :=
  existsb (fun r => py_eq (dict_get r "sku") product
                    && location_is_in (dict_get_default r "location" (VStr "")))
          (rfid s).

Definition scan_avoidance (e : FusionEngine) (s : station_state) (a : acc) : exn + acc :=
  match latest (vision s) with
  | None => inr a
  | Some v =>
      if truthy (VDict v) && truthy (dict_get v "predicted_product") then
        let! accuracy := py_float (dict_get_default v "accuracy" (VNum 0)) in
        if Qle_bool (vision_conf e) accuracy then
          let product := dict_get v "predicted_product" in
          if negb (seen_in_pos s product) then
            let a1 := ((fst a + (40 # 100))%Q, snd a ++ [VisionNotInPos product accuracy]) in
            if in_bag s product
            then inr ((fst a1 + (20 # 100))%Q, snd a1 ++ [RfidInBag])
            else inr a1
          else inr a
        else inr a
      else inr a
  end.

(** Rule 2, barcode switching. *)
Definition barcode_switching (s : station_state) (a : acc) : acc :=
  match latest (vision s), latest (pos s) with
  | Some v, Some p =>
      if truthy (VDict v) && truthy (dict_get v "predicted_product")
         && truthy (VDict p) && truthy (dict_get p "sku")
         && negb (py_eq (dict_get v "predicted_product") (dict_get p "sku"))
      then ((fst a + (30 # 100))%Q,
            snd a ++ [VisionNePos (dict_get v "predicted_product") (dict_get p "sku")])
      else a
  | _, _ => a
  end.

(** Rule 3, weight discrepancy.
    [float(p.get("expected_weight") or self.weights.get(p["sku"]) or observed)]:
    the first truthy operand of the chain, [observed] when there is none. *)
Definition expected_weight (e : FusionEngine) (p : dict) (observed : Q) : exn + Q :=
  let attached := dict_get p "expected_weight" in
  if truthy attached then py_float attached
  else
    let! sku := dict_index p "sku" in
    let! w := weights_get (weights e) sku in
    match w with
    | Some x => if truthy (VNum x) then inr x else inr observed
    | None => inr observed
    end.

(** The body of the [try]: the weights read and whether the test
    [abs(observed - expected) > tol] holds. *)
Definition weight_check (e : FusionEngine) (p : dict) : exn + (Q * Q * bool) :=
  let! w := dict_index p "weight_g" in
  let! observed := py_float w in
  let! expected := expected_weight e p observed in
  let tol := (weight_tol_pct e * expected)%Q in
  inr (observed, expected, Qgt_bool (py_abs (observed - expected)) tol).

(** [except Exception: pass]: an exception in the body leaves [score] and
    [reasons] as they were. *)
Definition weight_discrepancy (e : FusionEngine) (s : station_state) (a : acc) : acc :=
  match latest (pos s) with
  | None => a
  | Some p =>
      if truthy (VDict p) && negb (is_none (dict_get p "weight_g")) then
        match weight_check e p with
        | inr (observed, expected, true) =>
            ((fst a + (25 # 100))%Q, snd a ++ [WeightDelta observed expected])
        | _ => a
        end
      else a
  end.

(** Rule 4, queue bump. [>=] raises [TypeError] on a count or dwell time
    that is not a number; [or] skips the second test when the first
    holds. *)
Definition queue_test (q : dict) : exn + bool :=
  let! many := py_ge_num (dict_get_default q "customer_count" (VNum 0)) 6 in
  if many then inr true
  else py_ge_num (dict_get_default q "average_dwell_time" (VNum 0)) 120.

Definition queue_pressure (s : station_state) (a : acc) : exn + acc :=
  let! high := queue_test (queue s) in
  if high then inr ((fst a + (5 # 100))%Q, snd a ++ [HighQueuePressure])
  else inr a.

(** The four rules in order, from [score = 0.0] and [reasons = []]. *)
Definition run_rules (e : FusionEngine) (s : station_state) : exn + acc :=
  let! a1 := scan_avoidance e s (0%Q, []) in
  let a2 := barcode_switching s a1 in
  let a3 := weight_discrepancy e s a2 in
  queue_pressure s a3.

(** [max(0.0, min(1.0, score))]. *)
Definition clamp (sc : Q) : Q := py_max 0 (py_min 1 sc).

(** [compute]: an exception leaves the station as [_get] returned it;
    otherwise the clamped score and the reasons are stored and returned. *)
Definition compute (e : FusionEngine) (st : string)
  : (exn + fusion_result) * FusionEngine :=
  let '(s, e1) := _get e st in
  match run_rules e s with
  | inl x => (inl x, e1)
  | inr (sc, rs) =>
      let s' := with_result s (clamp sc) rs in
      (inr {| r_score := score s'; r_reasons := rs |}, put e1 st s')
  end.

End Fusion.


(** ** Part 2, continued: the event mapper *)

(** [f"{n:03d}"]: the decimal numeral of [n], zero-padded to three
    digits. *)
Definition decimal (n : nat) : string := NilEmpty.string_of_uint (Nat.to_uint n).

Fixpoint zeros (n : nat) : string :=
  match n with
  | O => ""
  | S n' => String "0" (zeros n')
  end.

Definition pad3 (n : nat) : string :=
  let d := decimal n in String.append (zeros (3 - String.length d)) d.

Example pad3_7 : pad3 7 = "007".
Proof. reflexivity. Qed.

Example pad3_1234 : pad3 1234 = "1234".
Proof. reflexivity. Qed.

(** The mapper: [_fh] is the list of JSON lines written so far (each the
    dict given to [_write]), [_counter] the event counter. [_clock] counts
    the calls of [iso_now] made so far; it is the model's reading of the
    wall clock. *)
Record Mapper : Type := mk_mapper {
  _fh : list dict;
  _counter : nat;
  _clock : nat
}.

Section MapperOps.

(** [iso_now()] at its n-th call. *)
Variable iso_now : nat -> string.

(** [_next_id]. *)
Definition _next_id (m : Mapper) : string * Mapper :=
  (String.append "E" (pad3 (_counter m)),
   {| _fh := _fh m; _counter := S (_counter m); _clock := _clock m |}).

(** [_write]. *)
Definition _write (m : Mapper) (payload : dict) : Mapper :=
  {| _fh := _fh m ++ [payload]; _counter := _counter m; _clock := _clock m |}.

(** [self._write({"timestamp": iso_now(), "event_id": self._next_id(),
    "event_data": event_data})]: the clock is read before the id is
    taken. *)
Definition emit (m : Mapper) (event_data : dict) : Mapper :=
  let ts := iso_now (_clock m) in
  let m1 := {| _fh := _fh m; _counter := _counter m; _clock := S (_clock m) |} in
  let '(eid, m2) := _next_id m1 in
  _write m2 [("timestamp", VStr ts); ("event_id", VStr eid);
             ("event_data", VDict event_data)].

(** [cc] and [dt] of [from_queue]. *)
Definition queue_cc (queue : dict) : value :=
  py_or (dict_get queue "customer_count") (VNum 0).

Definition queue_dt (queue : dict) : value :=
  py_or (dict_get queue "average_dwell_time") (VNum 0).

(** [from_queue]. The result is the exception raised, if any ([>=] on a
    value that is not a number), and the mapper with the events written
    up to that point. *)
Definition from_queue (m : Mapper) (station_id : string) (queue : dict)
  : option exn * Mapper :=
  if negb (truthy (VDict queue)) then (None, m)
  else
    let cc := queue_cc queue in
    let dt := queue_dt queue in
    match py_ge_num cc 6 with
    | inl x => (Some x, m)
    | inr long_queue =>
        let m1 :=
          if long_queue then
            let ma := emit m [("event_name", VStr "Long Queue Length");
                              ("station_id", VStr station_id);
                              ("num_of_customers", cc)] in
            let mb := emit ma [("event_name", VStr "Staffing Needs");
                               ("station_id", VStr station_id);
                               ("Staff_type", VStr "Cashier")] in
            emit mb [("event_name", VStr "Checkout Station Action");
                     ("station_id", VStr station_id);
                     ("Action", VStr "Open")]
          else m in
        match py_ge_num dt 120 with
        | inl x => (Some x, m1)
        | inr long_wait =>
            if long_wait then
              (None, emit m1 [("event_name", VStr "Long Wait Time");
                              ("station_id", VStr station_id);
                              ("wait_time_seconds", dt)])
            else (None, m1)
        end
    end.

End MapperOps.

(** The ["event_data"] of a written line, and one of its fields. *)
Definition event_data (line : dict) : dict :=
  match dict_get line "event_data" with
  | VDict d => d
  | _ => []
  end.

Definition event_field (k : string) (line : dict) : value :=
  dict_get (event_data line) k.

(** ** Part 1: the replay server *)

(** [DATASET_ALIASES] and its inverse [FILENAME_TO_CANONICAL]. *)
Definition DATASET_ALIASES : list (string * string) :=
  [("POS_Transactions", "pos_transactions");
   ("RFID_data", "rfid_readings");
   ("Queue_monitor", "queue_monitoring");
   ("Product_recognism", "product_recognition");
   ("Current_inventory_data", "inventory_snapshots")].

Definition FILENAME_TO_CANONICAL : list (string * string) :=
  map (fun kv => (snd kv, fst kv)) DATASET_ALIASES.

Fixpoint assoc_get (m : list (string * string)) (k dflt : string) : string :=
  match m with
  | [] => dflt
  | (k', v) :: m' => if String.eqb k' k then v else assoc_get m' k dflt
  end.

(** A dataset path with what [load_events] read from it: [source] is the
    path as printed, [stem] is [path.stem]. *)
Record dataset_file : Type := mk_file {
  source : string;
  stem : string;
  loaded : list dict
}.

(** The [ValueError]s of the merger, each with the values its message is
    formatted from. *)
Inductive merge_error : Type :=
| MissingStringTimestamp (dataset source : string) (raw : value)
    (* f"Event in {dataset} ({source}) missing string timestamp: {value!r}" *)
| UnparsableTimestamp (raw dataset source : string)
    (* f"Unable to parse timestamp '{value}' in {dataset} ({source})" *)
| NoEventsFound.
    (* "No events found across provided datasets." *)

(** An element of [all_events]:
    [{"dataset": ..., "timestamp": ..., "payload": ...}]. *)
Record source_event : Type := mk_event {
  dataset : string;
  timestamp : Z;
  payload : dict
}.

(** [all_events.sort(key=lambda item: item["timestamp"])]. [list.sort] is
    stable and ascending; insertion from the right, each element placed
    before the first one whose key is not smaller, is such a sort. *)
Fixpoint insert_by_timestamp (x : source_event) (l : list source_event)
  : list source_event :=
  match l with
  | [] => [x]
  | y :: l' =>
      if Z.leb (timestamp x) (timestamp y) then x :: l
      else y :: insert_by_timestamp x l'
  end.

Fixpoint sort_by_timestamp (l : list source_event) : list source_event :=
  match l with
  | [] => []
  | x :: l' => insert_by_timestamp x (sort_by_timestamp l')
  end.

Section Merger.

(** [datetime.fromisoformat] on a string: the instant, or [None] where it
    raises [ValueError]. *)
Variable fromisoformat : string -> option Z.

Definition parse_timestamp (raw : value) (dataset source : string)
  : merge_error + Z :=
  match raw with
  | VStr s =>
      match fromisoformat s with
      | Some ts => inr ts
      | None => inl (UnparsableTimestamp s dataset source)
      end
  | _ => inl (MissingStringTimestamp dataset source raw)
  end.

(** The inner loop of [collect_events] over the events of one file. *)
Fixpoint tag_events (dataset_name source : string) (raw_events : list dict)
  : merge_error + list source_event :=
  match raw_events with
  | [] => inr []
  | event :: rest =>
      let! ts := parse_timestamp (dict_get event "timestamp") dataset_name source in
      let! tagged := tag_events dataset_name source rest in
      inr ({| dataset := dataset_name; timestamp := ts; payload := event |} :: tagged)
  end.

Definition dataset_name_of (f : dataset_file) : string :=
  assoc_get FILENAME_TO_CANONICAL (stem f) (stem f).

(** The outer loop: [all_events] and [dataset_names] after the files. *)
Fixpoint gather (files : list dataset_file)
  : merge_error + (list source_event * list string) :=
  match files with
  | [] => inr ([], [])
  | f :: rest =>
      let! tagged := tag_events (dataset_name_of f) (source f) (loaded f) in
      let! rest_result := gather rest in
      let '(all_events, dataset_names) := rest_result in
      inr (tagged ++ all_events, dataset_name_of f :: dataset_names)
  end.

Definition collect_events (files : list dataset_file)
  : merge_error + (list source_event * list string) :=
  let! gathered := gather files in
  let '(all_events, dataset_names) := gathered in
  match all_events with
  | [] => inl NoEventsFound
  | _ :: _ => inr (sort_by_timestamp all_events, dataset_names)
  end.

End Merger.

(** *** [start_server]: the cycle span *)

(** One second as a [timedelta]. *)
Definition one_second : Z := 1000000.

(** The loop over [range(len(events) - 1)], on the timestamps:
    [min_gap] after the remaining neighbours have been looked at. *)
Fixpoint scan_gaps (min_gap : option Z) (ts : list Z) : option Z :=
  match ts with
  | a :: (b :: _) as rest =>
      let gap := (b - a)%Z in
      let smaller := match min_gap with None => true | Some m => Z.ltb gap m end in
      scan_gaps (if Z.ltb 0 gap && smaller then Some gap else min_gap) rest
  | _ => min_gap
  end.

(** [cycle_span] as [start_server] computes it; [events[0]] raises
    [IndexError] on an empty list. *)
Definition compute_cycle_span (events : list source_event) : exn + Z :=
  match events with
  | [] => inl IndexError
  | e0 :: _ =>
      let first := timestamp e0 in
      let last := timestamp (List.last events e0) in
      let min_gap :=
        match scan_gaps None (map timestamp events) with
        | Some g => g
        | None => one_second
        end in
      let cycle_span := (last - first + min_gap)%Z in
      inr (if Z.leb cycle_span 0 then one_second else cycle_span)
  end.

(** *** [EventStreamRequestHandler.handle] *)

Record ReplayTCPServer : Type := mk_server {
  events : list source_event;
  dataset_names : list string;
  speed : Q;
  loop : bool;
  cycle_span : Z
}.

(** A frame as sent: [timestamp] is [adjusted.isoformat()]. *)
Record frame : Type := mk_frame {
  f_dataset : string;
  f_sequence : Z;
  f_timestamp : string;
  f_original_timestamp : value;
  f_event : dict
}.

(** What the handler does, in order. *)
Inductive output : Type :=
| SendBanner (events_count : nat) (names : list string) (loop : bool)
             (speed : Q) (cycle_seconds : Q)
| Sleep (seconds : Q)
| Send (f : frame).

(** The local variables of [handle]. *)
Record session : Type := mk_session {
  loop_index : Z;
  prev : option Z;
  sequence : Z
}.

Definition initial_session : session :=
  {| loop_index := 0; prev := None; sequence := 1 |}.

(** [timedelta.total_seconds()]. *)
Definition total_seconds (d : Z) : Q := (inject_Z d / inject_Z one_second)%Q.

Section Handler.

(** [datetime.isoformat]. *)
Variable isoformat : Z -> string.

(** [record["timestamp"] + (server.cycle_span * loop_index)]. *)
Definition adjusted (srv : ReplayTCPServer) (record : source_event) (loop_index : Z) : Z :=
  (timestamp record + cycle_span srv * loop_index)%Z.

(** The pause before a record when [prev] is set. *)
Definition pause (srv : ReplayTCPServer) (adj prev : Z) : Q :=
  let delta_s := total_seconds (adj - prev) in
  let gap := if Qgt_bool (speed srv) 0 then (delta_s / speed srv)%Q else 0%Q in
  if Qle_bool gap 0 then ((1 # 10) / py_max 1 (speed srv))%Q else gap.

(** One iteration of [for record in server.events]. *)
Definition replay_record (srv : ReplayTCPServer) (st : session) (record : source_event)
  : list output * session :=
  let adj := adjusted srv record (loop_index st) in
  let sleeps :=
    match prev st with
    | Some p => [Sleep (pause srv adj p)]
    | None => []
    end in
  let original_timestamp := dict_get (payload record) "timestamp" in
  let event_copy := dict_set (payload record) "timestamp" (VStr (isoformat adj)) in
  let fr := {| f_dataset := dataset record;
               f_sequence := sequence st;
               f_timestamp := isoformat adj;
               f_original_timestamp := original_timestamp;
               f_event := event_copy |} in
  (sleeps ++ [Send fr],
   {| loop_index := loop_index st; prev := Some adj;
      sequence := (sequence st + 1)%Z |}).

(** The [for] loop over a list of records. *)
Fixpoint replay_records (srv : ReplayTCPServer) (st : session) (records : list source_event)
  : list output * session :=
  match records with
  | [] => ([], st)
  | r :: rest =>
      let '(out1, st1) := replay_record srv st r in
      let '(out2, st2) := replay_records srv st1 rest in
      (out1 ++ out2, st2)
  end.

(** The [while True] loop, cut after at most [n] cycles: the outputs of
    each cycle run. Without [server.loop] the first cycle is the only
    one. A client that disconnects sees a prefix of the outputs. *)
Fixpoint replay_cycles (srv : ReplayTCPServer) (n : nat) (st : session)
  : list (list output) :=
  match n with
  | O => []
  | S n' =>
      let '(out, st1) := replay_records srv st (events srv) in
      out ::
      (if loop srv then
         replay_cycles srv n'
           {| loop_index := (loop_index st1 + 1)%Z; prev := prev st1;
              sequence := sequence st1 |}
       else [])
  end.

(** [handle] up to the end of the n-th cycle: the banner, then the
    cycles. *)
Definition handle (srv : ReplayTCPServer) (n : nat) : list output :=
  SendBanner (length (events srv)) (dataset_names srv) (loop srv) (speed srv)
             (total_seconds (cycle_span srv))
  :: concat (replay_cycles srv n initial_session).

End Handler.

(** The frames among some outputs. *)
Definition sent (outs : list output) : list frame :=
  omap (fun o => match o with Send f => Some f | _ => None end) outs.

(** ** Notions used to state the properties *)


(** A POS record [p] has no reference weight: nothing truthy attached and
    nothing truthy in the table for its SKU. *)
Definition no_reference_weight (e : FusionEngine) (p : dict) : Prop :=
  truthy (dict_get p "expected_weight") = false /\
  forall sku x, dict_index p "sku" = inr sku ->
                weights_get (weights e) sku = inr (Some x) ->
                truthy (VNum x) = false.

(** The conditions of rule 1, on the station's buffers. Products and SKUs
    are strings. *)




(** The number a queue snapshot gives for a field: the field's value when
    it is a number, 0 when the field is absent or null. *)
Definition snapshot_number (queue : dict) (k : string) : option Q :=
  match dict_lookup queue k with
  | None | Some VNone => Some 0%Q
  | Some v => as_number v
  end.

(** The order of the merged sequence. *)
Definition time_le (a b : source_event) : Prop := (timestamp a <= timestamp b)%Z.

(** The events of a list that carry the timestamp [t], in list order. *)
Definition at_time (t : Z) (l : list source_event) : list source_event :=
  List.filter (fun e => Z.eqb (timestamp e) t) l.

Section MergerNotions.

Variable fromisoformat : string -> option Z.

(** The instant a raw record's timestamp field reads as, if it is a string
    that parses. *)
Definition event_time (event : dict) : option Z :=
  match dict_get event "timestamp" with
  | VStr s => fromisoformat s
  | _ => None
  end.

(** The error [parse_timestamp] raises for a raw timestamp value. *)
Definition timestamp_error (dataset source : string) (raw : value) : merge_error :=
  match raw with
  | VStr s => UnparsableTimestamp s dataset source
  | _ => MissingStringTimestamp dataset source raw
  end.

(** The records of one file in their original order, tagged; then the
    files one after the other. *)
Definition tagged (f : dataset_file) : list source_event :=
  omap (fun event =>
          match event_time event with
          | Some ts => Some {| dataset := dataset_name_of f; timestamp := ts;
                               payload := event |}
          | None => None
          end) (loaded f).

Definition tagged_input (files : list dataset_file) : list source_event :=
  concat (map tagged files).

Definition all_parse (files : list dataset_file) : Prop :=
  Forall (fun f => Forall (fun event => event_time event <> None) (loaded f)) files.

End MergerNotions.

(** [g] is a strictly positive gap between two neighbours of [ts]. *)
Definition positive_gap (ts : list Z) (g : Z) : Prop :=
  exists l1 a b l2, ts = l1 ++ a :: b :: l2 /\ g = (b - a)%Z /\ (0 < g)%Z.

Definition min_positive_gap (ts : list Z) (g : Z) : Prop :=
  positive_gap ts g /\ forall g', positive_gap ts g' -> (g <= g')%Z.

(** The frame [handle] builds for [record] in cycle [k] with sequence
    number [seq]. *)
Definition frame_of (isoformat : Z -> string) (srv : ReplayTCPServer)
    (k seq : Z) (record : source_event) : frame :=
  {| f_dataset := dataset record;
     f_sequence := seq;
     f_timestamp := isoformat (adjusted srv record k);
     f_original_timestamp := dict_get (payload record) "timestamp";
     f_event := dict_set (payload record) "timestamp"
                  (VStr (isoformat (adjusted srv record k))) |}.

(** ** The engine as the consumer drives it *)

(** The calls [consume_once] makes on the engine. *)
Inductive engine_op : Type :=
| PushPos (st : string) (data : dict)
| PushRfid (st : string) (data : dict)
| PushVision (st : string) (data : dict)
| SetQueue (st : string) (q : dict)
| Compute (st : string).

(** The station a call is about. *)
Definition op_station (op : engine_op) : string :=
  match op with
  | PushPos st _ | PushRfid st _ | PushVision st _ | SetQueue st _ | Compute st => st
  end.

Section EngineRuns.

Variable float_of_str : string -> option Q.

(** One call: the exception it raises, if any, and the engine after it. *)
Definition apply_op (e : FusionEngine) (op : engine_op) : option exn * FusionEngine :=
  match op with
  | PushPos st data => push_pos e st data
  | PushRfid st data => (None, push_rfid e st data)
  | PushVision st data => (None, push_vision e st data)
  | SetQueue st q => (None, set_queue e st q)
  | Compute st =>
      match compute float_of_str e st with
      | (inl x, e') => (Some x, e')
      | (inr _, e') => (None, e')
      end
  end.

(** Calls in sequence, up to the first one that raises. *)
Fixpoint run_ops (e : FusionEngine) (ops : list engine_op) : option exn * FusionEngine :=
  match ops with
  | [] => (None, e)
  | op :: rest =>
      match apply_op e op with
      | (Some x, e') => (Some x, e')
      | (None, e') => run_ops e' rest
      end
  end.

End EngineRuns.

(** What every station state of a running engine satisfies. *)
Record station_ok (s : station_state) : Prop := mk_station_ok {
  ok_pos : (length (pos s) <= 10)%nat;
  ok_rfid : (length (rfid s) <= 20)%nat;
  ok_vision : (length (vision s) <= 10)%nat;
  ok_vision_product :
    Forall (fun v => truthy (dict_get v "predicted_product") = true) (vision s);
  ok_rfid_signal :
    Forall (fun r => truthy (dict_get r "sku") || truthy (dict_get r "epc")
                     || truthy (dict_get r "location") = true) (rfid s);
  ok_score : (0 <= score s <= 1)%Q
}.

Definition engine_ok (e : FusionEngine) : Prop :=
  forall st s, state e !! st = Some s -> station_ok s.

(** The weight each reason adds to the score. *)
Definition reason_weight (r : reason) : Q :=
  match r with
  | VisionNotInPos _ _ => 40 # 100
  | RfidInBag => 20 # 100
  | VisionNePos _ _ => 30 # 100
  | WeightDelta _ _ => 25 # 100
  | HighQueuePressure => 5 # 100
  end.

Definition total_weight (rs : list reason) : Q :=
  fold_right (fun r acc => (reason_weight r + acc)%Q) 0%Q rs.

(** The station's state as [_get] would return it: empty when the station
    is not in [self.state]. *)
Definition station_of (e : FusionEngine) (st : string) : station_state :=
  match state e !! st with
  | Some s => s
  | None => empty_station
  end.

(** The frames [push_rfid] and [push_vision] keep. *)
Definition rfid_has_signal (data : dict) : bool :=
  truthy (dict_get data "sku") || truthy (dict_get data "epc")
  || truthy (dict_get data "location").

Definition vision_has_product (data : dict) : bool :=
  truthy (dict_get data "predicted_product").

(** The record [push_pos] leaves in the buffer: [data] itself, with
    ["expected_weight"] set when its SKU is truthy and listed in the
    table. *)
Definition stored_pos (w : gmap string Q) (data : dict) : dict :=
  if truthy (dict_get data "sku") then
    match weights_get w (dict_get data "sku") with
    | inr (Some exp) => dict_set data "expected_weight" (VNum exp)
    | _ => data
    end
  else data.

(** The newest [cap] elements of a list. *)
Definition newest (cap : nat) (l : list dict) : list dict :=
  drop (length l - cap) l.

(** ** The rest of the mapper *)

(** [p in s] for strings. *)
Fixpoint contains (s p : string) : bool :=
  String.prefix p s ||
  match s with
  | EmptyString => false
  | String _ s' => contains s' p
  end.

(** Character classes of the patterns, on ASCII text. *)
Definition is_upper (c : ascii) : bool :=
  let n := nat_of_ascii c in Nat.leb 65 n && Nat.leb n 90.
Definition is_lower (c : ascii) : bool :=
  let n := nat_of_ascii c in Nat.leb 97 n && Nat.leb n 122.
Definition is_digit (c : ascii) : bool :=
  let n := nat_of_ascii c in Nat.leb 48 n && Nat.leb n 57.
(** [\w]: letter, digit or underscore. *)
Definition is_word (c : ascii) : bool :=
  is_upper c || is_lower c || is_digit c || Nat.eqb (nat_of_ascii c) 95.

(** The longest prefix of [s] whose characters satisfy [p]: what a greedy
    [p+] at the end of a pattern consumes. *)
Fixpoint take_while (p : ascii -> bool) (s : string) : string :=
  match s with
  | EmptyString => EmptyString
  | String c s' => if p c then String c (take_while p s') else EmptyString
  end.

(** A match of [(PRD_[A-Z]_\d+|PRD_\w+)] at the start of [s]: the first
    alternative is tried first and wins when it matches. *)
Definition match_sku (s : string) : option string :=
  match s with
  | String "P" (String "R" (String "D" (String "_" rest))) =>
      let first :=
        match rest with
        | String c (String "_" digits) =>
            let ds := take_while is_digit digits in
            if is_upper c && negb (String.eqb ds "")
            then Some (String.append "PRD_" (String c (String "_" ds)))
            else None
        | _ => None
        end in
      match first with
      | Some m => Some m
      | None =>
          let ws := take_while is_word rest in
          if String.eqb ws "" then None else Some (String.append "PRD_" ws)
      end
  | _ => None
  end.

(** [_parse_sku]: [re.search] takes the leftmost position with a match. *)
Fixpoint _parse_sku (reason : string) : option string :=
  match match_sku reason with
  | Some m => Some m
  | None =>
      match reason with
      | EmptyString => None
      | String _ rest => _parse_sku rest
      end
  end.

(** A [str] or [None] as a value. *)
Definition opt_str (o : option string) : value :=
  match o with Some s => VStr s | None => VNone end.

(** [re.search(r"(Crash|Read Error|Failure)", s, flags=re.IGNORECASE)] on
    ASCII text. *)
Definition status_matches (s : string) : bool :=
  let u := upper s in
  contains u "CRASH" || contains u "READ ERROR" || contains u "FAILURE".

Section MapperMore.

Variable iso_now : nat -> string.

(** [str(x)] of a value that is not a string. *)
Variable py_repr : value -> string.

(** [str(x)], also what an f-string puts for [{x}]. *)
Definition py_str (x : value) : string :=
  match x with
  | VStr s => s
  | _ => py_repr x
  end.

(** [maybe_status]. *)
Definition maybe_status (m : Mapper) (station_id dataset_name : string)
    (status : value) : Mapper :=
  if negb (truthy status) then m
  else if status_matches (py_str status) then
    emit iso_now m [("event_name", VStr "Unexpected Systems Crash");
                    ("station_id", VStr station_id);
                    ("duration_seconds", VNum 0)]
  else m.

(** [self._write({"timestamp": ts, "event_id": self._next_id(),
    "event_data": event_data})] with [ts] read earlier. *)
Definition emit_at (ts : string) (m : Mapper) (event_data : dict) : Mapper :=
  let '(eid, m1) := _next_id m in
  _write m1 [("timestamp", VStr ts); ("event_id", VStr eid);
             ("event_data", VDict event_data)].

(** [last_pos.get(k) if last_pos else None] and [(last_pos or {}).get(k)]. *)
Definition last_pos_field_if (last_pos : option dict) (k : string) : value :=
  match last_pos with
  | Some p => if truthy (VDict p) then dict_get p k else VNone
  | None => VNone
  end.

Definition last_pos_field (last_pos : option dict) (k : string) : value :=
  match last_pos with
  | Some p => dict_get p k
  | None => VNone
  end.

(** The body of the loop of [from_fusion] for one reason [r]: three tests
    in a row, each writing its event. *)
Definition map_reason (ts : string) (station_id : string) (last_pos : option dict)
    (m : Mapper) (r : string) : Mapper :=
  let m1 :=
    if startswith r "Vision" && contains r "not in POS" then
      emit_at ts m
        [("event_name", VStr "Scanner Avoidance");
         ("station_id", VStr station_id);
         ("customer_id", last_pos_field_if last_pos "customer_id");
         ("product_sku", py_or (last_pos_field last_pos "sku")
                               (opt_str (_parse_sku r)))]
    else m in
  let m2 :=
    if startswith r "Vision" && contains r "≠ POS" then
      emit_at ts m1
        [("event_name", VStr "Barcode Switching");
         ("station_id", VStr station_id);
         ("customer_id", last_pos_field_if last_pos "customer_id");
         ("actual_sku", opt_str (_parse_sku r));
         ("scanned_sku", last_pos_field last_pos "sku")]
    else m1 in
  if startswith r "Weight delta" then
    emit_at ts m2
      [("event_name", VStr "Weight Discrepancies");
       ("station_id", VStr station_id);
       ("customer_id", last_pos_field_if last_pos "customer_id");
       ("product_sku", last_pos_field last_pos "sku");
       ("expected_weight", last_pos_field last_pos "expected_weight");
       ("actual_weight", last_pos_field last_pos "weight_g")]
  else m2.

(** [from_fusion] on the reasons of a result ([[]] when the result has
    none): the clock is read once, before the loop. *)
Definition from_fusion (m : Mapper) (station_id : string) (reasons : list string)
    (last_pos : option dict) : Mapper :=
  let ts := iso_now (_clock m) in
  let m0 := {| _fh := _fh m; _counter := _counter m; _clock := S (_clock m) |} in
  fold_left (map_reason ts station_id last_pos) reasons m0.

(** *** The reason strings of [compute] *)

(** [f"{x:.2f}"], [f"{x:.0f}"] and [str(x)] of a float. *)
Variable format_2f : Q -> string.
Variable format_0f : Q -> string.
Variable float_str : Q -> string.

(** The string each reason stands for. *)
Definition render (r : reason) : string :=
  match r with
  | VisionNotInPos product accuracy =>
      String.append "Vision "
        (String.append (py_str product)
           (String.append "@" (String.append (format_2f accuracy) " not in POS")))
  | RfidInBag => "RFID in scan/bag area for vision SKU"
  | VisionNePos product sku =>
      String.append "Vision "
        (String.append (py_str product) (String.append " ≠ POS " (py_str sku)))
  | WeightDelta observed expected =>
      String.append "Weight delta "
        (String.append (format_0f (observed - expected))
           (String.append "g (obs="
              (String.append (float_str observed)
                 (String.append ", exp=" (String.append (float_str expected) ")")))))
  | HighQueuePressure => "High queue pressure"
  end.

End MapperMore.

(** The calls [consume_once] makes on the mapper. *)
Inductive mapper_op : Type :=
| MaybeStatus (station_id dataset_name : string) (status : value)
| FromFusion (station_id : string) (reasons : list string) (last_pos : option dict)
| FromQueue (station_id : string) (queue : dict).

Definition apply_mapper_op (iso_now : nat -> string) (py_repr : value -> string)
    (m : Mapper) (op : mapper_op) : Mapper :=
  match op with
  | MaybeStatus st ds status => maybe_status iso_now py_repr m st ds status
  | FromFusion st reasons last_pos => from_fusion iso_now m st reasons last_pos
  | FromQueue st q => snd (from_queue iso_now m st q)
  end.

(** [Mapper(out_path)]: the file truncated, the counter at 0. *)
Definition new_mapper : Mapper := {| _fh := []; _counter := 0; _clock := 0 |}.

(** The number an event id stands for: the digits after the "E". *)
Definition id_number (event_id : value) : option nat :=
  match event_id with
  | VStr (String "E" digits) =>
      match NilEmpty.uint_of_string digits with
      | Some d => Some (Nat.of_uint d)
      | None => None
      end
  | _ => None
  end.

(** The event names the reasons of a result stand for. *)
Definition reason_events (r : reason) : list value :=
  match r with
  | VisionNotInPos _ _ => [VStr "Scanner Avoidance"]
  | VisionNePos _ _ => [VStr "Barcode Switching"]
  | WeightDelta _ _ => [VStr "Weight Discrepancies"]
  | RfidInBag | HighQueuePressure => []
  end.


(** A reason whose string passes the test of one event only: a "not in
    POS" reason without the text "≠ POS" in it, a "≠ POS" reason without
    the text "not in POS". *)
Definition unambiguous (py_repr : value -> string)
    (format_2f format_0f float_str : Q -> string) (r : reason) : Prop :=
  match r with
  | VisionNotInPos _ _ =>
      contains (render py_repr format_2f format_0f float_str r) "≠ POS" = false
  | VisionNePos _ _ =>
      contains (render py_repr format_2f format_0f float_str r) "not in POS" = false
  | _ => True
  end.

(** ** Notions for the replay properties *)

(** The seconds slept among some outputs. *)
Fixpoint total_sleep (outs : list output) : Q :=
  match outs with
  | [] => 0%Q
  | Sleep t :: rest => (t + total_sleep rest)%Q
  | _ :: rest => total_sleep rest
  end.

(** Every pause among the outputs is strictly positive. *)
Definition sleeps_positive (outs : list output) : Prop :=
  Forall (fun o => match o with Sleep t => (0 < t)%Q | _ => True end) outs.

(** Timestamps strictly increasing along the list. *)
Definition strictly_increasing (l : list source_event) : Prop :=
  Sorted (fun a b => (timestamp a < timestamp b)%Z) l.

(** ** Part 3: the stream reader *)

Definition newline : ascii := "010"%char.

(** [buff.split("\n", 1)] when ["\n" in buff]: the text before the first
    newline and the text after it. *)
Fixpoint split_newline (buff : string) : option (string * string) :=
  match buff with
  | EmptyString => None
  | String c rest =>
      if Ascii.eqb c newline then Some (EmptyString, rest)
      else
        match split_newline rest with
        | Some (line, after) => Some (String c line, after)
        | None => None
        end
  end.

(** Whitespace as [str.strip] sees it, on ASCII text. *)
Definition is_space (c : ascii) : bool :=
  let n := nat_of_ascii c in
  (Nat.leb 9 n && Nat.leb n 13) || (Nat.leb 28 n && Nat.leb n 32).

Fixpoint lstrip (s : string) : string :=
  match s with
  | EmptyString => EmptyString
  | String c s' => if is_space c then lstrip s' else s
  end.

Fixpoint rstrip (s : string) : string :=
  match s with
  | EmptyString => EmptyString
  | String c s' =>
      let r := rstrip s' in
      if is_space c && String.eqb r "" then EmptyString else String c r
  end.

(** [s.strip()]. *)
Definition strip (s : string) : string := rstrip (lstrip s).

(** [if line.strip(): yield line.strip()]. *)
Definition yield_line (line : string) : list string :=
  if String.eqb (strip line) "" then [] else [strip line].

(** The inner loop [while "\n" in buff]: the lines yielded and the buffer
    left. Each turn takes at least the newline off the buffer, so its
    length bounds the number of turns. *)
Fixpoint drain (turns : nat) (buff : string) : list string * string :=
  match turns with
  | O => ([], buff)
  | S turns' =>
      match split_newline buff with
      | None => ([], buff)
      | Some (line, after) =>
          let '(yielded, kept) := drain turns' after in
          (yield_line line ++ yielded, kept)
      end
  end.

(** The outer loop over the chunks [recv] returns, decoded: an empty
    chunk ends the stream. *)
Fixpoint read_chunks (buff : string) (chunks : list string) : list string :=
  match chunks with
  | [] => []
  | chunk :: rest =>
      if String.eqb chunk "" then []
      else
        let buff' := String.append buff chunk in
        let '(yielded, kept) := drain (String.length buff') buff' in
        yielded ++ read_chunks kept rest
  end.

(** [readlines]: the lines yielded for the chunks received. *)
Definition readlines (chunks : list string) : list string := read_chunks "" chunks.

(** *** Notions for its properties *)

(** Strings joined end to end. *)
Definition join (parts : list string) : string :=
  fold_right String.append EmptyString parts.

(** No newline in [s]. *)
Definition one_line (s : string) : Prop := split_newline s = None.

(** The text of a buffer cut at its newlines: the complete lines and the
    unfinished rest. *)
Fixpoint raw_lines (s : string) : list string * string :=
  match s with
  | EmptyString => ([], EmptyString)
  | String c s' =>
      let '(ls, r) := raw_lines s' in
      if Ascii.eqb c newline then (EmptyString :: ls, r)
      else
        match ls with
        | [] => ([], String c r)
        | l :: ls' => (String c l :: ls', r)
        end
  end.

(** A string that does not begin with whitespace. *)
Definition starts_clean (s : string) : Prop :=
  match s with
  | EmptyString => True
  | String c _ => is_space c = false
  end.

(** A line as [readlines] yields it. *)
Definition clean_line (l : string) : Prop :=
  l <> "" /\ one_line l /\ strip l = l.

(** The messages, each followed by a newline, then [tail]. *)
Definition framed (messages : list string) (tail : string) : string :=
  fold_right (fun m rest => String.append m (String newline rest)) tail messages.

(** *** [consume_once]: which handler a frame goes to *)

(** [s.lower()] on ASCII text. *)
Definition lower_ascii (c : ascii) : ascii :=
  let n := nat_of_ascii c in
  if (Nat.leb 65 n && Nat.leb n 90)%bool then ascii_of_nat (n + 32) else c.

Fixpoint lower (s : string) : string :=
  match s with
  | EmptyString => EmptyString
  | String c s' => String (lower_ascii c) (lower s')
  end.

(** The branches of the [if]/[elif] chain on the frame's dataset name. *)
Inductive route : Type :=
| ToPos
| ToRfid
| ToVision
| ToQueue
| ToInventory
| NoHandler.

(** The chain, on the dataset name of the frame (a string). *)
Definition route_of (dataset : string) : route :=
  let ds := lower dataset in
  if contains ds "pos_transactions" then ToPos
  else if contains ds "rfid_data" || contains ds "rfid_readings" then ToRfid
  else if contains ds "product_recognism" || contains ds "product_recognition"
  then ToVision
  else if contains ds "queue_monitor" then ToQueue
  else if contains ds "current_inventory_data" || contains ds "inventory_snapshots"
  then ToInventory
  else NoHandler.

(** * Properties of the fusion engine *)

Section FusionFacts.

Variable float_of_str : string -> option Q.

Lemma truthy_get_nonempty (d : dict) (k : string) :
  truthy (dict_get d k) = true -> truthy (VDict d) = true.
Proof. destruct d as [|kv d]; [discriminate | reflexivity]. Qed.

(** [run_rules] reads the thresholds and the weight table of the engine
    and the four signal fields of the station, nothing else. *)
Lemma run_rules_congr (e e' : FusionEngine) (s s' : station_state) :
  vision_conf e = vision_conf e' ->
  weight_tol_pct e = weight_tol_pct e' ->
  weights e = weights e' ->
  pos s = pos s' -> rfid s = rfid s' -> vision s = vision s' ->
  queue s = queue s' ->
  run_rules float_of_str e s = run_rules float_of_str e' s'.
Proof.
  destruct e, e', s, s'; simpl; intros; subst; reflexivity.
Qed.

Lemma _get_spec (e : FusionEngine) (st : string) :
  let '(s, e1) := _get e st in
  state e1 !! st = Some s /\
  vision_conf e1 = vision_conf e /\
  weight_tol_pct e1 = weight_tol_pct e /\
  weights e1 = weights e.
Proof.
  unfold _get. destruct (state e !! st) as [s|] eqn:E; simpl.
  - auto.
  - rewrite lookup_insert_eq. auto.
Qed.

Lemma _get_present (e : FusionEngine) (st : string) (s : station_state) :
  state e !! st = Some s -> _get e st = (s, e).
Proof. intros H. unfold _get. rewrite H. reflexivity. Qed.

(** ** Each rule only adds to the score and to the reasons *)








Lemma clamp_ge (lo x : Q) : (0 < lo)%Q -> (lo <= 1)%Q -> (lo <= x)%Q -> (lo <= clamp x)%Q.
Proof.
  intros H0 H1 Hx. unfold clamp, py_max, py_min.
  destruct (Qle_bool 1 x) eqn:E1.
  - destruct (Qle_bool 1 0) eqn:E2; [apply Qle_bool_iff in E2; lra | exact H1].
  - destruct (Qle_bool x 0) eqn:E2; [apply Qle_bool_iff in E2; lra | exact Hx].
Qed.

(** ** Scoring a station *)

Lemma run_rules_empty (e : FusionEngine) :
  run_rules float_of_str e empty_station = inr (0%Q, []).
Proof. reflexivity. Qed.

(** C9: for a station with no prior ingestion, [compute] does not raise,
    returns score 0.0 with no reasons, and leaves the engine with that
    station's empty state created (empty buffers, empty queue snapshot). *)
Theorem compute_fresh_station (e : FusionEngine) (st : string) :
  state e !! st = None ->
  compute float_of_str e st =
    (inr {| r_score := 0; r_reasons := [] |},
     set_state e (<[st := empty_station]> (state e))).
Proof.
  intros Hnew. unfold compute, _get. rewrite Hnew, run_rules_empty.
  unfold put, set_state. cbn. rewrite insert_insert_eq. reflexivity.
Qed.

(** C6: two calls of [compute] for a station with nothing ingested in
    between give the same outcome (the same score and reasons, or the same
    exception), and the second call leaves the engine as the first did. *)
Theorem compute_idempotent (e : FusionEngine) (st : string) :
  let first := compute float_of_str e st in
  let second := compute float_of_str (snd first) st in
  fst second = fst first /\ snd second = snd first.
Proof.
  cbv zeta. destruct (compute float_of_str e st) as [r1 e'] eqn:C.
  cbn [fst snd]. unfold compute in C.
  pose proof (_get_spec e st) as G.
  destruct (_get e st) as [s e1]. destruct G as (Hs & Hv & Hw & Ht).
  destruct (run_rules float_of_str e s) as [x|[sc rs]] eqn:R;
    inversion C; subst r1 e'; clear C; unfold compute.
  - rewrite (_get_present e1 st s Hs).
    rewrite (run_rules_congr e1 e s s), R by (assumption || reflexivity).
    split; reflexivity.
  - rewrite (_get_present (put e1 st (with_result s (clamp sc) rs)) st
               (with_result s (clamp sc) rs))
      by (cbn; apply lookup_insert_eq).
    rewrite (run_rules_congr _ e _ s), R by (assumption || reflexivity).
    cbn. split; [reflexivity|].
    unfold put, set_state, with_result. cbn. rewrite insert_insert_eq.
    reflexivity.
Qed.


(** *** The two tests of rule 1 and the buffers *)









(** ** The weight rule on a record without a reference weight *)


(** Without a reference weight the expected weight is the observed one. *)
Lemma expected_weight_fallback (e : FusionEngine) (p : dict) (observed x : Q) :
  no_reference_weight e p ->
  expected_weight float_of_str e p observed = inr x -> x = observed.
Proof.
  intros [Hatt Htab]. unfold expected_weight. rewrite Hatt. unfold bind.
  destruct (dict_index p "sku") as [?|sku]; [discriminate|].
  specialize (Htab sku).
  destruct (weights_get (weights e) sku) as [?|[w|]]; [discriminate| |].
  - rewrite (Htab w) by reflexivity. congruence.
  - congruence.
Qed.

(** With a tolerance fraction and an observed weight that are not
    negative, the rule leaves score and reasons alone on such a record. *)
Lemma weight_rule_silent_nonnegative (e : FusionEngine) (s : station_state)
    (p : dict) (a : acc) :
  latest (pos s) = Some p ->
  no_reference_weight e p ->
  (0 <= weight_tol_pct e)%Q ->
  (forall w, py_float float_of_str (dict_get p "weight_g") = inr w -> (0 <= w)%Q) ->
  weight_discrepancy float_of_str e s a = a.
Proof.
  intros Hp Href Htol Hobs. unfold weight_discrepancy. rewrite Hp.
  destruct (truthy (VDict p) && negb (is_none (dict_get p "weight_g")));
    [|reflexivity].
  unfold weight_check, bind, dict_index.
  unfold dict_get, dict_get_default in Hobs.
  destruct (dict_lookup p "weight_g") as [w|]; [|reflexivity].
  destruct (py_float float_of_str w) as [?|observed] eqn:F; [reflexivity|].
  destruct (expected_weight float_of_str e p observed) as [?|x] eqn:X; [reflexivity|].
  apply (expected_weight_fallback e p observed x Href) in X. subst x.
  specialize (Hobs observed eq_refl).
  replace (Qgt_bool _ _) with false; [reflexivity|].
  symmetry. unfold Qgt_bool. apply negb_false_iff, Qle_bool_iff.
  unfold py_abs.
  destruct (Qle_bool 0 (observed - observed));
    (apply Qle_trans with 0%Q; [lra | apply Qmult_le_0_compat; assumption]).
Qed.

End FusionFacts.

(** ** Concrete runs of the engine *)

Module FusionRuns.

(** No string reads as a number. *)
Definition no_float : string -> option Q := fun _ => None.

Definition engine0 : FusionEngine := new_engine ∅.

(** The vision observation [{predicted_product: "PRD_X_1", accuracy: 0.90}]. *)
Definition vision_x : dict :=
  [("predicted_product", VStr "PRD_X_1"); ("accuracy", VNum (90 # 100))].

Definition engine_vision : FusionEngine := push_vision engine0 "SCC1" vision_x.





(** A POS record of an SKU the table does not list, with a negative
    observed weight. *)
Definition pos_negative : dict :=
  [("sku", VStr "PRD_U"); ("weight_g", VNum (-5))].

Definition engine_negative : FusionEngine :=
  snd (push_pos engine0 "SCC1" pos_negative).

(** A table that lists an SKU with weight 0, and a POS record of it. *)
Definition engine_zero : FusionEngine := new_engine {[ "PRD_Z" := 0%Q ]}.

Definition pos_zero : dict :=
  [("sku", VStr "PRD_Z"); ("weight_g", VNum (-5))].

Definition engine_zero_pushed : FusionEngine :=
  snd (push_pos engine_zero "SCC1" pos_zero).

End FusionRuns.

Lemma compute_fresh_station_witness :
  state FusionRuns.engine0 !! "SCC1" = None /\
  compute FusionRuns.no_float FusionRuns.engine0 "SCC1" =
    (inr {| r_score := 0; r_reasons := [] |},
     set_state FusionRuns.engine0
       (<[ "SCC1" := empty_station ]> (state FusionRuns.engine0))).
Proof.
  split; [reflexivity|].
  apply (compute_fresh_station FusionRuns.no_float FusionRuns.engine0 "SCC1").
  reflexivity.
Defined.


(** C4: a POS record of an SKU with no reference weight whose observed
    weight is negative. The expected weight falls back to the observed
    one, the tolerance 0.07 * (-5) is negative, and the rule adds 0.25 with
    a reason of delta 0. *)
Theorem weight_rule_fires_unknown_sku :
  state FusionRuns.engine_negative !! "SCC1"
    = Some (with_pos empty_station [FusionRuns.pos_negative]) /\
  dict_get FusionRuns.pos_negative "expected_weight" = VNone /\
  weights_get (weights FusionRuns.engine_negative) (VStr "PRD_U") = inr None /\
  fst (compute FusionRuns.no_float FusionRuns.engine_negative "SCC1") =
    inr {| r_score := 25 # 100; r_reasons := [WeightDelta (-5) (-5)] |}.
Proof. repeat split; vm_compute; reflexivity. Qed.

(** C10: a table entry of 0 for the SKU. [push_pos] attaches
    [expected_weight = 0.0], the chain of [compute] passes over both
    zeros to the observed weight, and with a negative observed weight the
    rule adds 0.25. *)
Theorem weight_rule_fires_zero_entry :
  weights FusionRuns.engine_zero !! "PRD_Z" = Some 0%Q /\
  state FusionRuns.engine_zero_pushed !! "SCC1"
    = Some (with_pos empty_station
              [dict_set FusionRuns.pos_zero "expected_weight" (VNum 0)]) /\
  fst (compute FusionRuns.no_float FusionRuns.engine_zero_pushed "SCC1") =
    inr {| r_score := 25 # 100; r_reasons := [WeightDelta (-5) (-5)] |}.
Proof. repeat split; vm_compute; reflexivity. Qed.

(** * Properties of the event mapper *)

Section MapperFacts.

Variable iso_now : nat -> string.

Lemma emit_fh (m : Mapper) (data : dict) :
  _fh (emit iso_now m data) =
    _fh m ++ [[("timestamp", VStr (iso_now (_clock m)));
               ("event_id", VStr (String.append "E" (pad3 (_counter m))));
               ("event_data", VDict data)]].
Proof. reflexivity. Qed.

Lemma emit_counter (m : Mapper) (data : dict) :
  _counter (emit iso_now m data) = S (_counter m).
Proof. reflexivity. Qed.

Lemma py_ge_num_number (x : value) (q n : Q) :
  as_number x = Some q -> py_ge_num x n = inr (Qle_bool n q).
Proof. intros H. unfold py_ge_num. rewrite H. reflexivity. Qed.

Local Ltac fired :=
  split; [reflexivity|]; split; [reflexivity|];
  split; [intros _; split; reflexivity | cbn; lia].
Local Ltac silent :=
  split; [reflexivity|]; split; [reflexivity|];
  split; [intros H; vm_compute in H; discriminate H | cbn; lia].

(** [from_queue] in terms of its locals [cc] and [dt], when both are
    numbers. *)
Lemma from_queue_on_locals (m : Mapper) (station_id : string) (queue : dict)
    (c d : Q) :
  as_number (queue_cc queue) = Some c ->
  as_number (queue_dt queue) = Some d ->
  exists new,
    from_queue iso_now m station_id queue =
      (None, {| _fh := _fh m ++ new;
                _counter := _counter m + length new;
                _clock := _clock m + length new |}) /\
    map (event_field "event_name") new =
      (if Qle_bool 6 c
       then [VStr "Long Queue Length"; VStr "Staffing Needs";
             VStr "Checkout Station Action"]
       else [])
      ++ (if Qle_bool 120 d then [VStr "Long Wait Time"] else []) /\
    (Qle_bool 6 c = true ->
       event_field "Staff_type" <$> new !! 1%nat = Some (VStr "Cashier") /\
       event_field "Action" <$> new !! 2%nat = Some (VStr "Open")) /\
    (length new <= 5)%nat.
Proof.
  intros Hc Hd. unfold from_queue. destruct m as [fh ctr clk].
  destruct queue as [|kv queue'] eqn:Q.
  - cbn in Hc, Hd. inversion Hc; inversion Hd; subst c d.
    exists []. cbn. rewrite app_nil_r, !Nat.add_0_r. silent.
  - rewrite <- Q in *. replace (negb (truthy (VDict queue))) with false
      by (rewrite Q; reflexivity).
    rewrite (py_ge_num_number _ c 6 Hc), (py_ge_num_number _ d 120 Hd).
    unfold emit, _next_id, _write. cbn.
    destruct (Qle_bool 6 c), (Qle_bool 120 d).
    + eexists [_; _; _; _]. cbn.
      rewrite <- !app_assoc, !Nat.add_succ_r, !Nat.add_0_r. fired.
    + eexists [_; _; _]. cbn.
      rewrite <- !app_assoc, !Nat.add_succ_r, !Nat.add_0_r. fired.
    + eexists [_]. cbn. rewrite !Nat.add_succ_r, !Nat.add_0_r. silent.
    + exists []. cbn. rewrite app_nil_r, !Nat.add_0_r. silent.
Qed.

(** The locals [cc] and [dt] hold the number the snapshot gives for the
    field. *)
Lemma snapshot_number_local (queue : dict) (k : string) (c : Q) :
  snapshot_number queue k = Some c ->
  exists c', as_number (py_or (dict_get queue k) (VNum 0)) = Some c' /\ (c' == c)%Q.
Proof.
  unfold snapshot_number, dict_get, dict_get_default, py_or.
  destruct (dict_lookup queue k) as [v|]; cbn.
  - destruct v as [|b|x|t|l|d]; intros H; try discriminate H; cbn.
    + inversion H. exists 0%Q. split; reflexivity.
    + destruct b; exists c; (split; [exact H | reflexivity]).
    + cbn in H. inversion H; subst x.
      destruct (negb (Qeq_bool c 0)) eqn:T.
      * exists c. split; reflexivity.
      * exists 0%Q. split; [reflexivity|].
        apply negb_false_iff, Qeq_bool_iff in T. symmetry. exact T.
  - intros H. inversion H. exists 0%Q. split; reflexivity.
Qed.

(** C5: for a queue snapshot whose customer count [c] and average dwell
    [d] are numbers (each 0 when the field is absent or null),
    [from_queue] does not raise and appends to the output: Long Queue
    Length, Staffing Needs (staff type Cashier) and Checkout Station Action
    (action Open), in that order, exactly when [c >= 6]; then Long Wait
    Time exactly when [d >= 120], whatever the count. With [c >= 6] and [d < 120] these are exactly the three events;
    with both tests holding there are four, so never more than five. *)
Theorem from_queue_events (m : Mapper) (station_id : string) (queue : dict)
    (c d : Q) :
  snapshot_number queue "customer_count" = Some c ->
  snapshot_number queue "average_dwell_time" = Some d ->
  exists new,
    from_queue iso_now m station_id queue =
      (None, {| _fh := _fh m ++ new;
                _counter := _counter m + length new;
                _clock := _clock m + length new |}) /\
    map (event_field "event_name") new =
      (if Qle_bool 6 c
       then [VStr "Long Queue Length"; VStr "Staffing Needs";
             VStr "Checkout Station Action"]
       else [])
      ++ (if Qle_bool 120 d then [VStr "Long Wait Time"] else []) /\
    (Qle_bool 6 c = true ->
       event_field "Staff_type" <$> new !! 1%nat = Some (VStr "Cashier") /\
       event_field "Action" <$> new !! 2%nat = Some (VStr "Open")) /\
    (length new <= 4)%nat /\ (length new <= 5)%nat.
Proof.
  intros Hc Hd.
  destruct (snapshot_number_local queue _ c Hc) as (c' & Hc' & Ec).
  destruct (snapshot_number_local queue _ d Hd) as (d' & Hd' & Ed).
  destruct (from_queue_on_locals m station_id queue c' d' Hc' Hd')
    as (new & Hrun & Hnames & Hfields & _).
  assert (E6 : Qle_bool 6 c' = Qle_bool 6 c) by (rewrite Ec; reflexivity).
  assert (E120 : Qle_bool 120 d' = Qle_bool 120 d) by (rewrite Ed; reflexivity).
  rewrite E6, E120 in Hnames. rewrite E6 in Hfields.
  exists new. split; [exact Hrun|]. split; [exact Hnames|]. split; [exact Hfields|].
  assert (L : length (map (event_field "event_name") new) = length new)
    by apply length_map.
  rewrite Hnames, length_app in L.
  destruct (Qle_bool 6 c), (Qle_bool 120 d); cbn in L; lia.
Qed.

End MapperFacts.

Module MapperRuns.

Definition clock : nat -> string := fun _ => "2025-08-13T16:00:00+00:00".

Definition mapper0 : Mapper := {| _fh := []; _counter := 0; _clock := 0 |}.

(** The snapshot [{customer_count: 6}]. *)
Definition queue_six : dict := [("customer_count", VNum 6)].

(** A snapshot with seven customers and a dwell time of 130 seconds. *)
Definition queue_busy : dict :=
  [("customer_count", VNum 7); ("average_dwell_time", VNum 130)].

End MapperRuns.

Lemma from_queue_events_witness :
  snapshot_number MapperRuns.queue_busy "customer_count" = Some 7%Q /\
  snapshot_number MapperRuns.queue_busy "average_dwell_time" = Some 130%Q /\
  map (event_field "event_name")
      (_fh (snd (from_queue MapperRuns.clock MapperRuns.mapper0 "SCC1"
                   MapperRuns.queue_busy)))
    = [VStr "Long Queue Length"; VStr "Staffing Needs";
       VStr "Checkout Station Action"; VStr "Long Wait Time"].
Proof.
  split; [reflexivity|]. split; [reflexivity|].
  destruct (from_queue_events MapperRuns.clock MapperRuns.mapper0 "SCC1"
              MapperRuns.queue_busy 7 130 eq_refl eq_refl)
    as (new & Hrun & Hnames & _).
  rewrite Hrun. exact Hnames.
Defined.

(** * Properties of the dataset merger *)

(** ** The sort *)

Lemma insert_by_timestamp_perm (x : source_event) (l : list source_event) :
  Permutation (insert_by_timestamp x l) (x :: l).
Proof.
  induction l as [|y l IH]; simpl.
  - apply Permutation_refl.
  - destruct (Z.leb (timestamp x) (timestamp y)).
    + apply Permutation_refl.
    + eapply perm_trans; [apply perm_skip, IH | apply perm_swap].
Qed.

Lemma sort_by_timestamp_perm (l : list source_event) :
  Permutation (sort_by_timestamp l) l.
Proof.
  induction l as [|x l IH]; simpl.
  - apply perm_nil.
  - eapply perm_trans; [apply insert_by_timestamp_perm | apply perm_skip, IH].
Qed.

Lemma insert_by_timestamp_hd (x y : source_event) (l : list source_event) :
  time_le y x -> HdRel time_le y l -> HdRel time_le y (insert_by_timestamp x l).
Proof.
  intros Hyx Hl. destruct l as [|z l]; simpl.
  - constructor. exact Hyx.
  - destruct (Z.leb (timestamp x) (timestamp z)); constructor.
    + exact Hyx.
    + inversion Hl; assumption.
Qed.

Lemma insert_by_timestamp_sorted (x : source_event) (l : list source_event) :
  Sorted time_le l -> Sorted time_le (insert_by_timestamp x l).
Proof.
  induction 1 as [|y l Hs IH Hhd]; simpl.
  - repeat constructor.
  - destruct (Z.leb (timestamp x) (timestamp y)) eqn:E.
    + constructor; [constructor; assumption|].
      constructor. unfold time_le. lia.
    + constructor; [exact IH|].
      apply insert_by_timestamp_hd; [unfold time_le; lia | exact Hhd].
Qed.

Lemma sort_by_timestamp_sorted (l : list source_event) :
  Sorted time_le (sort_by_timestamp l).
Proof.
  induction l as [|x l IH]; simpl.
  - constructor.
  - apply insert_by_timestamp_sorted, IH.
Qed.

(** Inserting [x] moves it past strictly earlier events only, so the
    events of any one timestamp keep their order, [x] first among its
    equals. *)
Lemma at_time_insert (t : Z) (x : source_event) (l : list source_event) :
  at_time t (insert_by_timestamp x l) = at_time t (x :: l).
Proof.
  induction l as [|y l IH]; [reflexivity|]. simpl.
  destruct (Z.leb (timestamp x) (timestamp y)) eqn:E; [reflexivity|].
  unfold at_time in *. simpl in *. rewrite IH.
  destruct (Z.eqb (timestamp x) t) eqn:Ex, (Z.eqb (timestamp y) t) eqn:Ey;
    try reflexivity.
  lia.
Qed.

Lemma at_time_sort (t : Z) (l : list source_event) :
  at_time t (sort_by_timestamp l) = at_time t l.
Proof.
  induction l as [|x l IH]; [reflexivity|]. simpl.
  rewrite at_time_insert. unfold at_time in *. simpl. rewrite IH. reflexivity.
Qed.

(** A stable ascending sort has one possible result: two sorted lists
    that agree on the events of every timestamp, in order, are equal. *)
Lemma sorted_hd_min (x : source_event) (l : list source_event) (y : source_event) :
  Sorted time_le (x :: l) -> In y (x :: l) -> time_le x y.
Proof.
  intros Hs Hy. apply Sorted_StronglySorted in Hs.
  - inversion Hs as [|? ? _ Hall]; subst. destruct Hy as [<-|Hy].
    + unfold time_le. lia.
    + rewrite List.Forall_forall in Hall. apply Hall, Hy.
  - intros a b c. unfold time_le. lia.
Qed.

Lemma at_time_head_in (t : Z) (l : list source_event) (y : source_event)
    (r : list source_event) :
  at_time t l = y :: r -> In y l /\ timestamp y = t.
Proof.
  intros H. assert (In y (at_time t l)) as Hin by (rewrite H; left; reflexivity).
  unfold at_time in Hin. apply List.filter_In in Hin. destruct Hin as [Hin Ht].
  split; [exact Hin | lia].
Qed.

Lemma at_time_cons_same (x : source_event) (l : list source_event) :
  at_time (timestamp x) (x :: l) = x :: at_time (timestamp x) l.
Proof. unfold at_time. simpl. rewrite Z.eqb_refl. reflexivity. Qed.

Lemma stable_sort_unique (l1 l2 : list source_event) :
  Sorted time_le l1 -> Sorted time_le l2 ->
  (forall t, at_time t l1 = at_time t l2) ->
  l1 = l2.
Proof.
  revert l2. induction l1 as [|x l1 IH]; intros l2 H1 H2 Hsame.
  - destruct l2 as [|y l2]; [reflexivity|].
    specialize (Hsame (timestamp y)). rewrite at_time_cons_same in Hsame.
    discriminate.
  - destruct l2 as [|y l2].
    + specialize (Hsame (timestamp x)). rewrite at_time_cons_same in Hsame.
      discriminate.
    + assert (Hx := Hsame (timestamp x)). assert (Hy := Hsame (timestamp y)).
      rewrite at_time_cons_same in Hx, Hy.
      symmetry in Hx.
      destruct (at_time_head_in _ _ _ _ Hx) as [Hxin _].
      destruct (at_time_head_in _ _ _ _ Hy) as [Hyin _].
      pose proof (sorted_hd_min y l2 x H2 Hxin) as Hyx.
      pose proof (sorted_hd_min x l1 y H1 Hyin) as Hxy.
      assert (timestamp y = timestamp x) as Heq
        by (unfold time_le in *; lia).
      rewrite <- Heq, at_time_cons_same in Hx. inversion Hx; subst y.
      f_equal. apply IH.
      * inversion H1; assumption.
      * inversion H2; assumption.
      * intros t. specialize (Hsame t). unfold at_time in *. simpl in Hsame.
        destruct (Z.eqb (timestamp x) t); [inversion Hsame|]; trivial.
Qed.

(** ** Parsing and gathering *)

Section MergerFacts.

Variable fromisoformat : string -> option Z.

Lemma parse_timestamp_spec (event : dict) (dataset source : string) :
  parse_timestamp fromisoformat (dict_get event "timestamp") dataset source =
    match event_time fromisoformat event with
    | Some ts => inr ts
    | None => inl (timestamp_error dataset source (dict_get event "timestamp"))
    end.
Proof.
  unfold parse_timestamp, event_time, timestamp_error.
  destruct (dict_get event "timestamp"); reflexivity.
Qed.

(** The inner loop stops at the first record whose timestamp does not
    parse, with that record's error; otherwise it tags every record. *)
Lemma tag_events_spec (f : dataset_file) :
  match tag_events fromisoformat (dataset_name_of f) (source f) (loaded f) with
  | inr l =>
      Forall (fun event => event_time fromisoformat event <> None) (loaded f) /\
      l = tagged fromisoformat f
  | inl err =>
      exists event,
        In event (loaded f) /\ event_time fromisoformat event = None /\
        err = timestamp_error (dataset_name_of f) (source f)
                (dict_get event "timestamp")
  end.
Proof.
  unfold tagged. induction (loaded f) as [|event rest IH]; cbn [tag_events].
  - split; [constructor | reflexivity].
  - rewrite parse_timestamp_spec.
    destruct (event_time fromisoformat event) as [ts|] eqn:E; cbn [bind].
    + destruct (tag_events fromisoformat _ _ rest) as [err|l]; cbn [bind].
      * destruct IH as (ev & Hin & Hbad & Herr).
        exists ev. split; [right; exact Hin | split; assumption].
      * destruct IH as [Hall ->]. split.
        -- constructor; [congruence | exact Hall].
        -- cbn. rewrite E. reflexivity.
    + exists event. split; [left; reflexivity | split; [exact E | reflexivity]].
Qed.

Lemma gather_spec (files : list dataset_file) :
  match gather fromisoformat files with
  | inr (l, names) =>
      all_parse fromisoformat files /\
      l = tagged_input fromisoformat files /\
      names = map dataset_name_of files
  | inl err =>
      exists f event,
        In f files /\ In event (loaded f) /\
        event_time fromisoformat event = None /\
        err = timestamp_error (dataset_name_of f) (source f)
                (dict_get event "timestamp")
  end.
Proof.
  unfold all_parse, tagged_input.
  induction files as [|f files IH]; cbn [gather].
  - repeat split. constructor.
  - pose proof (tag_events_spec f) as T.
    destruct (tag_events fromisoformat _ _ (loaded f)) as [err|l]; cbn [bind].
    + destruct T as (ev & Hin & Hbad & Herr).
      exists f, ev. split; [left; reflexivity | repeat split; assumption].
    + destruct T as [Hall ->].
      destruct (gather fromisoformat files) as [err|[l names]]; cbn [bind].
      * destruct IH as (g & ev & Hg & Hin & Hbad & Herr).
        exists g, ev. split; [right; exact Hg | repeat split; assumption].
      * destruct IH as (Hfiles & -> & ->).
        repeat split. constructor; assumption.
Qed.

(** C2: when every record's timestamp parses, [collect_events] returns
    the merged sequence unless there is no record at all, and the sequence
    has non-decreasing timestamps, holds exactly the tagged input records,
    and keeps the records of any one timestamp in the order they have in
    the concatenation of the files' record lists (a stable sort). *)
Theorem collect_events_sorted_stable (files : list dataset_file) :
  all_parse fromisoformat files ->
  match collect_events fromisoformat files with
  | inr (merged, names) =>
      Sorted time_le merged /\
      Permutation merged (tagged_input fromisoformat files) /\
      (forall t, at_time t merged = at_time t (tagged_input fromisoformat files)) /\
      names = map dataset_name_of files
  | inl err =>
      err = NoEventsFound /\ tagged_input fromisoformat files = []
  end.
Proof.
  intros Hall. unfold collect_events.
  pose proof (gather_spec files) as G.
  destruct (gather fromisoformat files) as [err|[l names]]; cbn [bind].
  - destruct G as (f & ev & Hf & Hev & Hbad & _). exfalso.
    unfold all_parse in Hall. rewrite List.Forall_forall in Hall.
    specialize (Hall f Hf). rewrite List.Forall_forall in Hall.
    exact (Hall ev Hev Hbad).
  - destruct G as (_ & -> & ->).
    destruct (tagged_input fromisoformat files) as [|x l] eqn:E.
    + split; reflexivity.
    + split; [apply sort_by_timestamp_sorted|].
      split; [apply sort_by_timestamp_perm|].
      split; [intros t; apply at_time_sort | reflexivity].
Qed.

(** C8: when some record's timestamp field is missing, not a string, or
    does not parse, [collect_events] returns no sequence: it raises the
    error of such a record, which carries the record's dataset name and
    its raw timestamp value. *)
Theorem collect_events_malformed (files : list dataset_file) :
  Exists (fun f => Exists (fun event => event_time fromisoformat event = None)
                     (loaded f)) files ->
  exists f event,
    In f files /\ In event (loaded f) /\
    event_time fromisoformat event = None /\
    collect_events fromisoformat files =
      inl (timestamp_error (dataset_name_of f) (source f)
             (dict_get event "timestamp")).
Proof.
  intros Hbad. unfold collect_events.
  pose proof (gather_spec files) as G.
  destruct (gather fromisoformat files) as [err|[l names]]; cbn [bind].
  - destruct G as (f & ev & Hf & Hev & Hnone & ->).
    exists f, ev. repeat split; assumption.
  - destruct G as (Hall & _). exfalso.
    apply List.Exists_exists in Hbad. destruct Hbad as (f & Hf & Hex).
    apply List.Exists_exists in Hex. destruct Hex as (ev & Hev & Hnone).
    unfold all_parse in Hall. rewrite List.Forall_forall in Hall.
    specialize (Hall f Hf). rewrite List.Forall_forall in Hall.
    exact (Hall ev Hev Hnone).
Qed.

End MergerFacts.

Module MergerRuns.

(** A reader of the three timestamps used below, in microseconds from the
    first. *)
Definition read_time (s : string) : option Z :=
  if String.eqb s "2025-08-13T16:00:00+00:00" then Some 0%Z
  else if String.eqb s "2025-08-13T16:00:05+00:00" then Some 5000000%Z
  else if String.eqb s "2025-08-13T16:00:10+00:00" then Some 10000000%Z
  else None.

Definition pos_late : dict :=
  [("timestamp", VStr "2025-08-13T16:00:10+00:00"); ("station_id", VStr "SCC1")].
Definition pos_early : dict :=
  [("timestamp", VStr "2025-08-13T16:00:05+00:00"); ("station_id", VStr "SCC1")].
Definition rfid_early : dict :=
  [("timestamp", VStr "2025-08-13T16:00:05+00:00"); ("station_id", VStr "SCC2")].
Definition rfid_null : dict :=
  [("timestamp", VNone); ("station_id", VStr "SCC2")].

Definition pos_file : dataset_file :=
  {| source := "data/input/pos_transactions.jsonl"; stem := "pos_transactions";
     loaded := [pos_late; pos_early] |}.
Definition rfid_file : dataset_file :=
  {| source := "data/input/rfid_readings.jsonl"; stem := "rfid_readings";
     loaded := [rfid_early] |}.
Definition rfid_file_bad : dataset_file :=
  {| source := "data/input/rfid_readings.jsonl"; stem := "rfid_readings";
     loaded := [rfid_early; rfid_null] |}.

Example merged_order :
  collect_events read_time [pos_file; rfid_file] =
    inr ([ {| dataset := "POS_Transactions"; timestamp := 5000000; payload := pos_early |};
           {| dataset := "RFID_data"; timestamp := 5000000; payload := rfid_early |};
           {| dataset := "POS_Transactions"; timestamp := 10000000; payload := pos_late |} ],
         ["POS_Transactions"; "RFID_data"]).
Proof. reflexivity. Qed.

End MergerRuns.

Lemma collect_events_sorted_stable_witness :
  all_parse MergerRuns.read_time [MergerRuns.pos_file; MergerRuns.rfid_file] /\
  exists merged names,
    collect_events MergerRuns.read_time [MergerRuns.pos_file; MergerRuns.rfid_file]
      = inr (merged, names) /\
    Sorted time_le merged /\
    at_time 5000000 merged =
      at_time 5000000
        (tagged_input MergerRuns.read_time [MergerRuns.pos_file; MergerRuns.rfid_file]).
Proof.
  assert (H : all_parse MergerRuns.read_time [MergerRuns.pos_file; MergerRuns.rfid_file])
    by (unfold all_parse; repeat constructor; discriminate).
  split; [exact H|].
  pose proof (collect_events_sorted_stable MergerRuns.read_time
                [MergerRuns.pos_file; MergerRuns.rfid_file] H) as T.
  destruct (collect_events MergerRuns.read_time
              [MergerRuns.pos_file; MergerRuns.rfid_file]) as [err|[merged names]].
  - destruct T as [_ T]. vm_compute in T. discriminate T.
  - exists merged, names. destruct T as (Hs & _ & Hst & _).
    split; [reflexivity|]. split; [exact Hs | apply Hst].
Defined.

Lemma collect_events_malformed_witness :
  Exists (fun f => Exists (fun event => event_time MergerRuns.read_time event = None)
                     (loaded f))
         [MergerRuns.pos_file; MergerRuns.rfid_file_bad] /\
  exists f event,
    In f [MergerRuns.pos_file; MergerRuns.rfid_file_bad] /\
    In event (loaded f) /\
    event_time MergerRuns.read_time event = None /\
    collect_events MergerRuns.read_time [MergerRuns.pos_file; MergerRuns.rfid_file_bad] =
      inl (timestamp_error (dataset_name_of f) (source f)
             (dict_get event "timestamp")).
Proof.
  assert (H : Exists (fun f => Exists (fun event =>
                        event_time MergerRuns.read_time event = None) (loaded f))
                [MergerRuns.pos_file; MergerRuns.rfid_file_bad]).
  { apply Exists_cons_tl, Exists_cons_hd.
    apply Exists_cons_tl, Exists_cons_hd. reflexivity. }
  split; [exact H|].
  apply (collect_events_malformed MergerRuns.read_time
           [MergerRuns.pos_file; MergerRuns.rfid_file_bad] H).
Defined.

(** * Properties of the cycle span *)

Lemma positive_gap_cons (a : Z) (ts : list Z) (g : Z) :
  positive_gap ts g -> positive_gap (a :: ts) g.
Proof.
  intros (l1 & x & y & l2 & -> & Hg & Hpos).
  exists (a :: l1), x, y, l2. repeat split; assumption.
Qed.

Lemma positive_gap_inv (a b : Z) (ts : list Z) (g : Z) :
  positive_gap (a :: b :: ts) g ->
  (g = (b - a)%Z /\ (0 < g)%Z) \/ positive_gap (b :: ts) g.
Proof.
  intros (l1 & x & y & l2 & E & Hg & Hpos).
  destruct l1 as [|z l1]; simpl in E; inversion E; subst.
  - left. split; [reflexivity | assumption].
  - right. exists l1, x, y, l2. repeat split; assumption.
Qed.

Lemma positive_gap_short (ts : list Z) (g : Z) :
  (length ts <= 1)%nat -> ~ positive_gap ts g.
Proof.
  intros Hlen (l1 & x & y & l2 & -> & _). rewrite length_app in Hlen.
  simpl in Hlen. lia.
Qed.

Lemma scan_gaps_step (start : option Z) (a b : Z) (ts : list Z) :
  scan_gaps start (a :: b :: ts) =
    scan_gaps
      (if Z.ltb 0 (b - a)
          && match start with None => true | Some m => Z.ltb (b - a) m end
       then Some (b - a)%Z else start)
      (b :: ts).
Proof. reflexivity. Qed.

(** The loop keeps in [min_gap] the smallest positive gap seen so far. *)
Lemma scan_gaps_spec (ts : list Z) : forall (start : option Z),
  (scan_gaps start ts = start \/
   exists g, scan_gaps start ts = Some g /\ positive_gap ts g) /\
  (forall m, start = Some m ->
     exists g, scan_gaps start ts = Some g /\ (g <= m)%Z) /\
  (forall g', positive_gap ts g' ->
     exists g, scan_gaps start ts = Some g /\ (g <= g')%Z).
Proof.
  induction ts as [|a ts IH]; intros start.
  - simpl. split; [left; reflexivity|]. split.
    + intros m ->. exists m. split; [reflexivity | lia].
    + intros g' Hg'. exfalso. apply (positive_gap_short [] g'); simpl; [lia | exact Hg'].
  - destruct ts as [|b ts].
    + simpl. split; [left; reflexivity|]. split.
      * intros m ->. exists m. split; [reflexivity | lia].
      * intros g' Hg'. exfalso.
        apply (positive_gap_short [a] g'); simpl; [lia | exact Hg'].
    + rewrite scan_gaps_step.
      set (gap := (b - a)%Z).
      set (smaller := match start with None => true | Some m => Z.ltb gap m end).
      set (next := if Z.ltb 0 gap && smaller then Some gap else start).
      destruct (IH next) as (Hfrom & Hkeep & Hmin).
      assert (Hnext : forall m, start = Some m ->
                exists x, next = Some x /\ (x <= m)%Z).
      { intros m ->. subst next smaller.
        destruct (Z.ltb 0 gap) eqn:E0, (Z.ltb gap m) eqn:E1; simpl;
          eexists; (split; [reflexivity | lia]). }
      split; [|split].
      * destruct Hfrom as [Hsame | (g & Hg & Hpos)].
        -- rewrite Hsame. subst next.
           destruct (Z.ltb 0 gap && smaller) eqn:E; [|left; reflexivity].
           right. exists gap. split; [reflexivity|].
           exists [], a, b, ts. apply andb_true_iff in E.
           split; [reflexivity|]. split; [reflexivity | lia].
        -- right. exists g. split; [exact Hg | apply positive_gap_cons, Hpos].
      * intros m Hm. destruct (Hnext m Hm) as (x & Hx & Hxm).
        destruct (Hkeep x Hx) as (g & Hg & Hgx).
        exists g. split; [exact Hg | lia].
      * intros g' Hg'. apply positive_gap_inv in Hg'.
        destruct Hg' as [[-> Hpos] | Hrest]; [|apply Hmin, Hrest].
        fold gap in Hpos |- *.
        assert (exists x, next = Some x /\ (x <= gap)%Z) as (x & Hx & Hxg).
        { subst next smaller. replace (Z.ltb 0 gap) with true by lia.
          destruct start as [m|]; simpl.
          - destruct (Z.ltb gap m) eqn:E1; eexists;
              (split; [reflexivity | lia]).
          - eexists; split; [reflexivity | lia]. }
        destruct (Hkeep x Hx) as (g & Hg & Hgx).
        exists g. split; [exact Hg | lia].
Qed.

(** From [min_gap = None] the loop ends with the minimum positive gap of
    neighbours, or with [None] when no neighbours differ upwards. *)
Lemma scan_gaps_min (ts : list Z) :
  match scan_gaps None ts with
  | Some g => min_positive_gap ts g
  | None => forall g, ~ positive_gap ts g
  end.
Proof.
  destruct (scan_gaps_spec ts None) as (Hfrom & _ & Hmin).
  destruct (scan_gaps None ts) as [g|] eqn:E.
  - split.
    + destruct Hfrom as [Hsame | (g0 & Hg0 & Hpos)]; [discriminate|].
      inversion Hg0; subst. exact Hpos.
    + intros g' Hg'. destruct (Hmin g' Hg') as (g0 & Hg0 & Hle).
      inversion Hg0; subst. exact Hle.
  - intros g Hg. destruct (Hmin g Hg) as (g0 & Hg0 & _). discriminate.
Qed.

Lemma min_positive_gap_unique (ts : list Z) (g g' : Z) :
  min_positive_gap ts g -> min_positive_gap ts g' -> g = g'.
Proof.
  intros [Hp Hm] [Hp' Hm']. specialize (Hm g' Hp'). specialize (Hm' g Hp). lia.
Qed.

(** In a non-decreasing list without a positive gap of neighbours every
    element equals the first. *)
Lemma sorted_no_gap_constant (a : Z) (ts : list Z) :
  Sorted Z.le (a :: ts) -> (forall g, ~ positive_gap (a :: ts) g) ->
  Forall (fun t => t = a) (a :: ts).
Proof.
  revert a. induction ts as [|b ts IH]; intros a Hs Hno.
  - repeat constructor.
  - inversion Hs as [|? ? Hs' Hhd]; subst. inversion Hhd; subst.
    assert (b = a) as ->.
    { destruct (Z.eq_dec b a) as [|Hne]; [assumption|]. exfalso.
      apply (Hno (b - a)%Z). exists [], a, b, ts.
      split; [reflexivity|]. split; [reflexivity | lia]. }
    constructor; [reflexivity|]. apply IH; [exact Hs'|].
    intros g Hg. apply (Hno g). apply positive_gap_cons, Hg.
Qed.

Lemma constant_no_gap (a : Z) (ts : list Z) (g : Z) :
  Forall (fun t => t = a) ts -> ~ positive_gap ts g.
Proof.
  intros Hall (l1 & x & y & l2 & -> & -> & Hpos).
  rewrite List.Forall_forall in Hall.
  assert (x = a) by (apply Hall, in_or_app; right; left; reflexivity).
  assert (y = a) by (apply Hall, in_or_app; right; right; left; reflexivity).
  lia.
Qed.

Lemma sorted_last_ge (a : Z) (ts : list Z) :
  Sorted Z.le (a :: ts) -> (a <= List.last (a :: ts) a)%Z.
Proof.
  intros Hs. apply Sorted_StronglySorted in Hs; [|intros x y z; lia].
  inversion Hs as [|? ? _ Hall]; subst. rewrite List.Forall_forall in Hall.
  destruct ts as [|b ts]; [simpl; lia|].
  apply Hall. change (List.last (a :: b :: ts) a) with (List.last (b :: ts) a).
  destruct (exists_last (l := b :: ts)) as (l' & z & E); [discriminate|].
  rewrite E, last_last. apply in_or_app. right. left. reflexivity.
Qed.

Lemma constant_last (a : Z) (ts : list Z) :
  Forall (fun t => t = a) ts -> List.last ts a = a.
Proof.
  induction 1 as [|x l Hx _ IH]; [reflexivity|].
  destruct l; [exact Hx | exact IH].
Qed.

Lemma last_map_timestamp (e0 : source_event) (l : list source_event) :
  timestamp (List.last l e0) = List.last (map timestamp l) (timestamp e0).
Proof.
  induction l as [|x l IH]; [reflexivity|].
  destruct l; [reflexivity | exact IH].
Qed.

Lemma sorted_map_timestamp (l : list source_event) :
  Sorted time_le l -> Sorted Z.le (map timestamp l).
Proof.
  induction 1 as [|x l Hs IH Hhd]; simpl; constructor; [exact IH|].
  destruct Hhd; simpl; constructor. assumption.
Qed.

(** C7: for a non-empty merged (time-ordered) sequence the cycle span is
    computed without error and is strictly positive; it is the last
    timestamp minus the first plus the minimum strictly positive gap
    between neighbouring events when there is one, and one second when all
    timestamps are the same. One of the two cases always holds. *)
Theorem cycle_span_merged (e0 : source_event) (rest : list source_event) :
  Sorted time_le (e0 :: rest) ->
  let events := e0 :: rest in
  let ts := map timestamp events in
  let first := timestamp e0 in
  let last := timestamp (List.last events e0) in
  exists span,
    compute_cycle_span events = inr span /\
    (0 < span)%Z /\
    (forall g, min_positive_gap ts g -> span = (last - first + g)%Z) /\
    (Forall (fun t => t = first) ts -> span = one_second) /\
    ((exists g, min_positive_gap ts g) \/ Forall (fun t => t = first) ts).
Proof.
  intros Hs events ts first last.
  pose proof (sorted_map_timestamp _ Hs) as Hts. fold events in Hts. fold ts in Hts.
  assert (Hlast : (first <= last)%Z).
  { subst last. rewrite last_map_timestamp. apply (sorted_last_ge _ _ Hts). }
  unfold compute_cycle_span. fold events. cbn [events]. fold events.
  fold ts first last.
  pose proof (scan_gaps_min ts) as Hmin.
  destruct (scan_gaps None ts) as [g|] eqn:E.
  - assert (0 < g)%Z as Hg by (destruct Hmin as [(? & ? & ? & ? & _ & _ & H) _]; exact H).
    exists (last - first + g)%Z.
    replace (Z.leb (last - first + g) 0) with false by lia.
    split; [reflexivity|]. split; [lia|]. split; [|split].
    + intros g' Hg'. rewrite (min_positive_gap_unique ts g g' Hmin Hg'). reflexivity.
    + intros Hconst. exfalso. destruct Hmin as [Hpos _].
      exact (constant_no_gap first ts g Hconst Hpos).
    + left. exists g. exact Hmin.
  - pose proof (sorted_no_gap_constant first (map timestamp rest) Hts Hmin) as Hconst.
    assert (last = first) as Hlf.
    { subst last. rewrite last_map_timestamp. apply (constant_last first ts Hconst). }
    exists one_second. rewrite Hlf.
    replace (Z.leb (first - first + one_second) 0) with false by (unfold one_second; lia).
    replace (first - first + one_second)%Z with one_second by lia.
    split; [reflexivity|]. split; [unfold one_second; lia|]. split; [|split].
    + intros g [Hpos _]. exfalso. exact (Hmin g Hpos).
    + reflexivity.
    + right. exact Hconst.
Qed.

(** * Properties of the replay handler *)

Section HandlerFacts.

Variable isoformat : Z -> string.
Variable srv : ReplayTCPServer.

Lemma sent_app (o1 o2 : list output) : sent (o1 ++ o2) = sent o1 ++ sent o2.
Proof. unfold sent. apply omap_app. Qed.

(** One record: one frame, numbered with the current sequence number,
    which then goes up by one. *)
Lemma replay_record_spec (st : session) (r : source_event) :
  sent (fst (replay_record isoformat srv st r)) =
    [frame_of isoformat srv (loop_index st) (sequence st) r] /\
  loop_index (snd (replay_record isoformat srv st r)) = loop_index st /\
  sequence (snd (replay_record isoformat srv st r)) = (sequence st + 1)%Z.
Proof.
  unfold replay_record. cbn [fst snd loop_index sequence].
  rewrite sent_app. destruct (prev st); repeat split; reflexivity.
Qed.

Lemma replay_records_spec (records : list source_event) : forall (st : session),
  sent (fst (replay_records isoformat srv st records)) =
    imap (fun i r => frame_of isoformat srv (loop_index st)
                       (sequence st + Z.of_nat i) r) records /\
  loop_index (snd (replay_records isoformat srv st records)) = loop_index st /\
  sequence (snd (replay_records isoformat srv st records)) =
    (sequence st + Z.of_nat (length records))%Z.
Proof.
  induction records as [|r records IH]; intros st.
  - cbn. repeat split; lia.
  - cbn [replay_records].
    pose proof (replay_record_spec st r) as (H1 & H2 & H3).
    destruct (replay_record isoformat srv st r) as [out1 st1].
    cbn [fst snd] in H1, H2, H3.
    specialize (IH st1). destruct (replay_records isoformat srv st1 records) as [out2 st2].
    cbn [fst snd] in IH |- *. destruct IH as (I1 & I2 & I3).
    rewrite sent_app, H1, I1, I2, I3, H2, H3. cbn [imap length app].
    rewrite Z.add_0_r. split; [|split; [reflexivity | lia]].
    f_equal. apply imap_ext. intros i x _. cbn. f_equal. lia.
Qed.

(** The frames of cycle [k], where [k] cycles were completed before it
    from session [st]. *)
Lemma replay_cycles_spec (n : nat) : forall (st : session) (k : nat) (outs : list output),
  replay_cycles isoformat srv n st !! k = Some outs ->
  sent outs =
    imap (fun i r =>
            frame_of isoformat srv (loop_index st + Z.of_nat k)
              (sequence st + Z.of_nat k * Z.of_nat (length (events srv)) + Z.of_nat i) r)
         (events srv).
Proof.
  induction n as [|n IH]; intros st k outs Hk; [discriminate|].
  cbn [replay_cycles] in Hk.
  pose proof (replay_records_spec (events srv) st) as (H1 & H2 & H3).
  destruct (replay_records isoformat srv st (events srv)) as [out st1].
  cbn [fst snd] in H1, H2, H3.
  destruct k as [|k].
  - cbn in Hk. inversion Hk; subst outs. rewrite H1.
    apply imap_ext. intros i x _. cbn. f_equal; lia.
  - cbn in Hk. destruct (loop srv); [|discriminate].
    apply IH in Hk. rewrite Hk. cbn [loop_index sequence].
    rewrite H2, H3. apply imap_ext. intros i x _. cbn. f_equal; lia.
Qed.

Lemma replay_cycles_length (n : nat) : forall (st : session),
  loop srv = true -> length (replay_cycles isoformat srv n st) = n.
Proof.
  induction n as [|n IH]; intros st Hloop; [reflexivity|].
  cbn [replay_cycles].
  destruct (replay_records isoformat srv st (events srv)) as [out st1].
  rewrite Hloop. cbn [length]. rewrite IH by exact Hloop. reflexivity.
Qed.

(** The sequence numbers of all frames of the cycles run, in order. *)
Lemma replay_cycles_sequences (n : nat) : forall (st : session),
  f_sequence <$> sent (concat (replay_cycles isoformat srv n st)) =
    seqZ (sequence st)
         (Z.of_nat (length (sent (concat (replay_cycles isoformat srv n st))))).
Proof.
  induction n as [|n IH]; intros st; [reflexivity|].
  cbn [replay_cycles].
  pose proof (replay_records_spec (events srv) st) as (H1 & H2 & H3).
  destruct (replay_records isoformat srv st (events srv)) as [out st1].
  cbn [fst snd] in H1, H2, H3. cbn [concat].
  rewrite sent_app, fmap_app, length_app, Nat2Z.inj_add.
  rewrite seqZ_app by lia. f_equal.
  - rewrite H1, length_imap. clear.
    generalize (sequence st) as s0. generalize (loop_index st) as k0.
    induction (events srv) as [|r l IHl]; intros k0 s0; [reflexivity|].
    cbn [imap length fmap list_fmap].
    rewrite Nat2Z.inj_succ, seqZ_cons by lia. cbn. f_equal; [lia|].
    replace (Z.pred (Z.succ (Z.of_nat (length l)))) with (Z.of_nat (length l)) by lia.
    rewrite <- (IHl k0 (Z.succ s0)). f_equal.
    apply imap_ext. intros i x _. cbn. f_equal. lia.
  - destruct (loop srv); [|reflexivity].
    rewrite IH. cbn [sequence]. rewrite H3, H1, length_imap. reflexivity.
Qed.

Lemma sent_concat (ls : list (list output)) :
  sent (concat ls) = concat (map sent ls).
Proof.
  induction ls as [|l ls IH]; [reflexivity|].
  cbn [concat map]. rewrite sent_app, IH. reflexivity.
Qed.

(** The element at place [i] of the [k]-th of lists of the same length. *)
Lemma lookup_concat_uniform {A : Type} (m : nat) (ls : list (list A)) :
  forall (k i : nat) (l : list A) (x : A),
  Forall (fun l => length l = m) ls ->
  ls !! k = Some l -> l !! i = Some x ->
  concat ls !! (k * m + i)%nat = Some x.
Proof.
  induction ls as [|l0 ls IH]; intros k i l x Hall Hk Hi; [discriminate|].
  inversion Hall as [|? ? Hl0 Hall']; subst.
  destruct k as [|k]; cbn [concat].
  - cbn in Hk. inversion Hk; subst l0.
    rewrite lookup_app_l by (apply lookup_lt_Some in Hi; lia). exact Hi.
  - cbn in Hk. rewrite lookup_app_r by lia.
    replace (S k * length l0 + i - length l0)%nat with (k * length l0 + i)%nat by lia.
    apply (IH k i l x Hall' Hk Hi).
Qed.

Lemma concat_uniform_length {A : Type} (m : nat) (ls : list (list A)) :
  Forall (fun l => length l = m) ls -> length (concat ls) = (length ls * m)%nat.
Proof.
  induction 1 as [|l ls Hl _ IH]; [reflexivity|].
  cbn [concat length]. rewrite length_app, IH, Hl. lia.
Qed.

(** Every cycle sends one frame per record. *)
Lemma replay_cycles_uniform (n : nat) (st : session) :
  Forall (fun l => length l = length (events srv))
         (map sent (replay_cycles isoformat srv n st)).
Proof.
  apply Forall_forall. intros l Hl. apply list_elem_of_In, in_map_iff in Hl.
  destruct Hl as (outs & <- & Hin).
  apply list_elem_of_In, list_elem_of_lookup in Hin. destruct Hin as [k Hk].
  rewrite (replay_cycles_spec n st k outs Hk), length_imap. reflexivity.
Qed.

(** The cycles that are run: the first always, the later ones in loop
    mode. *)
Lemma replay_cycles_run (n k : nat) (st : session) :
  (k < n)%nat -> k = 0%nat \/ loop srv = true ->
  exists outs, replay_cycles isoformat srv n st !! k = Some outs.
Proof.
  intros Hk [->|Hloop].
  - destruct n as [|n]; [lia|]. cbn [replay_cycles].
    destruct (replay_records isoformat srv st (events srv)) as [out st1].
    exists out. reflexivity.
  - apply lookup_lt_is_Some_2. rewrite replay_cycles_length by exact Hloop. exact Hk.
Qed.

(** C3: what a connection receives after the banner. The frame of the
    i-th record in cycle [k] (every cycle in loop mode, the first one
    otherwise) is the frame sent at place [k * len(events) + i]; it
    carries the timestamp [record.timestamp + cycle_span * k], which in
    cycle [k + 1] is the one of cycle [k] plus the cycle span. The frames
    carry the sequence numbers 1, 2, 3, ... in the order sent, strictly
    increasing through every cycle boundary, and in loop mode [n] cycles
    send [n * len(events)] frames. *)
Theorem replay_sequence_and_shift (n : nat) :
  (forall (k i : nat) (r : source_event),
     (k < n)%nat -> k = 0%nat \/ loop srv = true ->
     events srv !! i = Some r ->
     exists f,
       sent (handle isoformat srv n) !! (k * length (events srv) + i)%nat = Some f /\
       f = frame_of isoformat srv (Z.of_nat k)
             (Z.of_nat (k * length (events srv) + i) + 1) r /\
       f_timestamp f = isoformat (adjusted srv r (Z.of_nat k)) /\
       adjusted srv r (Z.of_nat k + 1) =
         (adjusted srv r (Z.of_nat k) + cycle_span srv)%Z) /\
  (forall (j : nat) (f : frame),
     sent (handle isoformat srv n) !! j = Some f ->
     f_sequence f = (Z.of_nat j + 1)%Z) /\
  (forall (j j' : nat) (f f' : frame),
     (j < j')%nat ->
     sent (handle isoformat srv n) !! j = Some f ->
     sent (handle isoformat srv n) !! j' = Some f' ->
     (f_sequence f < f_sequence f')%Z) /\
  (loop srv = true ->
   length (sent (handle isoformat srv n)) = (n * length (events srv))%nat).
Proof.
  assert (Hsent : sent (handle isoformat srv n) =
                  concat (map sent (replay_cycles isoformat srv n initial_session))).
  { unfold handle. cbn [sent omap list_omap].
    fold (sent (concat (replay_cycles isoformat srv n initial_session))).
    apply sent_concat. }
  assert (Hseq : forall (j : nat) (f : frame),
            sent (handle isoformat srv n) !! j = Some f ->
            f_sequence f = (Z.of_nat j + 1)%Z).
  { intros j f Hj. rewrite Hsent, <- sent_concat in Hj.
    assert (f_sequence <$> sent (concat (replay_cycles isoformat srv n initial_session)) !! j
            = Some (f_sequence f)) as H
      by (rewrite Hj; reflexivity).
    rewrite <- list_lookup_fmap, replay_cycles_sequences in H.
    apply lookup_seqZ in H. cbn [sequence initial_session] in H. lia. }
  split; [|split; [exact Hseq|split]].
  - intros k i r Hk Hmode Hi.
    destruct (replay_cycles_run n k initial_session Hk Hmode) as [outs Houts].
    pose proof (replay_cycles_spec n initial_session k outs Houts) as Hcycle.
    eexists. split; [|split; [reflexivity|split]].
    + rewrite Hsent.
      apply (lookup_concat_uniform (length (events srv)) _ k i (sent outs)).
      * apply replay_cycles_uniform.
      * rewrite list_lookup_fmap, Houts. reflexivity.
      * rewrite Hcycle, list_lookup_imap, Hi. cbn [fmap option_fmap option_map].
        f_equal. cbn [initial_session loop_index sequence]. f_equal; lia.
    + reflexivity.
    + unfold adjusted. lia.
  - intros j j' f f' Hlt Hj Hj'.
    rewrite (Hseq j f Hj), (Hseq j' f' Hj'). lia.
  - intros Hloop. rewrite Hsent.
    rewrite (concat_uniform_length (length (events srv)))
      by apply replay_cycles_uniform.
    rewrite length_map, replay_cycles_length by exact Hloop. reflexivity.
Qed.

End HandlerFacts.

Module ReplayRuns.

(** The merged sequence of [MergerRuns.merged_order]. *)
Definition first_event : source_event :=
  {| dataset := "POS_Transactions"; timestamp := 5000000;
     payload := MergerRuns.pos_early |}.

Definition later_events : list source_event :=
  [ {| dataset := "RFID_data"; timestamp := 5000000;
       payload := MergerRuns.rfid_early |};
    {| dataset := "POS_Transactions"; timestamp := 10000000;
       payload := MergerRuns.pos_late |} ].

(** A looping server over it, at the default speed. *)
Definition server : ReplayTCPServer :=
  {| events := first_event :: later_events;
     dataset_names := ["POS_Transactions"; "RFID_data"];
     speed := 25; loop := true; cycle_span := 10000000 |}.

(** A rendering of instants as their number of microseconds. *)
Definition show_time (t : Z) : string := NilZero.string_of_int (Z.to_int t).

Example span_of_merged :
  compute_cycle_span (first_event :: later_events) = inr 10000000%Z.
Proof. reflexivity. Qed.

Example second_cycle_sequences :
  map f_sequence (sent (handle show_time server 2)) = [1; 2; 3; 4; 5; 6]%Z.
Proof. reflexivity. Qed.

End ReplayRuns.

Lemma cycle_span_merged_witness :
  Sorted time_le (ReplayRuns.first_event :: ReplayRuns.later_events) /\
  exists span,
    compute_cycle_span (ReplayRuns.first_event :: ReplayRuns.later_events)
      = inr span /\
    (0 < span)%Z.
Proof.
  assert (H : Sorted time_le (ReplayRuns.first_event :: ReplayRuns.later_events)).
  { repeat constructor; unfold time_le; simpl; lia. }
  split; [exact H|].
  destruct (cycle_span_merged ReplayRuns.first_event ReplayRuns.later_events H)
    as (span & Hspan & Hpos & _).
  exists span. split; [exact Hspan | exact Hpos].
Defined.

Lemma replay_sequence_and_shift_witness :
  loop ReplayRuns.server = true /\
  events ReplayRuns.server !! 0%nat = Some ReplayRuns.first_event /\
  exists f,
    sent (handle ReplayRuns.show_time ReplayRuns.server 2) !! 3%nat = Some f /\
    f_timestamp f = ReplayRuns.show_time 15000000 /\
    f_sequence f = 4%Z.
Proof.
  split; [reflexivity|]. split; [reflexivity|].
  destruct (proj1 (replay_sequence_and_shift ReplayRuns.show_time ReplayRuns.server 2)
              1%nat 0%nat ReplayRuns.first_event (le_n 2) (or_intror eq_refl) eq_refl)
    as (f & Hf & Hframe & Hts & _).
  exists f. split; [exact Hf|]. split; [exact Hts|].
  rewrite Hframe. reflexivity.
Defined.

(** * More on the fusion engine *)

(** ** Dicts: reading back what was written *)

Lemma dict_lookup_set_same (d : dict) (k : string) (v : value) :
  dict_lookup (dict_set d k v) k = Some v.
Proof.
  induction d as [|[k' v'] d IH]; simpl.
  - rewrite String.eqb_refl. reflexivity.
  - destruct (String.eqb k' k) eqn:E; simpl.
    + rewrite String.eqb_refl. reflexivity.
    + rewrite E. exact IH.
Qed.

Lemma dict_lookup_set_other (d : dict) (k k' : string) (v : value) :
  k <> k' -> dict_lookup (dict_set d k v) k' = dict_lookup d k'.
Proof.
  intros Hne. induction d as [|[k0 v0] d IH]; simpl.
  - destruct (String.eqb k k') eqn:E; [|reflexivity].
    apply String.eqb_eq in E. contradiction.
  - destruct (String.eqb k0 k) eqn:E; simpl.
    + apply String.eqb_eq in E. subst k0.
      destruct (String.eqb k k') eqn:E'; [|reflexivity].
      apply String.eqb_eq in E'. contradiction.
    + rewrite IH. reflexivity.
Qed.

Lemma dict_get_set_same (d : dict) (k : string) (v : value) :
  dict_get (dict_set d k v) k = v.
Proof. unfold dict_get, dict_get_default. rewrite dict_lookup_set_same. reflexivity. Qed.

Lemma dict_get_set_other (d : dict) (k k' : string) (v : value) :
  k <> k' -> dict_get (dict_set d k v) k' = dict_get d k'.
Proof.
  intros Hne. unfold dict_get, dict_get_default.
  rewrite dict_lookup_set_other by exact Hne. reflexivity.
Qed.

(** ** The bounded buffers *)

Lemma append_bounded_length (cap : nat) (xs : list dict) (x : dict) :
  (length xs <= cap)%nat -> (length (append_bounded cap xs x) <= cap)%nat.
Proof.
  intros H. unfold append_bounded.
  destruct (Nat.ltb cap (length (xs ++ [x]))) eqn:E.
  - destruct xs; simpl in *; [lia|]. rewrite length_app. simpl. lia.
  - apply Nat.ltb_ge in E. exact E.
Qed.

Lemma append_bounded_Forall (P : dict -> Prop) (cap : nat) (xs : list dict) (x : dict) :
  Forall P xs -> P x -> Forall P (append_bounded cap xs x).
Proof.
  intros Hxs Hx. unfold append_bounded.
  assert (Forall P (xs ++ [x])) as H by (apply Forall_app; split; [exact Hxs | repeat constructor; exact Hx]).
  destruct (Nat.ltb cap (length (xs ++ [x]))); [|exact H].
  destruct (xs ++ [x]); [constructor | inversion H; assumption].
Qed.

(** The buffer after an append: what was there and the new record, less
    the oldest if that is one too many. *)
Lemma append_bounded_drop (cap : nat) (xs : list dict) (x : dict) :
  (length xs <= cap)%nat ->
  append_bounded cap xs x = drop (length (xs ++ [x]) - cap) (xs ++ [x]).
Proof.
  intros H. unfold append_bounded. rewrite length_app. simpl.
  destruct (Nat.ltb cap (length xs + 1)) eqn:E.
  - apply Nat.ltb_lt in E. replace (length xs + 1 - cap)%nat with 1%nat by lia.
    destruct (xs ++ [x]); reflexivity.
  - apply Nat.ltb_ge in E. replace (length xs + 1 - cap)%nat with 0%nat by lia.
    reflexivity.
Qed.

Lemma append_bounded_fold (cap : nat) (ds xs : list dict) :
  (length xs <= cap)%nat ->
  fold_left (append_bounded cap) ds xs = drop (length (xs ++ ds) - cap) (xs ++ ds).
Proof.
  revert xs. induction ds as [|d ds IH]; intros xs H.
  - simpl. rewrite app_nil_r. replace (length xs - cap)%nat with 0%nat by lia.
    reflexivity.
  - simpl. rewrite IH by (apply append_bounded_length; exact H).
    rewrite append_bounded_drop by exact H.
    rewrite !length_app, length_drop, length_app. simpl.
    set (n := length xs). set (m := length ds).
    replace (xs ++ d :: ds) with ((xs ++ [d]) ++ ds)
      by (rewrite <- app_assoc; reflexivity).
    destruct (Nat.le_gt_cases (n + 1) cap) as [Hle|Hgt].
    + replace (n + 1 - cap)%nat with 0%nat by lia. simpl. f_equal. lia.
    + replace (n + 1 - cap)%nat with 1%nat by lia.
      assert (length (xs ++ [d]) = n + 1)%nat as Hl by (rewrite length_app; simpl; lia).
      rewrite <- (drop_app_le (xs ++ [d]) ds 1) by lia.
      rewrite drop_drop. f_equal. lia.
Qed.

Lemma latest_append_bounded (cap : nat) (xs : list dict) (x : dict) :
  (0 < cap)%nat -> latest (append_bounded cap xs x) = Some x.
Proof.
  intros Hcap. unfold latest, append_bounded.
  destruct (Nat.ltb cap (length (xs ++ [x]))) eqn:E.
  - apply Nat.ltb_lt in E. rewrite length_app in E. simpl in E.
    destruct xs as [|y xs]; simpl in *; [lia|]. apply last_snoc.
  - apply last_snoc.
Qed.

Lemma clamp_range (x : Q) : (0 <= clamp x <= 1)%Q.
Proof.
  unfold clamp, py_max, py_min.
  destruct (Qle_bool 1 x) eqn:E1.
  - destruct (Qle_bool 1 0) eqn:E2; split; lra.
  - assert (~ (1 <= x)%Q) as N by (rewrite <- Qle_bool_iff, E1; discriminate).
    destruct (Qle_bool x 0) eqn:E2.
    + split; lra.
    + assert (~ (x <= 0)%Q) as N2 by (rewrite <- Qle_bool_iff, E2; discriminate).
      split; lra.
Qed.

Lemma clamp_proper (x y : Q) : (x == y)%Q -> (clamp x == clamp y)%Q.
Proof.
  intros H. unfold clamp, py_max, py_min.
  assert (Qle_bool 1 x = Qle_bool 1 y) as -> by (rewrite H; reflexivity).
  destruct (Qle_bool 1 y); [reflexivity|].
  assert (Qle_bool x 0 = Qle_bool y 0) as -> by (rewrite H; reflexivity).
  destruct (Qle_bool y 0); [reflexivity | exact H].
Qed.

Section EngineFacts.

Variable float_of_str : string -> option Q.

Lemma station_ok_empty : station_ok empty_station.
Proof.
  constructor; simpl; try lia; try constructor; lra.
Qed.

Lemma _get_ok (e : FusionEngine) (st : string) :
  engine_ok e -> station_ok (fst (_get e st)) /\ engine_ok (snd (_get e st)).
Proof.
  intros He. unfold _get. destruct (state e !! st) as [s|] eqn:E; simpl.
  - split; [exact (He st s E) | exact He].
  - split; [exact station_ok_empty|].
    intros st' s' Hs'. simpl in Hs'.
    destruct (decide (st = st')) as [->|Hne].
    + rewrite lookup_insert_eq in Hs'. inversion Hs'. exact station_ok_empty.
    + rewrite lookup_insert_ne in Hs' by exact Hne. exact (He st' s' Hs').
Qed.

Lemma put_ok (e : FusionEngine) (st : string) (s : station_state) :
  engine_ok e -> station_ok s -> engine_ok (put e st s).
Proof.
  intros He Hs st' s' Hs'. simpl in Hs'.
  destruct (decide (st = st')) as [->|Hne].
  - rewrite lookup_insert_eq in Hs'. inversion Hs'; subst. exact Hs.
  - rewrite lookup_insert_ne in Hs' by exact Hne. exact (He st' s' Hs').
Qed.

Lemma with_pos_ok (s : station_state) (l : list dict) :
  station_ok s -> (length l <= 10)%nat -> station_ok (with_pos s l).
Proof. intros [] Hl. constructor; simpl; assumption. Qed.

Lemma apply_op_ok (e : FusionEngine) (op : engine_op) :
  engine_ok e -> engine_ok (snd (apply_op float_of_str e op)).
Proof.
  intros He. destruct op as [st d|st d|st d|st q|st]; cbn [apply_op].
  - unfold push_pos.
    destruct (_get_ok e st He) as [Hs He1].
    destruct (_get e st) as [s e1]. cbn [fst snd] in Hs, He1.
    assert (forall x, engine_ok (put e1 st (with_pos s (append_bounded 10 (pos s) x)))) as Hput.
    { intros x. apply put_ok; [exact He1|]. apply with_pos_ok; [exact Hs|].
      apply append_bounded_length, Hs. }
    destruct (truthy (dict_get d "sku")); [|apply Hput].
    destruct (weights_get (weights e) (dict_get d "sku")) as [x|[w|]]; apply Hput.
  - cbn [snd]. unfold push_rfid.
    destruct (truthy (dict_get d "sku") || truthy (dict_get d "epc")
              || truthy (dict_get d "location")) eqn:E; cbn [negb]; [|exact He].
    destruct (_get_ok e st He) as [Hs He1].
    destruct (_get e st) as [s e1]. cbn [fst snd] in Hs, He1.
    apply put_ok; [exact He1|]. destruct Hs. constructor; simpl; try assumption.
    + apply append_bounded_length. assumption.
    + apply append_bounded_Forall; assumption.
  - cbn [snd]. unfold push_vision.
    destruct (truthy (dict_get d "predicted_product")) eqn:E; cbn [negb]; [|exact He].
    destruct (_get_ok e st He) as [Hs He1].
    destruct (_get e st) as [s e1]. cbn [fst snd] in Hs, He1.
    apply put_ok; [exact He1|]. destruct Hs. constructor; simpl; try assumption.
    + apply append_bounded_length. assumption.
    + apply append_bounded_Forall; assumption.
  - cbn [snd]. unfold set_queue.
    destruct (_get_ok e st He) as [Hs He1].
    destruct (_get e st) as [s e1]. cbn [fst snd] in Hs, He1.
    apply put_ok; [exact He1|]. destruct Hs. constructor; simpl; assumption.
  - unfold compute.
    destruct (_get_ok e st He) as [Hs He1].
    destruct (_get e st) as [s e1]. cbn [fst snd] in Hs, He1.
    destruct (run_rules float_of_str e s) as [x|[sc rs]]; cbn [snd]; [exact He1|].
    apply put_ok; [exact He1|]. destruct Hs. constructor; simpl; try assumption.
    apply clamp_range.
Qed.

Lemma run_ops_ok (ops : list engine_op) : forall (e : FusionEngine),
  engine_ok e -> engine_ok (snd (run_ops float_of_str e ops)).
Proof.
  induction ops as [|op ops IH]; intros e He; [exact He|].
  cbn [run_ops]. pose proof (apply_op_ok e op He) as H1.
  destruct (apply_op float_of_str e op) as [[x|] e']; cbn [snd] in *.
  - exact H1.
  - apply IH, H1.
Qed.

(** X1: whatever calls the consumer makes on an engine that starts with no
    stations, and whether or not one of them raises, every station holds at
    most 10 POS, 20 RFID and 10 vision records, every vision record names
    a product, every RFID record has an sku, epc or location, and the
    stored score lies between 0 and 1. *)
Theorem buffers_stay_bounded (e : FusionEngine) (ops : list engine_op)
    (st : string) (s : station_state) :
  state e = ∅ ->
  state (snd (run_ops float_of_str e ops)) !! st = Some s ->
  station_ok s.
Proof.
  intros Hempty Hs. apply (run_ops_ok ops e) with (st := st); [|exact Hs].
  intros st' s' H. rewrite Hempty, lookup_empty in H. discriminate.
Qed.

End EngineFacts.

(** ** Score and reasons *)

Lemma total_weight_snoc (rs : list reason) (r : reason) :
  (total_weight (rs ++ [r]) == total_weight rs + reason_weight r)%Q.
Proof.
  induction rs as [|x rs IH]; simpl.
  - ring.
  - rewrite IH. ring.
Qed.

Lemma total_weight_nonneg (rs : list reason) : (0 <= total_weight rs)%Q.
Proof.
  induction rs as [|r rs IH]; simpl; [lra|]. destruct r; simpl; lra.
Qed.

Lemma total_weight_positive (r : reason) (rs : list reason) :
  (5 # 100 <= total_weight (r :: rs))%Q.
Proof.
  pose proof (total_weight_nonneg rs). simpl. destruct r; simpl; lra.
Qed.

(** The score an accumulator carries is the sum of the weights of its
    reasons. *)
Definition balanced (a : acc) : Prop := (fst a == total_weight (snd a))%Q.

Lemma balanced_add (a : acc) (r : reason) :
  balanced a -> balanced ((fst a + reason_weight r)%Q, snd a ++ [r]).
Proof.
  unfold balanced. simpl. intros H. rewrite total_weight_snoc, H. reflexivity.
Qed.

Section ScoreFacts.

Variable float_of_str : string -> option Q.

Lemma scan_avoidance_balanced (e : FusionEngine) (s : station_state) (a a' : acc) :
  balanced a -> scan_avoidance float_of_str e s a = inr a' -> balanced a'.
Proof.
  intros Ha. unfold scan_avoidance, bind.
  destruct (latest (vision s)) as [v|]; [|intros H; inversion H; subst; exact Ha].
  destruct (truthy (VDict v) && truthy (dict_get v "predicted_product"));
    [|intros H; inversion H; subst; exact Ha].
  destruct (py_float float_of_str _) as [x|accuracy]; [discriminate|].
  destruct (Qle_bool (vision_conf e) accuracy);
    [|intros H; inversion H; subst; exact Ha].
  destruct (negb (seen_in_pos s _)); [|intros H; inversion H; subst; exact Ha].
  pose proof (balanced_add a (VisionNotInPos (dict_get v "predicted_product") accuracy) Ha)
    as H1.
  destruct (in_bag s _); intros H; inversion H; subst.
  - exact (balanced_add _ RfidInBag H1).
  - exact H1.
Qed.

Lemma barcode_switching_balanced (s : station_state) (a : acc) :
  balanced a -> balanced (barcode_switching s a).
Proof.
  intros Ha. unfold barcode_switching.
  destruct (latest (vision s)) as [v|], (latest (pos s)) as [p|]; try exact Ha.
  match goal with |- context [if ?c then _ else _] => destruct c end; [|exact Ha].
  exact (balanced_add a (VisionNePos _ _) Ha).
Qed.

Lemma weight_discrepancy_balanced (e : FusionEngine) (s : station_state) (a : acc) :
  balanced a -> balanced (weight_discrepancy float_of_str e s a).
Proof.
  intros Ha. unfold weight_discrepancy.
  destruct (latest (pos s)) as [p|]; [|exact Ha].
  match goal with |- context [if ?c then _ else _] => destruct c end; [|exact Ha].
  destruct (weight_check float_of_str e p) as [x|[[o x] []]]; try exact Ha.
  exact (balanced_add a (WeightDelta o x) Ha).
Qed.

Lemma queue_pressure_balanced (s : station_state) (a a' : acc) :
  balanced a -> queue_pressure s a = inr a' -> balanced a'.
Proof.
  intros Ha. unfold queue_pressure, bind.
  destruct (queue_test (queue s)) as [x|[]]; intros H; inversion H; subst.
  - exact (balanced_add a HighQueuePressure Ha).
  - exact Ha.
Qed.

Lemma run_rules_balanced (e : FusionEngine) (s : station_state) (a : acc) :
  run_rules float_of_str e s = inr a -> balanced a.
Proof.
  unfold run_rules, bind.
  destruct (scan_avoidance float_of_str e s (0%Q, [])) as [x|a1] eqn:E1; [discriminate|].
  intros H. apply (queue_pressure_balanced s _ a) in H; [exact H|].
  apply weight_discrepancy_balanced, barcode_switching_balanced.
  apply (scan_avoidance_balanced e s (0%Q, []) a1); [|exact E1].
  unfold balanced. simpl. reflexivity.
Qed.

(** X2: the score [compute] returns lies between 0 and 1, is the sum of
    the weights of the returned reasons (0.40, 0.20, 0.30, 0.25, 0.05)
    cut off at 1, and is zero exactly when there is no reason. *)
Theorem score_is_clamped_sum (e : FusionEngine) (st : string) (res : fusion_result) :
  fst (compute float_of_str e st) = inr res ->
  (0 <= r_score res <= 1)%Q /\
  (r_score res == clamp (total_weight (r_reasons res)))%Q /\
  (r_reasons res = [] <-> (r_score res == 0)%Q).
Proof.
  unfold compute. destruct (_get e st) as [s e1].
  destruct (run_rules float_of_str e s) as [x|[sc rs]] eqn:R; cbn [fst]; [discriminate|].
  intros H. inversion H; subst res; clear H. cbn [r_score r_reasons score with_result].
  pose proof (run_rules_balanced e s (sc, rs) R) as Hb. unfold balanced in Hb.
  cbn [fst snd] in Hb.
  assert (clamp sc == clamp (total_weight rs))%Q as Hc by (apply clamp_proper, Hb).
  split; [apply clamp_range|]. split; [exact Hc|].
  rewrite Hc. split.
  - intros ->. reflexivity.
  - intros Hz. destruct rs as [|r rs]; [reflexivity|]. exfalso.
    pose proof (total_weight_positive r rs) as Hp.
    pose proof (clamp_ge (5 # 100) (total_weight (r :: rs))) as Hge.
    assert (5 # 100 <= clamp (total_weight (r :: rs)))%Q by (apply Hge; lra).
    lra.
Qed.

End ScoreFacts.

(** ** Stations do not interfere *)

Section IsolationFacts.

Variable float_of_str : string -> option Q.

Lemma station_of_get (e : FusionEngine) (st : string) :
  fst (_get e st) = station_of e st.
Proof. unfold _get, station_of. destruct (state e !! st); reflexivity. Qed.

Lemma _get_other (e : FusionEngine) (st st' : string) :
  st <> st' -> state (snd (_get e st)) !! st' = state e !! st'.
Proof.
  intros Hne. unfold _get. destruct (state e !! st); simpl; [reflexivity|].
  apply lookup_insert_ne. exact Hne.
Qed.

Lemma _get_config (e : FusionEngine) (st : string) :
  vision_conf (snd (_get e st)) = vision_conf e /\
  weight_tol_pct (snd (_get e st)) = weight_tol_pct e /\
  weights (snd (_get e st)) = weights e.
Proof. unfold _get. destruct (state e !! st); simpl; auto. Qed.

Lemma put_get_other (e : FusionEngine) (st st' : string) (s : station_state) :
  st <> st' -> state (put (snd (_get e st)) st s) !! st' = state e !! st'.
Proof.
  intros Hne. simpl. rewrite lookup_insert_ne by exact Hne.
  apply _get_other, Hne.
Qed.

Lemma put_get_config (e : FusionEngine) (st : string) (s : station_state) :
  vision_conf (put (snd (_get e st)) st s) = vision_conf e /\
  weight_tol_pct (put (snd (_get e st)) st s) = weight_tol_pct e /\
  weights (put (snd (_get e st)) st s) = weights e.
Proof. simpl. apply _get_config. Qed.

(** What a call leaves alone: the other stations, the thresholds and the
    weight table. *)
Definition same_elsewhere (st : string) (e e' : FusionEngine) : Prop :=
  (forall st', st <> st' -> state e' !! st' = state e !! st') /\
  vision_conf e' = vision_conf e /\
  weight_tol_pct e' = weight_tol_pct e /\
  weights e' = weights e.

Lemma same_elsewhere_refl (st : string) (e : FusionEngine) : same_elsewhere st e e.
Proof. repeat split. Qed.

Lemma same_elsewhere_get (st : string) (e : FusionEngine) :
  same_elsewhere st e (snd (_get e st)).
Proof.
  split; [intros st' Hne; apply _get_other, Hne | apply _get_config].
Qed.

Lemma same_elsewhere_put (st : string) (e : FusionEngine) (s : station_state) :
  same_elsewhere st e (put (snd (_get e st)) st s).
Proof.
  split; [intros st' Hne; apply put_get_other, Hne | apply put_get_config].
Qed.

Lemma apply_op_elsewhere (e : FusionEngine) (op : engine_op) :
  same_elsewhere (op_station op) e (snd (apply_op float_of_str e op)).
Proof.
  destruct op as [st d|st d|st d|st q|st]; cbn [apply_op op_station].
  - unfold push_pos.
    pose proof (fun s => same_elsewhere_put st e s) as Hput.
    destruct (_get e st) as [s e1]. cbn [snd] in Hput.
    destruct (truthy (dict_get d "sku")); [|apply Hput].
    destruct (weights_get (weights e) (dict_get d "sku")) as [x|[w|]]; apply Hput.
  - cbn [snd]. unfold push_rfid.
    match goal with |- context [if ?c then _ else _] => destruct c end;
      [apply same_elsewhere_refl|].
    pose proof (fun s => same_elsewhere_put st e s) as Hput.
    destruct (_get e st) as [s e1]. apply Hput.
  - cbn [snd]. unfold push_vision.
    match goal with |- context [if ?c then _ else _] => destruct c end;
      [apply same_elsewhere_refl|].
    pose proof (fun s => same_elsewhere_put st e s) as Hput.
    destruct (_get e st) as [s e1]. apply Hput.
  - cbn [snd]. unfold set_queue.
    pose proof (fun s => same_elsewhere_put st e s) as Hput.
    destruct (_get e st) as [s e1]. apply Hput.
  - unfold compute.
    pose proof (fun s => same_elsewhere_put st e s) as Hput.
    pose proof (same_elsewhere_get st e) as Hget.
    destruct (_get e st) as [s e1]. cbn [snd] in Hput, Hget.
    destruct (run_rules float_of_str e s) as [x|[sc rs]]; cbn [snd];
      [exact Hget | apply Hput].
Qed.

(** The outcome of [compute] for a station is a function of that
    station's state, the thresholds and the weight table. *)
Lemma compute_congr (e e' : FusionEngine) (st : string) :
  state e' !! st = state e !! st ->
  vision_conf e' = vision_conf e ->
  weight_tol_pct e' = weight_tol_pct e ->
  weights e' = weights e ->
  fst (compute float_of_str e' st) = fst (compute float_of_str e st).
Proof.
  intros Hs Hv Ht Hw. unfold compute, _get. rewrite Hs.
  destruct (state e !! st) as [s|].
  - rewrite (run_rules_congr float_of_str e' e s s) by (assumption || reflexivity).
    destruct (run_rules float_of_str e s) as [x|[sc rs]]; reflexivity.
  - rewrite (run_rules_congr float_of_str e' e empty_station empty_station)
      by (assumption || reflexivity).
    destruct (run_rules float_of_str e empty_station) as [x|[sc rs]]; reflexivity.
Qed.

(** X3: a call about one station leaves every other station's state as it
    was, so [compute] for another station returns after the call what it
    would have returned before it. *)
Theorem other_stations_untouched (e : FusionEngine) (op : engine_op) (st' : string) :
  op_station op <> st' ->
  state (snd (apply_op float_of_str e op)) !! st' = state e !! st' /\
  fst (compute float_of_str (snd (apply_op float_of_str e op)) st') =
    fst (compute float_of_str e st').
Proof.
  intros Hne. destruct (apply_op_elsewhere e op) as (Hs & Hv & Ht & Hw).
  split; [apply Hs, Hne|].
  apply compute_congr; [apply Hs, Hne | assumption..].
Qed.

(** X4: [compute] changes nothing of a station but its stored score and
    reasons: the buffers and the queue snapshot stay, a returned result is
    what is stored, and when [compute] raises the score and reasons stored
    before are still there. *)
Theorem compute_keeps_signals (e : FusionEngine) (st : string) :
  let before := station_of e st in
  let after := station_of (snd (compute float_of_str e st)) st in
  pos after = pos before /\ rfid after = rfid before /\
  vision after = vision before /\ queue after = queue before /\
  match fst (compute float_of_str e st) with
  | inr res => score after = r_score res /\ reasons after = r_reasons res
  | inl _ => score after = score before /\ reasons after = reasons before
  end.
Proof.
  cbv zeta. unfold compute.
  pose proof (_get_spec e st) as G. pose proof (station_of_get e st) as S.
  destruct (_get e st) as [s e1]. destruct G as (Hs & _). cbn [fst] in S.
  rewrite <- S.
  destruct (run_rules float_of_str e s) as [x|[sc rs]]; cbn [fst snd].
  - unfold station_of. rewrite Hs. repeat split.
  - unfold station_of. cbn. rewrite lookup_insert_eq. repeat split.
Qed.

End IsolationFacts.

(** ** What the buffers hold *)

Section BufferFacts.

Lemma station_of_put (e : FusionEngine) (st : string) (s : station_state) :
  station_of (put e st s) st = s.
Proof. unfold station_of. simpl. rewrite lookup_insert_eq. reflexivity. Qed.

Lemma push_rfid_station (e : FusionEngine) (st : string) (d : dict) :
  rfid (station_of (push_rfid e st d) st) =
    if rfid_has_signal d then append_bounded 20 (rfid (station_of e st)) d
    else rfid (station_of e st).
Proof.
  unfold push_rfid. fold (rfid_has_signal d).
  destruct (rfid_has_signal d); cbn [negb]; [|reflexivity].
  pose proof (station_of_get e st) as S. destruct (_get e st) as [s e1].
  cbn [fst] in S. rewrite station_of_put, <- S. reflexivity.
Qed.

Lemma push_vision_station (e : FusionEngine) (st : string) (d : dict) :
  vision (station_of (push_vision e st d) st) =
    if vision_has_product d then append_bounded 10 (vision (station_of e st)) d
    else vision (station_of e st).
Proof.
  unfold push_vision. fold (vision_has_product d).
  destruct (vision_has_product d); cbn [negb]; [|reflexivity].
  pose proof (station_of_get e st) as S. destruct (_get e st) as [s e1].
  cbn [fst] in S. rewrite station_of_put, <- S. reflexivity.
Qed.

Lemma push_pos_station (e : FusionEngine) (st : string) (d : dict) :
  station_of (snd (push_pos e st d)) st =
    with_pos (station_of e st)
      (append_bounded 10 (pos (station_of e st)) (stored_pos (weights e) d)).
Proof.
  unfold push_pos, stored_pos.
  pose proof (station_of_get e st) as S. destruct (_get e st) as [s e1].
  cbn [fst] in S. rewrite <- S.
  destruct (truthy (dict_get d "sku")); [|apply station_of_put].
  destruct (weights_get (weights e) (dict_get d "sku")) as [x|[w|]];
    apply station_of_put.
Qed.

Lemma push_pos_weights (e : FusionEngine) (st : string) (d : dict) :
  weights (snd (push_pos e st d)) = weights e.
Proof.
  unfold push_pos. pose proof (_get_config e st) as (_ & _ & W).
  destruct (_get e st) as [s e1]. cbn [snd] in W.
  destruct (truthy (dict_get d "sku")); [|exact W].
  destruct (weights_get (weights e) (dict_get d "sku")) as [x|[w|]]; exact W.
Qed.

(** X5: after a run of [push_rfid] calls for a station, its RFID buffer
    holds the newest 20 of what it held before followed by the pushed
    frames that have an sku, epc or location, in order; frames with none
    of the three leave no trace. *)
Theorem rfid_buffer_is_newest (e : FusionEngine) (st : string) (ds : list dict) :
  (length (rfid (station_of e st)) <= 20)%nat ->
  rfid (station_of (fold_left (fun e d => push_rfid e st d) ds e) st) =
    newest 20 (rfid (station_of e st) ++ List.filter rfid_has_signal ds).
Proof.
  intros Hlen. unfold newest. rewrite <- append_bounded_fold by exact Hlen.
  clear Hlen. revert e. induction ds as [|d ds IH]; intros e; [reflexivity|].
  cbn [fold_left List.filter]. rewrite IH, push_rfid_station.
  destruct (rfid_has_signal d); reflexivity.
Qed.

(** X6: after a run of [push_vision] calls for a station, its vision
    buffer holds the newest 10 of what it held before followed by the
    pushed frames that name a product, in order. *)
Theorem vision_buffer_is_newest (e : FusionEngine) (st : string) (ds : list dict) :
  (length (vision (station_of e st)) <= 10)%nat ->
  vision (station_of (fold_left (fun e d => push_vision e st d) ds e) st) =
    newest 10 (vision (station_of e st) ++ List.filter vision_has_product ds).
Proof.
  intros Hlen. unfold newest. rewrite <- append_bounded_fold by exact Hlen.
  clear Hlen. revert e. induction ds as [|d ds IH]; intros e; [reflexivity|].
  cbn [fold_left List.filter]. rewrite IH, push_vision_station.
  destruct (vision_has_product d); reflexivity.
Qed.

(** X7: after a run of [push_pos] calls for a station, its POS buffer
    holds the newest 10 of what it held before followed by the pushed
    records, in order, each with the table's weight of its SKU attached
    as ["expected_weight"] when the table lists the SKU. *)
Theorem pos_buffer_is_newest (e : FusionEngine) (st : string) (ds : list dict) :
  (length (pos (station_of e st)) <= 10)%nat ->
  pos (station_of (fold_left (fun e d => snd (push_pos e st d)) ds e) st) =
    newest 10 (pos (station_of e st) ++ map (stored_pos (weights e)) ds).
Proof.
  intros Hlen. unfold newest. rewrite <- append_bounded_fold by exact Hlen.
  clear Hlen. revert e. induction ds as [|d ds IH]; intros e; [reflexivity|].
  cbn [fold_left map]. rewrite IH, push_pos_station, push_pos_weights.
  reflexivity.
Qed.

End BufferFacts.

(** ** Which rule a reason comes from *)

Section RuleFacts.

Variable float_of_str : string -> option Q.

(** The reasons each rule can append. *)
Lemma scan_avoidance_reasons (e : FusionEngine) (s : station_state) (a a' : acc) :
  scan_avoidance float_of_str e s a = inr a' ->
  snd a' = snd a \/
  exists p x, seen_in_pos s p = false /\
    (snd a' = snd a ++ [VisionNotInPos p x] \/
     snd a' = snd a ++ [VisionNotInPos p x; RfidInBag]).
Proof.
  unfold scan_avoidance, bind.
  destruct (latest (vision s)) as [v|]; [|intros H; inversion H; auto].
  destruct (truthy (VDict v) && truthy (dict_get v "predicted_product"));
    [|intros H; inversion H; auto].
  destruct (py_float float_of_str _) as [x|accuracy]; [discriminate|].
  destruct (Qle_bool (vision_conf e) accuracy); [|intros H; inversion H; auto].
  destruct (seen_in_pos s (dict_get v "predicted_product")) eqn:Seen; cbn [negb];
    [intros H; inversion H; auto|].
  destruct (in_bag s _); intros H; inversion H; subst; cbn [fst snd]; right;
    exists (dict_get v "predicted_product"), accuracy; (split; [exact Seen|]).
  - right. rewrite <- app_assoc. reflexivity.
  - left. reflexivity.
Qed.

Lemma barcode_switching_reasons (s : station_state) (a : acc) :
  snd (barcode_switching s a) = snd a \/
  exists p k, snd (barcode_switching s a) = snd a ++ [VisionNePos p k].
Proof.
  unfold barcode_switching.
  destruct (latest (vision s)) as [v|], (latest (pos s)) as [p|]; auto.
  match goal with |- context [if ?c then _ else _] => destruct c end; auto.
  right. eexists _, _. reflexivity.
Qed.

Lemma queue_pressure_reasons (s : station_state) (a a' : acc) :
  queue_pressure s a = inr a' ->
  snd a' = snd a \/ snd a' = snd a ++ [HighQueuePressure].
Proof.
  unfold queue_pressure, bind.
  destruct (queue_test (queue s)) as [x|[]]; intros H; inversion H; auto.
Qed.

(** The weight reasons of a result are those of rule 3. *)
Lemma run_rules_weight_reasons (e : FusionEngine) (s : station_state)
    (sc : Q) (rs : list reason) (o x : Q) :
  run_rules float_of_str e s = inr (sc, rs) ->
  (In (WeightDelta o x) rs <->
   exists a, In (WeightDelta o x) (snd (weight_discrepancy float_of_str e s a))
             /\ ~ In (WeightDelta o x) (snd a)).
Proof.
  unfold run_rules, bind.
  destruct (scan_avoidance float_of_str e s (0%Q, [])) as [y|a1] eqn:E1; [discriminate|].
  intros Hq.
  assert (~ In (WeightDelta o x) (snd (barcode_switching s a1))) as Hno.
  { apply scan_avoidance_reasons in E1. cbn [snd] in E1.
    destruct (barcode_switching_reasons s a1) as [-> | (p & k & ->)];
      [|rewrite in_app_iff];
      (destruct E1 as [-> | (p' & x' & _ & [-> | ->])]; simpl;
       intuition discriminate). }
  apply queue_pressure_reasons in Hq. cbn [snd] in Hq.
  set (a2 := barcode_switching s a1) in *.
  split.
  - intros Hin. exists a2. split; [|exact Hno].
    destruct Hq as [-> | ->]; [exact Hin|].
    apply in_app_iff in Hin. destruct Hin as [Hin|Hin]; [exact Hin|].
    simpl in Hin. intuition discriminate.
  - intros (a & Hin & Hnot).
    assert (In (WeightDelta o x) (snd (weight_discrepancy float_of_str e s a2))) as H2.
    { unfold weight_discrepancy in Hin |- *.
      destruct (latest (pos s)) as [p|]; [|contradiction].
      destruct (truthy (VDict p) && negb (is_none (dict_get p "weight_g")));
        [|contradiction].
      destruct (weight_check float_of_str e p) as [y|[[o' x'] []]];
        try contradiction.
      cbn [snd] in Hin |- *. apply in_app_iff in Hin. apply in_app_iff.
      destruct Hin as [Hin|Hin]; [contradiction | right; exact Hin]. }
    destruct Hq as [-> | ->]; [exact H2 | apply in_app_iff; left; exact H2].
Qed.

(** The scan-avoidance reasons of a result are those of rule 1, which
    fires only for a product no POS record of the buffer carries. *)
Lemma run_rules_scan_reasons (e : FusionEngine) (s : station_state)
    (sc : Q) (rs : list reason) (p : value) (x : Q) :
  run_rules float_of_str e s = inr (sc, rs) ->
  In (VisionNotInPos p x) rs -> seen_in_pos s p = false.
Proof.
  unfold run_rules, bind.
  destruct (scan_avoidance float_of_str e s (0%Q, [])) as [y|a1] eqn:E1; [discriminate|].
  intros Hq Hin.
  apply queue_pressure_reasons in Hq. cbn [snd] in Hq.
  assert (In (VisionNotInPos p x) (snd (weight_discrepancy float_of_str e s
                                          (barcode_switching s a1)))) as H3.
  { destruct Hq as [-> | ->]; [exact Hin|].
    apply in_app_iff in Hin. destruct Hin as [Hin|Hin]; [exact Hin|].
    simpl in Hin. intuition discriminate. }
  assert (In (VisionNotInPos p x) (snd (barcode_switching s a1))) as H2.
  { unfold weight_discrepancy in H3.
    destruct (latest (pos s)) as [r|]; [|exact H3].
    destruct (truthy (VDict r) && negb (is_none (dict_get r "weight_g")));
      [|exact H3].
    destruct (weight_check float_of_str e r) as [y|[[o' x'] []]]; try exact H3.
    cbn [snd] in H3. apply in_app_iff in H3.
    destruct H3 as [H3|H3]; [exact H3|]. simpl in H3. intuition discriminate. }
  assert (In (VisionNotInPos p x) (snd a1)) as H1.
  { destruct (barcode_switching_reasons s a1) as [E | (p' & k & E)];
      rewrite E in H2; [exact H2|].
    apply in_app_iff in H2. destruct H2 as [H2|H2]; [exact H2|].
    simpl in H2. intuition discriminate. }
  apply scan_avoidance_reasons in E1. cbn [snd] in E1.
  destruct E1 as [E | (p' & x' & Seen & [E | E])]; rewrite E in H1; simpl in H1.
  - contradiction.
  - destruct H1 as [H1|[]]. inversion H1; subst. exact Seen.
  - destruct H1 as [H1|[H1|[]]]; [|discriminate]. inversion H1; subst. exact Seen.
Qed.

End RuleFacts.

(** ** Pushing a record, then scoring *)

Section PushThenCompute.

Variable float_of_str : string -> option Q.

Lemma latest_pushed_pos (e : FusionEngine) (st : string) (d : dict) :
  latest (pos (station_of (snd (push_pos e st d)) st)) =
    Some (stored_pos (weights e) d).
Proof.
  rewrite push_pos_station. cbn [pos with_pos].
  apply latest_append_bounded. lia.
Qed.

Lemma dict_set_nonempty (d : dict) (k : string) (v : value) :
  truthy (VDict (dict_set d k v)) = true.
Proof.
  destruct d as [|[k' v'] d]; simpl; [reflexivity|].
  destruct (String.eqb k' k); reflexivity.
Qed.

(** X8: a POS record whose SKU the table lists with a non-zero weight [w]
    and whose observed weight reads as the number [obs] is pushed without
    error and becomes the latest record with [expected_weight = w]. The
    next [compute] checks the observed weight against the table's weight:
    a weight reason in its result carries [obs] and [w] and no other
    numbers, and when the observed weight equals [w] and the tolerance
    [weight_tol_pct * w] is not negative the result has no weight reason. *)
Theorem weight_rule_after_push (e : FusionEngine) (st : string) (d : dict)
    (k : string) (w obs : Q) (raw : value) :
  dict_get d "sku" = VStr k -> k <> "" ->
  weights e !! k = Some w -> Qeq_bool w 0 = false ->
  dict_lookup d "weight_g" = Some raw -> raw <> VNone ->
  py_float float_of_str raw = inr obs ->
  let e' := snd (push_pos e st d) in
  fst (push_pos e st d) = None /\
  fst (last_pos e' st) = Some (dict_set d "expected_weight" (VNum w)) /\
  (forall res o x,
     fst (compute float_of_str e' st) = inr res ->
     In (WeightDelta o x) (r_reasons res) -> o = obs /\ x = w) /\
  ((obs == w)%Q -> (0 <= weight_tol_pct e * w)%Q ->
   forall res o x,
     fst (compute float_of_str e' st) = inr res ->
     ~ In (WeightDelta o x) (r_reasons res)).
Proof.
  intros Hsku Hk Hw Hw0 Hraw Hnone Hobs e'.
  set (fires := Qgt_bool (py_abs (obs - w)) (weight_tol_pct e * w)).
  assert (Htruthy : truthy (dict_get d "sku") = true).
  { rewrite Hsku. simpl. destruct (String.eqb k "") eqn:E; [|reflexivity].
    apply String.eqb_eq in E. contradiction. }
  assert (Hstored : stored_pos (weights e) d = dict_set d "expected_weight" (VNum w)).
  { unfold stored_pos. rewrite Htruthy, Hsku. simpl. rewrite Hw. reflexivity. }
  assert (Hlatest : latest (pos (station_of e' st)) =
                    Some (dict_set d "expected_weight" (VNum w))).
  { unfold e'. rewrite latest_pushed_pos, Hstored. reflexivity. }
  assert (Hcfg : weight_tol_pct e' = weight_tol_pct e /\ weights e' = weights e).
  { destruct (apply_op_elsewhere float_of_str e (PushPos st d)) as (_ & _ & Ht & Hws).
    split; assumption. }
  assert (Hrule : forall a,
     weight_discrepancy float_of_str e' (station_of e' st) a =
       if fires then ((fst a + (25 # 100))%Q, snd a ++ [WeightDelta obs w]) else a).
  { intros a. unfold weight_discrepancy. rewrite Hlatest, dict_set_nonempty.
    rewrite dict_get_set_other by discriminate.
    unfold dict_get at 1, dict_get_default. rewrite Hraw.
    replace (negb (is_none raw)) with true by (destruct raw; try reflexivity; contradiction).
    cbn [andb]. unfold weight_check, dict_index, bind.
    rewrite dict_lookup_set_other by discriminate. rewrite Hraw, Hobs.
    unfold expected_weight. rewrite dict_get_set_same.
    replace (truthy (VNum w)) with true by (simpl; rewrite Hw0; reflexivity).
    cbn [py_float]. destruct Hcfg as [-> _]. fold fires.
    destruct fires; reflexivity. }
  assert (Hreasons : forall res o x,
     fst (compute float_of_str e' st) = inr res ->
     In (WeightDelta o x) (r_reasons res) -> fires = true /\ o = obs /\ x = w).
  { intros res o x Hres. unfold compute in Hres.
    pose proof (station_of_get e' st) as S.
    destruct (_get e' st) as [s e1]. cbn [fst] in S. subst s.
    destruct (run_rules float_of_str e' (station_of e' st)) as [y|[sc rs]] eqn:R;
      cbn [fst] in Hres; [discriminate|].
    inversion Hres; subst res; clear Hres. cbn [r_reasons].
    rewrite (run_rules_weight_reasons float_of_str e' _ sc rs o x R).
    intros (a & Hin & Hnot). rewrite Hrule in Hin.
    destruct fires; [|contradiction].
    cbn [snd] in Hin. apply in_app_iff in Hin.
    destruct Hin as [Hin|[Hin|[]]]; [contradiction|].
    inversion Hin; subst. auto. }
  split; [|split; [|split]].
  - unfold push_pos. destruct (_get e st) as [s e1].
    rewrite Htruthy, Hsku. simpl. rewrite Hw. reflexivity.
  - unfold last_pos. pose proof (station_of_get e' st) as S.
    destruct (_get e' st) as [s e1]. cbn [fst] in S |- *. rewrite S. exact Hlatest.
  - intros res o x Hres Hin.
    destruct (Hreasons res o x Hres Hin) as (_ & Ho & Hx). split; assumption.
  - intros Heq Htol res o x Hres Hin.
    destruct (Hreasons res o x Hres Hin) as (Hf & _ & _).
    unfold fires, Qgt_bool, py_abs in Hf.
    assert (Hz : (obs - w == 0)%Q) by (rewrite Heq; ring).
    replace (Qle_bool 0 (obs - w)) with true in Hf
      by (symmetry; apply Qle_bool_iff; rewrite Hz; apply Qle_refl).
    apply negb_true_iff in Hf.
    assert (Hle : Qle_bool (obs - w) (weight_tol_pct e * w) = true)
      by (apply Qle_bool_iff; rewrite Hz; exact Htol).
    rewrite Hle in Hf. discriminate Hf.
Qed.

Lemma stored_pos_sku (w : gmap string Q) (d : dict) :
  dict_get (stored_pos w d) "sku" = dict_get d "sku".
Proof.
  unfold stored_pos. destruct (truthy (dict_get d "sku")); [|reflexivity].
  destruct (weights_get w (dict_get d "sku")) as [x|[v|]]; try reflexivity.
  apply dict_get_set_other. discriminate.
Qed.

(** X9: once a POS record whose SKU equals a product is pushed, rule 1
    stays silent for that product: the next [compute], if it returns, has
    no "not in POS" reason for it, whatever the vision and RFID buffers
    hold. *)
Theorem scan_avoidance_cleared_by_scan (e : FusionEngine) (st : string)
    (d : dict) (product : value) (res : fusion_result) (x : Q) :
  py_eq (dict_get d "sku") product = true ->
  fst (compute float_of_str (snd (push_pos e st d)) st) = inr res ->
  ~ In (VisionNotInPos product x) (r_reasons res).
Proof.
  intros Heq Hres Hin. set (e' := snd (push_pos e st d)) in *.
  unfold compute in Hres. pose proof (station_of_get e' st) as S.
  destruct (_get e' st) as [s e1]. cbn [fst] in S. subst s.
  destruct (run_rules float_of_str e' (station_of e' st)) as [y|[sc rs]] eqn:R;
    cbn [fst] in Hres; [discriminate|].
  inversion Hres; subst res; clear Hres. cbn [r_reasons] in Hin.
  pose proof (run_rules_scan_reasons float_of_str e' _ sc rs product x R Hin) as Hseen.
  assert (seen_in_pos (station_of e' st) product = true) as Htrue.
  { unfold seen_in_pos. apply existsb_exists.
    exists (stored_pos (weights e) d). split.
    - pose proof (latest_pushed_pos e st d) as L. fold e' in L.
      unfold latest in L. apply last_Some_elem_of in L.
      apply list_elem_of_In. exact L.
    - rewrite stored_pos_sku. exact Heq. }
  rewrite Htrue in Hseen. discriminate.
Qed.

(** X10: [compute] returns a result, whatever the POS and RFID records
    and the weight table hold, as soon as [float] accepts the accuracy of
    the latest vision record (a number, a bool, a numeral; 0.0 when the key
    is absent) and the queue snapshot's customer count and average dwell
    time are numbers or absent. *)
Theorem compute_returns_on_numbers (e : FusionEngine) (st : string) (c d : Q) :
  (forall v, latest (vision (station_of e st)) = Some v ->
             exists a, py_float float_of_str
                         (dict_get_default v "accuracy" (VNum 0)) = inr a) ->
  as_number (dict_get_default (queue (station_of e st)) "customer_count" (VNum 0))
    = Some c ->
  as_number (dict_get_default (queue (station_of e st)) "average_dwell_time" (VNum 0))
    = Some d ->
  exists res, fst (compute float_of_str e st) = inr res.
Proof.
  intros Hacc Hc Hd. unfold compute. pose proof (station_of_get e st) as S.
  destruct (_get e st) as [s e1]. cbn [fst] in S. subst s.
  set (s := station_of e st) in *.
  assert (exists a1, scan_avoidance float_of_str e s (0%Q, []) = inr a1) as [a1 H1].
  { unfold scan_avoidance. destruct (latest (vision s)) as [v|]; [|eauto].
    destruct (Hacc v eq_refl) as [a Ha]. rewrite Ha. cbn [bind].
    repeat match goal with |- context [if ?b then _ else _] => destruct b end; eauto. }
  assert (forall a, exists a', queue_pressure s a = inr a') as Hq.
  { intros a. unfold queue_pressure, queue_test, py_ge_num, bind. rewrite Hc.
    destruct (Qle_bool 6 c); [eauto|]. rewrite Hd.
    destruct (Qle_bool 120 d); eauto. }
  unfold run_rules. rewrite H1. cbn [bind].
  destruct (Hq (weight_discrepancy float_of_str e s (barcode_switching s a1)))
    as [[sc rs] ->].
  cbn [fst]. eauto.
Qed.

(** X11: a vision frame that names a product but whose accuracy [float]
    rejects (null, a list, an object, a string that is no numeral) is
    stored by [push_vision], and the next [compute] for the station raises
    the exception of that [float] call. *)
Theorem bad_accuracy_makes_compute_raise (e : FusionEngine) (st : string)
    (v : dict) (x : exn) :
  truthy (dict_get v "predicted_product") = true ->
  py_float float_of_str (dict_get_default v "accuracy" (VNum 0)) = inl x ->
  fst (compute float_of_str (push_vision e st v) st) = inl x.
Proof.
  intros Hp Hx. set (e' := push_vision e st v).
  assert (latest (vision (station_of e' st)) = Some v) as Hlatest.
  { unfold e'. rewrite push_vision_station. unfold vision_has_product. rewrite Hp.
    apply latest_append_bounded. lia. }
  unfold compute. pose proof (station_of_get e' st) as S.
  destruct (_get e' st) as [s e1]. cbn [fst] in S. subst s.
  unfold run_rules, scan_avoidance. rewrite Hlatest.
  rewrite (truthy_get_nonempty v _ Hp), Hp, Hx. reflexivity.
Qed.

End PushThenCompute.

(** * More on the event mapper *)

(** ** Strings *)

Lemma prefix_append (p s : string) : String.prefix p (String.append p s) = true.
Proof.
  induction p as [|c p IH]; simpl; [destruct s; reflexivity|].
  destruct (ascii_dec c c) as [_|N]; [exact IH | contradiction].
Qed.

Lemma contains_unfold (s p : string) :
  contains s p =
    String.prefix p s ||
    match s with EmptyString => false | String _ s' => contains s' p end.
Proof. destruct s; reflexivity. Qed.

Lemma contains_here (p s : string) : contains (String.append p s) p = true.
Proof. rewrite contains_unfold, prefix_append. reflexivity. Qed.

Lemma contains_later (a s p : string) :
  contains s p = true -> contains (String.append a s) p = true.
Proof.
  intros H. induction a as [|c a IH]; simpl; [exact H|].
  rewrite IH. apply orb_true_r.
Qed.

Lemma contains_middle (a p b : string) :
  contains (String.append a (String.append p b)) p = true.
Proof. apply contains_later, contains_here. Qed.

Lemma prefix_same (p : string) : String.prefix p p = true.
Proof.
  induction p as [|c p IH]; simpl; [reflexivity|].
  destruct (ascii_dec c c) as [_|N]; [exact IH | contradiction].
Qed.

Lemma contains_end (a p : string) : contains (String.append a p) p = true.
Proof.
  apply contains_later. rewrite contains_unfold, prefix_same. reflexivity.
Qed.

Lemma upper_append (a b : string) :
  upper (String.append a b) = String.append (upper a) (upper b).
Proof. induction a as [|c a IH]; simpl; [reflexivity | rewrite IH; reflexivity]. Qed.

(** ** Event identifiers *)

Lemma uint_of_string_zeros (k : nat) (s : string) (d : Decimal.uint) :
  NilEmpty.uint_of_string s = Some d ->
  exists d', NilEmpty.uint_of_string (String.append (zeros k) s) = Some d' /\
             Nat.of_uint d' = Nat.of_uint d.
Proof.
  intros H. induction k as [|k IH]; simpl.
  - exists d. split; [exact H | reflexivity].
  - destruct IH as (d' & -> & E). exists (Decimal.D0 d'). split; [reflexivity|].
    rewrite <- E. reflexivity.
Qed.

(** The number read back from an id is the counter it was made from. *)
Lemma id_number_pad3 (n : nat) :
  id_number (VStr (String.append "E" (pad3 n))) = Some n.
Proof.
  change (String.append "E" (pad3 n)) with (String "E" (pad3 n)).
  unfold id_number, pad3, decimal.
  destruct (uint_of_string_zeros
              (3 - String.length (NilEmpty.string_of_uint (Nat.to_uint n)))
              _ _ (NilEmpty.usu (Nat.to_uint n))) as (d' & Hd & E).
  rewrite Hd, E, DecimalNat.Unsigned.of_to. reflexivity.
Qed.

(** Every line written carries the id of its position in the file. *)
Definition ids_in_order (m : Mapper) : Prop :=
  _counter m = length (_fh m) /\
  forall i line, _fh m !! i = Some line ->
    dict_get line "event_id" = VStr (String.append "E" (pad3 i)).

Section MapperFacts2.

Variable iso_now : nat -> string.
Variable py_repr : value -> string.

Lemma ids_in_order_write (m : Mapper) (ts : string) (data : dict) (clk : nat) :
  ids_in_order m ->
  ids_in_order {| _fh := _fh m ++ [[("timestamp", VStr ts);
                                    ("event_id", VStr (String.append "E" (pad3 (_counter m))));
                                    ("event_data", VDict data)]];
                  _counter := S (_counter m); _clock := clk |}.
Proof.
  intros [Hc Hl]. split; cbn [_fh _counter].
  - rewrite length_app, Hc. simpl. lia.
  - intros i line Hi. destruct (decide (i < length (_fh m))%nat) as [Hlt|Hge].
    + rewrite lookup_app_l in Hi by exact Hlt. apply Hl, Hi.
    + rewrite lookup_app_r in Hi by lia.
      destruct (i - length (_fh m))%nat as [|k] eqn:E; [|destruct k; discriminate].
      inversion Hi; subst line. assert (i = _counter m) as -> by lia. reflexivity.
Qed.

Lemma ids_in_order_clock (m : Mapper) (clk : nat) :
  ids_in_order m ->
  ids_in_order {| _fh := _fh m; _counter := _counter m; _clock := clk |}.
Proof. intros H. exact H. Qed.

Lemma emit_ids (m : Mapper) (data : dict) :
  ids_in_order m -> ids_in_order (emit iso_now m data).
Proof. intros H. apply (ids_in_order_write m _ data _ H). Qed.

Lemma emit_at_ids (ts : string) (m : Mapper) (data : dict) :
  ids_in_order m -> ids_in_order (emit_at ts m data).
Proof. intros H. apply (ids_in_order_write m ts data _ H). Qed.

Lemma map_reason_ids (ts st : string) (lp : option dict) (m : Mapper) (r : string) :
  ids_in_order m -> ids_in_order (map_reason ts st lp m r).
Proof.
  intros H. unfold map_reason.
  repeat match goal with
         | |- context [if ?c then _ else _] => destruct c
         end; repeat apply emit_at_ids; exact H.
Qed.

Lemma from_fusion_ids (m : Mapper) (st : string) (rs : list string) (lp : option dict) :
  ids_in_order m -> ids_in_order (from_fusion iso_now m st rs lp).
Proof.
  intros H. unfold from_fusion.
  generalize (ids_in_order_clock m (S (_clock m)) H).
  generalize {| _fh := _fh m; _counter := _counter m; _clock := S (_clock m) |}.
  induction rs as [|r rs IH]; intros m0 H0; [exact H0|].
  cbn [fold_left]. apply IH, map_reason_ids, H0.
Qed.

Lemma from_queue_ids (m : Mapper) (st : string) (q : dict) :
  ids_in_order m -> ids_in_order (snd (from_queue iso_now m st q)).
Proof.
  intros H. unfold from_queue.
  destruct (negb (truthy (VDict q))); [exact H|].
  destruct (py_ge_num (queue_cc q) 6) as [x|b1]; [exact H|].
  assert (ids_in_order
            (if b1 then
               emit iso_now
                 (emit iso_now
                    (emit iso_now m [("event_name", VStr "Long Queue Length");
                                     ("station_id", VStr st);
                                     ("num_of_customers", queue_cc q)])
                    [("event_name", VStr "Staffing Needs");
                     ("station_id", VStr st); ("Staff_type", VStr "Cashier")])
                 [("event_name", VStr "Checkout Station Action");
                  ("station_id", VStr st); ("Action", VStr "Open")]
             else m)) as H1
    by (destruct b1; [repeat apply emit_ids|]; exact H).
  destruct (py_ge_num (queue_dt q) 120) as [x|b2]; [exact H1|].
  destruct b2; [apply emit_ids|]; exact H1.
Qed.

Lemma maybe_status_ids (m : Mapper) (st ds : string) (status : value) :
  ids_in_order m -> ids_in_order (maybe_status iso_now py_repr m st ds status).
Proof.
  intros H. unfold maybe_status.
  destruct (negb (truthy status)); [exact H|].
  destruct (status_matches _); [apply emit_ids|]; exact H.
Qed.

(** X12: whatever calls are made on a mapper from its creation on, also
    when [from_queue] raises in one of them, the n-th line of the output
    (from 0) carries the event id "E" followed by n zero-padded to three
    digits; the number read back from an id is n, so no two lines share an
    id. *)
Theorem event_ids_count_lines (ops : list mapper_op) :
  let m := fold_left (apply_mapper_op iso_now py_repr) ops new_mapper in
  _counter m = length (_fh m) /\
  (forall i line, _fh m !! i = Some line ->
     dict_get line "event_id" = VStr (String.append "E" (pad3 i)) /\
     id_number (dict_get line "event_id") = Some i) /\
  (forall i j line line', _fh m !! i = Some line -> _fh m !! j = Some line' ->
     dict_get line "event_id" = dict_get line' "event_id" -> i = j).
Proof.
  cbv zeta.
  assert (ids_in_order (fold_left (apply_mapper_op iso_now py_repr) ops new_mapper))
    as [Hc Hl].
  { assert (ids_in_order new_mapper) as H0
      by (split; [reflexivity | intros i line Hi; discriminate]).
    revert H0. generalize new_mapper.
    induction ops as [|op ops IH]; intros m H; [exact H|].
    cbn [fold_left]. apply IH. destruct op; cbn [apply_mapper_op].
    - apply maybe_status_ids, H.
    - apply from_fusion_ids, H.
    - apply from_queue_ids, H. }
  split; [exact Hc|]. split.
  - intros i line Hi. rewrite (Hl i line Hi). split; [reflexivity | apply id_number_pad3].
  - intros i j line line' Hi Hj E.
    pose proof (id_number_pad3 i) as Ni. pose proof (id_number_pad3 j) as Nj.
    rewrite <- (Hl i line Hi), E, (Hl j line' Hj), Nj in Ni. congruence.
Qed.

End MapperFacts2.

(** ** Status strings *)

Section StatusFacts.

Variable iso_now : nat -> string.
Variable py_repr : value -> string.

Lemma upper_nonempty (s : string) : upper s <> "" -> s <> "".
Proof. intros H ->. apply H. reflexivity. Qed.

Lemma append_nonempty (a w b : string) :
  w <> "" -> String.append a (String.append w b) <> "".
Proof.
  intros Hw. destruct a; simpl; [|discriminate].
  destruct w; simpl; [contradiction | discriminate].
Qed.

(** X13: a status string that has "crash", "read error" or "failure" in
    it, in any mix of upper and lower case, makes [maybe_status] write
    exactly one event, Unexpected Systems Crash for the station with
    duration 0; a status that is [None] or empty writes nothing. *)
Theorem crash_status_reported (m : Mapper) (st ds before word after : string) :
  In (upper word) ["CRASH"; "READ ERROR"; "FAILURE"] ->
  maybe_status iso_now py_repr m st ds
      (VStr (String.append before (String.append word after))) =
    {| _fh := _fh m ++
              [[("timestamp", VStr (iso_now (_clock m)));
                ("event_id", VStr (String.append "E" (pad3 (_counter m))));
                ("event_data",
                 VDict [("event_name", VStr "Unexpected Systems Crash");
                        ("station_id", VStr st);
                        ("duration_seconds", VNum 0)])]];
       _counter := S (_counter m);
       _clock := S (_clock m) |} /\
  maybe_status iso_now py_repr m st ds VNone = m /\
  maybe_status iso_now py_repr m st ds (VStr "") = m.
Proof.
  intros Hw. split; [|split; reflexivity].
  unfold maybe_status.
  assert (word <> "") as Hne.
  { apply upper_nonempty. intros E. rewrite E in Hw. simpl in Hw.
    intuition discriminate. }
  replace (truthy (VStr (String.append before (String.append word after)))) with true.
  2:{ simpl. symmetry. apply negb_true_iff, String.eqb_neq, append_nonempty, Hne. }
  cbn [negb py_str].
  replace (status_matches _) with true; [reflexivity|].
  symmetry. unfold status_matches. rewrite !upper_append.
  simpl in Hw. destruct Hw as [<-|[<-|[<-|[]]]];
    rewrite contains_middle; rewrite ?orb_true_r; reflexivity.
Qed.

End StatusFacts.

(** ** From reasons to events *)

Section FusionEvents.

Variable iso_now : nat -> string.
Variable py_repr : value -> string.
Variables format_2f format_0f float_str : Q -> string.

Local Abbreviation render' := (render py_repr format_2f format_0f float_str).

Lemma emit_at_fh (ts : string) (m : Mapper) (data : dict) :
  _fh (emit_at ts m data) =
    _fh m ++ [[("timestamp", VStr ts);
               ("event_id", VStr (String.append "E" (pad3 (_counter m))));
               ("event_data", VDict data)]].
Proof. reflexivity. Qed.

(** The lines one reason adds, by the tests its string passes. *)
Lemma map_reason_names (ts st : string) (lp : option dict) (m : Mapper) (r : string) :
  exists new,
    _fh (map_reason ts st lp m r) = _fh m ++ new /\
    Forall (fun line => dict_get line "timestamp" = VStr ts) new /\
    map (event_field "event_name") new =
      (if startswith r "Vision" && contains r "not in POS"
       then [VStr "Scanner Avoidance"] else [])
      ++ (if startswith r "Vision" && contains r "≠ POS"
          then [VStr "Barcode Switching"] else [])
      ++ (if startswith r "Weight delta"
          then [VStr "Weight Discrepancies"] else []).
Proof.
  unfold map_reason.
  destruct (startswith r "Vision" && contains r "not in POS"),
           (startswith r "Vision" && contains r "≠ POS"),
           (startswith r "Weight delta");
    rewrite ?emit_at_fh, <- ?app_assoc; cbn [app];
    eexists; (split; [try reflexivity; symmetry; apply app_nil_r|]);
    (split; [repeat constructor | reflexivity]).
Qed.

Lemma render_tests (r : reason) :
  unambiguous py_repr format_2f format_0f float_str r ->
  (if startswith (render' r) "Vision" && contains (render' r) "not in POS"
   then [VStr "Scanner Avoidance"] else [])
  ++ (if startswith (render' r) "Vision" && contains (render' r) "≠ POS"
      then [VStr "Barcode Switching"] else [])
  ++ (if startswith (render' r) "Weight delta"
      then [VStr "Weight Discrepancies"] else [])
  = reason_events r.
Proof.
  destruct r as [p x| |p k|o x|]; cbn [unambiguous]; intros Hu.
  - rewrite Hu.
    replace (contains (render' (VisionNotInPos p x)) "not in POS") with true.
    + reflexivity.
    + symmetry. cbn [render].
      do 4 apply contains_later. reflexivity.
  - reflexivity.
  - rewrite Hu.
    replace (contains (render' (VisionNePos p k)) "≠ POS") with true.
    + reflexivity.
    + symmetry. cbn [render].
      do 2 apply contains_later.
      change (" ≠ POS " +:+ py_str py_repr k)
        with (" " +:+ ("≠ POS" +:+ (" " +:+ py_str py_repr k))).
      apply contains_later, contains_here.
  - reflexivity.
  - reflexivity.
Qed.

Lemma map_reason_clock (ts st : string) (lp : option dict) (m : Mapper) (r : string) :
  _clock (map_reason ts st lp m r) = _clock m.
Proof.
  unfold map_reason.
  repeat match goal with |- context [if ?c then _ else _] => destruct c end;
    reflexivity.
Qed.

Lemma map_reasons_names (ts st : string) (lp : option dict) (rs : list reason) :
  Forall (unambiguous py_repr format_2f format_0f float_str) rs ->
  forall m0, exists new,
    _fh (fold_left (map_reason ts st lp) (map render' rs) m0) = _fh m0 ++ new /\
    map (event_field "event_name") new = flat_map reason_events rs /\
    Forall (fun line => dict_get line "timestamp" = VStr ts) new /\
    _clock (fold_left (map_reason ts st lp) (map render' rs) m0) = _clock m0.
Proof.
  induction 1 as [|r rs Hr Hrs IH]; intros m0.
  - exists []. cbn. rewrite app_nil_r. repeat split. constructor.
  - cbn [map fold_left flat_map].
    destruct (map_reason_names ts st lp m0 (render' r)) as (n1 & E1 & T1 & N1).
    destruct (IH (map_reason ts st lp m0 (render' r))) as (n2 & E2 & N2 & T2 & C2).
    exists (n1 ++ n2). rewrite E2, E1, <- app_assoc. split; [reflexivity|].
    split; [rewrite map_app, N1, N2, (render_tests r Hr); reflexivity|].
    split; [apply Forall_app; split; assumption|].
    rewrite C2. apply map_reason_clock.
Qed.

(** X14: [from_fusion] on the reason strings of a result writes, in the
    order of the reasons, one Scanner Avoidance event per "not in POS"
    reason, one Barcode Switching event per "≠ POS" reason and one Weight
    Discrepancies event per weight reason, and nothing for the RFID and
    queue reasons, provided no vision reason has the other kind's text in
    it; all the events carry the one timestamp read at the start. *)
Theorem from_fusion_event_names (m : Mapper) (st : string) (rs : list reason)
    (lp : option dict) :
  Forall (unambiguous py_repr format_2f format_0f float_str) rs ->
  exists new,
    _fh (from_fusion iso_now m st (map render' rs) lp) = _fh m ++ new /\
    map (event_field "event_name") new = flat_map reason_events rs /\
    Forall (fun line => dict_get line "timestamp" = VStr (iso_now (_clock m))) new /\
    _clock (from_fusion iso_now m st (map render' rs) lp) = S (_clock m).
Proof.
  intros Hu. unfold from_fusion.
  apply (map_reasons_names (iso_now (_clock m)) st lp rs Hu
           {| _fh := _fh m; _counter := _counter m; _clock := S (_clock m) |}).
Qed.

End FusionEvents.

(** ** Reading the SKU back from a reason *)



Section SkuRoundTrip.

Variable py_repr : value -> string.
Variables format_2f format_0f float_str : Q -> string.


End SkuRoundTrip.

(** ** The queue thresholds, in the engine and in the mapper *)

Lemma number_or_zero (q : dict) (k : string) (c : Q) :
  as_number (dict_get_default q k (VNum 0)) = Some c ->
  exists c', as_number (py_or (dict_get q k) (VNum 0)) = Some c' /\ (c' == c)%Q.
Proof.
  unfold dict_get, dict_get_default, py_or.
  destruct (dict_lookup q k) as [v|]; cbn.
  - intros Hv. destruct (truthy v) eqn:T.
    + exists c. split; [exact Hv | reflexivity].
    + exists 0%Q. split; [reflexivity|].
      destruct v as [|[]|x| | |]; try discriminate; cbn in Hv, T;
        inversion Hv; subst; [reflexivity|].
      apply negb_false_iff, Qeq_bool_iff in T. symmetry. exact T.
  - intros Hv. inversion Hv. exists 0%Q. split; reflexivity.
Qed.

Lemma Qle_bool_proper (n c c' : Q) : (c' == c)%Q -> Qle_bool n c' = Qle_bool n c.
Proof. intros H. rewrite H. reflexivity. Qed.

Section QueueFacts.

Variable iso_now : nat -> string.

Lemma emit_length (m : Mapper) (data : dict) :
  length (_fh (emit iso_now m data)) = S (length (_fh m)).
Proof. rewrite emit_fh, length_app. simpl. lia. Qed.

(** X16: on a queue snapshot whose customer count and average dwell time
    are numbers or absent, the queue test of [compute] and the tests of
    [from_queue] agree: [from_queue] does not raise, it writes three
    events when the count is at least 6 and one more when the dwell time
    is at least 120, and [compute] adds its queue reason exactly when
    [from_queue] writes at least one event. *)
Theorem queue_tests_agree (m : Mapper) (st : string) (q : dict) (c d : Q) :
  as_number (dict_get_default q "customer_count" (VNum 0)) = Some c ->
  as_number (dict_get_default q "average_dwell_time" (VNum 0)) = Some d ->
  queue_test q = inr (Qle_bool 6 c || Qle_bool 120 d) /\
  fst (from_queue iso_now m st q) = None /\
  length (_fh (snd (from_queue iso_now m st q))) =
    (length (_fh m) + (if Qle_bool 6 c then 3 else 0)
       + (if Qle_bool 120 d then 1 else 0))%nat /\
  (queue_test q = inr true <->
   (length (_fh m) < length (_fh (snd (from_queue iso_now m st q))))%nat).
Proof.
  intros Hc Hd.
  assert (Ht : queue_test q = inr (Qle_bool 6 c || Qle_bool 120 d)).
  { unfold queue_test, py_ge_num, bind. rewrite Hc, Hd.
    destruct (Qle_bool 6 c); reflexivity. }
  assert (Hq : fst (from_queue iso_now m st q) = None /\
          length (_fh (snd (from_queue iso_now m st q))) =
            (length (_fh m) + (if Qle_bool 6 c then 3 else 0)
               + (if Qle_bool 120 d then 1 else 0))%nat).
  { unfold from_queue. destruct q as [|kv q'] eqn:Q.
    - cbn in Hc, Hd. inversion Hc; inversion Hd; subst.
      replace (Qle_bool 6 0) with false by reflexivity.
      replace (Qle_bool 120 0) with false by reflexivity.
      cbn. split; [reflexivity | lia].
    - rewrite <- Q in *.
      replace (negb (truthy (VDict q))) with false by (rewrite Q; reflexivity).
      destruct (number_or_zero q _ c Hc) as (c' & Hc' & Ec).
      destruct (number_or_zero q _ d Hd) as (d' & Hd' & Ed).
      unfold py_ge_num, queue_cc, queue_dt. rewrite Hc', Hd'.
      rewrite (Qle_bool_proper 6 c c' Ec), (Qle_bool_proper 120 d d' Ed).
      destruct (Qle_bool 6 c), (Qle_bool 120 d); cbn [fst snd];
        rewrite ?emit_length; (split; [reflexivity | lia]). }
  destruct Hq as [Hnone Hlen].
  split; [exact Ht|]. split; [exact Hnone|]. split; [exact Hlen|].
  rewrite Ht, Hlen. destruct (Qle_bool 6 c), (Qle_bool 120 d); cbn;
    split; intros H; try reflexivity; try lia; try discriminate.
Qed.

(** X17: [from_queue] raises [TypeError] on a value that is neither a
    number nor falsy. For such a customer count nothing is written; for
    such a dwell time next to a count of at least 6, the three events of
    the count are already in the output when the exception is raised. *)
Theorem from_queue_type_errors (m : Mapper) (st : string) (q : dict) :
  (as_number (queue_cc q) = None ->
   from_queue iso_now m st q = (Some TypeError, m)) /\
  (forall c, as_number (queue_cc q) = Some c -> Qle_bool 6 c = true ->
   as_number (queue_dt q) = None ->
   exists new,
     from_queue iso_now m st q =
       (Some TypeError,
        {| _fh := _fh m ++ new; _counter := _counter m + 3; _clock := _clock m + 3 |}) /\
     map (event_field "event_name") new =
       [VStr "Long Queue Length"; VStr "Staffing Needs";
        VStr "Checkout Station Action"]).
Proof.
  split.
  - intros Hc. unfold from_queue. destruct q as [|kv q'] eqn:Q; [discriminate|].
    rewrite <- Q in *.
    replace (negb (truthy (VDict q))) with false by (rewrite Q; reflexivity).
    unfold py_ge_num. rewrite Hc. reflexivity.
  - intros c Hc H6 Hd. unfold from_queue. destruct q as [|kv q'] eqn:Q.
    + cbn in Hc. inversion Hc; subst. discriminate.
    + rewrite <- Q in *.
      replace (negb (truthy (VDict q))) with false by (rewrite Q; reflexivity).
      unfold py_ge_num. rewrite Hc, H6, Hd.
      destruct m as [fh ctr clk]. unfold emit, _next_id, _write. cbn.
      eexists [_; _; _]. cbn. rewrite <- !app_assoc, !Nat.add_succ_r, !Nat.add_0_r.
      split; reflexivity.
Qed.

End QueueFacts.

(** * More on the replay server *)

Section ReplayMore.

Variable isoformat : Z -> string.
Variable srv : ReplayTCPServer.

Lemma py_max_ge_1 (x : Q) : (1 <= py_max 1 x)%Q.
Proof.
  unfold py_max. destruct (Qle_bool x 1) eqn:E; [lra|].
  assert (~ (x <= 1)%Q) by (rewrite <- Qle_bool_iff, E; discriminate). lra.
Qed.

Lemma pause_positive (adj p : Z) : (0 < pause srv adj p)%Q.
Proof.
  unfold pause.
  pose proof (py_max_ge_1 (speed srv)) as Hm.
  assert (0 < (1 # 10) / py_max 1 (speed srv))%Q as Hmin.
  { apply Qlt_shift_div_l; lra. }
  destruct (Qgt_bool (speed srv) 0).
  - destruct (Qle_bool (total_seconds (adj - p) / speed srv) 0) eqn:E; [exact Hmin|].
    assert (~ (total_seconds (adj - p) / speed srv <= 0)%Q)
      by (rewrite <- Qle_bool_iff, E; discriminate).
    lra.
  - replace (Qle_bool 0 0) with true by reflexivity. exact Hmin.
Qed.

Lemma replay_record_sleeps (st : session) (r : source_event) :
  sleeps_positive (fst (replay_record isoformat srv st r)).
Proof.
  unfold replay_record, sleeps_positive. cbn [fst].
  destruct (prev st); repeat constructor. apply pause_positive.
Qed.

Lemma replay_records_sleeps (rs : list source_event) : forall st,
  sleeps_positive (fst (replay_records isoformat srv st rs)).
Proof.
  induction rs as [|r rs IH]; intros st; [constructor|].
  cbn [replay_records].
  pose proof (replay_record_sleeps st r) as H1.
  destruct (replay_record isoformat srv st r) as [out1 st1].
  specialize (IH st1). destruct (replay_records isoformat srv st1 rs) as [out2 st2].
  cbn [fst] in *. apply Forall_app. split; assumption.
Qed.

Lemma replay_cycles_sleeps (n : nat) : forall st,
  sleeps_positive (concat (replay_cycles isoformat srv n st)).
Proof.
  induction n as [|n IH]; intros st; [constructor|].
  cbn [replay_cycles].
  pose proof (replay_records_sleeps (events srv) st) as H1.
  destruct (replay_records isoformat srv st (events srv)) as [out st1].
  cbn [fst] in H1. cbn [concat]. apply Forall_app. split; [exact H1|].
  destruct (loop srv); [apply IH | constructor].
Qed.

(** X18: every pause the handler makes is strictly positive, whatever the
    speed (also zero or negative) and the order of the timestamps: a gap
    that comes out as zero or negative is replaced by 0.1 / max(1, speed),
    so [time.sleep] is never given a negative number and the loop never
    spins. *)
Theorem pauses_are_positive (n : nat) :
  sleeps_positive (handle isoformat srv n).
Proof.
  unfold handle. constructor; [exact I | apply replay_cycles_sleeps].
Qed.

(** X19: each frame of a cycle is built from the record at the same
    position of the merged sequence: it has the record's dataset, its
    [original_timestamp] is the record's own timestamp field, and its
    event is the record's payload with the timestamp key set to the
    frame's timestamp and every other key as in the payload. *)
Theorem frame_carries_record (n k i : nat) (outs : list output) (f : frame) :
  replay_cycles isoformat srv n initial_session !! k = Some outs ->
  sent outs !! i = Some f ->
  exists r,
    events srv !! i = Some r /\
    f_dataset f = dataset r /\
    f_original_timestamp f = dict_get (payload r) "timestamp" /\
    dict_get (f_event f) "timestamp" = VStr (f_timestamp f) /\
    (forall key, key <> "timestamp" ->
       dict_lookup (f_event f) key = dict_lookup (payload r) key).
Proof.
  intros Hk Hi. rewrite (replay_cycles_spec isoformat srv n _ k outs Hk) in Hi.
  rewrite list_lookup_imap in Hi.
  destruct (events srv !! i) as [r|] eqn:E; [|discriminate].
  cbn in Hi. inversion Hi; subst f; clear Hi.
  exists r. cbn [f_dataset f_original_timestamp f_event f_timestamp frame_of].
  split; [reflexivity|]. split; [reflexivity|]. split; [reflexivity|].
  split; [apply dict_get_set_same|].
  intros key Hne. apply dict_lookup_set_other. congruence.
Qed.

(** X20: without [server.loop] the handler makes one pass and stops: the
    frames are the records of the merged sequence in order, numbered from
    1, each with its own timestamp unshifted. *)
Theorem single_pass_without_loop (n : nat) :
  loop srv = false ->
  handle isoformat srv (S n) = handle isoformat srv 1 /\
  sent (handle isoformat srv (S n)) =
    imap (fun i r => frame_of isoformat srv 0 (1 + Z.of_nat i) r) (events srv) /\
  (forall r, adjusted srv r 0 = timestamp r).
Proof.
  intros Hloop.
  assert (replay_cycles isoformat srv (S n) initial_session =
          replay_cycles isoformat srv 1 initial_session) as E.
  { cbn [replay_cycles].
    destruct (replay_records isoformat srv initial_session (events srv)) as [out st1].
    rewrite Hloop. reflexivity. }
  split; [unfold handle; rewrite E; reflexivity|].
  split.
  - unfold handle. rewrite E. cbn [sent omap list_omap].
    fold (sent (concat (replay_cycles isoformat srv 1 initial_session))).
    cbn [replay_cycles].
    pose proof (replay_records_spec isoformat srv (events srv) initial_session)
      as (H1 & _).
    destruct (replay_records isoformat srv initial_session (events srv)) as [out st1].
    cbn [fst] in H1. rewrite Hloop. cbn [concat]. rewrite app_nil_r, H1.
    reflexivity.
  - intros r. unfold adjusted. lia.
Qed.

End ReplayMore.

(** ** The cycle span of a merged sequence *)

Lemma last_default (l : list source_event) (d d' : source_event) :
  l <> [] -> List.last l d = List.last l d'.
Proof.
  induction l as [|x l IH]; intros H; [contradiction|].
  destruct l as [|y l]; [reflexivity|]. apply IH. discriminate.
Qed.

Lemma sorted_le_last (x : source_event) (l : list source_event) (r : source_event) :
  Sorted time_le (x :: l) -> In r (x :: l) ->
  (timestamp r <= timestamp (List.last (x :: l) x))%Z.
Proof.
  revert x r. induction l as [|y l IH]; intros x r Hs Hr.
  - destruct Hr as [<-|[]]. simpl. lia.
  - change (List.last (x :: y :: l) x) with (List.last (y :: l) x).
    rewrite (last_default (y :: l) x y) by discriminate.
    inversion Hs as [|? ? Hs' Hhd]; subst. destruct Hr as [<-|Hr].
    + inversion Hhd; subst. unfold time_le in *.
      pose proof (IH y y Hs' (or_introl eq_refl)). lia.
    + apply IH; assumption.
Qed.

(** The span computed for a non-empty time-ordered sequence is larger
    than the distance of any two of its timestamps. *)
Lemma cycle_span_exceeds_range (e0 : source_event) (rest : list source_event) (span : Z) :
  Sorted time_le (e0 :: rest) ->
  compute_cycle_span (e0 :: rest) = inr span ->
  (0 < span)%Z /\
  forall r r', In r (e0 :: rest) -> In r' (e0 :: rest) ->
    (timestamp r - timestamp r' < span)%Z.
Proof.
  intros Hs Hspan. unfold compute_cycle_span in Hspan.
  set (last := timestamp (List.last (e0 :: rest) e0)) in *.
  set (first := timestamp e0) in *.
  assert (exists g, (0 < g)%Z /\
            match scan_gaps None (map timestamp (e0 :: rest)) with
            | Some g' => g'
            | None => one_second
            end = g) as (g & Hg & Eg).
  { pose proof (scan_gaps_min (map timestamp (e0 :: rest))) as Hmin.
    destruct (scan_gaps None (map timestamp (e0 :: rest))) as [g|].
    - exists g. split; [|reflexivity].
      destruct Hmin as [(? & ? & ? & ? & _ & _ & H) _]. exact H.
    - exists one_second. split; [unfold one_second; lia | reflexivity]. }
  rewrite Eg in Hspan.
  assert (forall r, In r (e0 :: rest) -> (first <= timestamp r <= last)%Z) as Hb.
  { intros r Hr. split.
    - apply (sorted_hd_min e0 rest r Hs Hr).
    - apply (sorted_le_last e0 rest r Hs Hr). }
  pose proof (Hb e0 (or_introl eq_refl)) as H0.
  replace (Z.leb (last - first + g) 0) with false in Hspan by lia.
  inversion Hspan; subst span. split; [lia|].
  intros r r' Hr Hr'. pose proof (Hb r Hr). pose proof (Hb r' Hr'). lia.
Qed.

Section MergedSpan.

Variable fromisoformat : string -> option Z.

(** X21: the merger and the span computation of [start_server] fit
    together. On the events [collect_events] returns, [events[0]] and
    [events[-1]] exist, so the computation of the cycle span returns; the
    span is strictly positive and exceeds the distance of any two
    timestamps, so that a server replaying these events with this span
    stamps every record of cycle [k + 1] strictly later than every record
    of cycle [k]. *)
Theorem merged_cycles_keep_order (files : list dataset_file)
    (merged : list source_event) (names : list string) :
  collect_events fromisoformat files = inr (merged, names) ->
  exists span,
    compute_cycle_span merged = inr span /\
    (0 < span)%Z /\
    (forall r r', In r merged -> In r' merged ->
       (timestamp r - timestamp r' < span)%Z) /\
    forall (srv : ReplayTCPServer) (k : Z) r r',
      events srv = merged -> cycle_span srv = span ->
      In r (events srv) -> In r' (events srv) ->
      (adjusted srv r k < adjusted srv r' (k + 1))%Z.
Proof.
  unfold collect_events, bind.
  destruct (gather fromisoformat files) as [err|[all names']]; [discriminate|].
  destruct all as [|x all]; [discriminate|].
  intros H.
  assert (merged = sort_by_timestamp (x :: all)) as M by congruence.
  clear H.
  assert (Sorted time_le merged) as Hs
    by (rewrite M; apply sort_by_timestamp_sorted).
  assert (merged <> []) as Hne.
  { intros E. pose proof (sort_by_timestamp_perm (x :: all)) as P.
    rewrite <- M, E in P. apply Permutation_nil in P. discriminate. }
  clear M.
  destruct merged as [|e0 rest]; [contradiction|].
  destruct (compute_cycle_span (e0 :: rest)) as [y|span] eqn:C; [discriminate C|].
  destruct (cycle_span_exceeds_range e0 rest span Hs C) as [Hpos Hrange].
  exists span. split; [reflexivity|]. split; [exact Hpos|]. split; [exact Hrange|].
  intros srv k r r' Hev Hspan Hr Hr'. unfold adjusted. rewrite Hspan.
  rewrite Hev in Hr, Hr'. pose proof (Hrange r r' Hr Hr'). lia.
Qed.

End MergedSpan.

(** ** Wall-clock time of one pass *)

Lemma total_seconds_positive (d : Z) : (0 < d)%Z -> (0 < total_seconds d)%Q.
Proof.
  intros H. unfold total_seconds. apply Qlt_shift_div_l.
  - reflexivity.
  - rewrite Qmult_0_l. replace 0%Q with (inject_Z 0) by reflexivity.
    rewrite <- Zlt_Qlt. exact H.
Qed.

Lemma total_seconds_plus (a b : Z) :
  (total_seconds (a + b) == total_seconds a + total_seconds b)%Q.
Proof.
  unfold total_seconds. rewrite inject_Z_plus. field. discriminate.
Qed.

Lemma total_sleep_app (o1 o2 : list output) :
  (total_sleep (o1 ++ o2) == total_sleep o1 + total_sleep o2)%Q.
Proof.
  induction o1 as [|o o1 IH]; simpl; [ring|].
  destruct o; rewrite IH; ring.
Qed.

Lemma last_cons_Z (l : list Z) (a d : Z) : List.last (a :: l) d = List.last l a.
Proof.
  destruct l as [|b l]; [reflexivity|].
  change (List.last (a :: b :: l) d) with (List.last (b :: l) d).
  revert b. induction l as [|c l IH]; intros b; [reflexivity|].
  change (List.last (b :: c :: l) d) with (List.last (c :: l) d).
  change (List.last (b :: c :: l) a) with (List.last (c :: l) a).
  apply IH.
Qed.

Section OnePass.

Variable isoformat : Z -> string.
Variable srv : ReplayTCPServer.
Hypothesis speed_positive : (0 < speed srv)%Q.

Lemma pause_is_scaled_gap (adj p : Z) :
  (p < adj)%Z -> pause srv adj p = (total_seconds (adj - p) / speed srv)%Q.
Proof.
  intros H. unfold pause.
  replace (Qgt_bool (speed srv) 0) with true.
  2:{ symmetry. unfold Qgt_bool. apply negb_true_iff.
      destruct (Qle_bool (speed srv) 0) eqn:E; [|reflexivity].
      apply Qle_bool_iff in E. lra. }
  assert (0 < total_seconds (adj - p) / speed srv)%Q as Hpos.
  { apply Qlt_shift_div_l; [exact speed_positive|].
    rewrite Qmult_0_l. apply total_seconds_positive. lia. }
  destruct (Qle_bool (total_seconds (adj - p) / speed srv) 0) eqn:E; [|reflexivity].
  apply Qle_bool_iff in E. lra.
Qed.

(** The pauses over records that each come strictly after the one
    before add up to the time from the previous instant to the last one,
    divided by the speed. *)
Lemma replay_records_elapsed (rs : list source_event) :
  forall (st : session) (p : Z),
    prev st = Some p ->
    Sorted Z.lt (p :: map (fun r => adjusted srv r (loop_index st)) rs) ->
    (total_sleep (fst (replay_records isoformat srv st rs)) ==
     total_seconds (List.last (map (fun r => adjusted srv r (loop_index st)) rs) p - p)
       / speed srv)%Q.
Proof.
  induction rs as [|r rs IH]; intros st p Hp Hs.
  - cbn. replace (p - p)%Z with 0%Z by lia. unfold total_seconds.
    field. split; [discriminate | lra].
  - cbn [replay_records map].
    set (adj := adjusted srv r (loop_index st)) in *.
    inversion Hs as [|? ? Hs' Hhd]; subst. inversion Hhd; subst.
    specialize (IH {| loop_index := loop_index st; prev := Some adj;
                      sequence := (sequence st + 1)%Z |} adj eq_refl Hs').
    cbn [loop_index] in IH.
    unfold replay_record. fold adj. rewrite Hp.
    destruct (replay_records isoformat srv _ rs) as [out2 st2].
    cbn [fst] in IH |- *. cbn [app total_sleep]. rewrite IH.
    rewrite pause_is_scaled_gap by assumption.
    set (l := map (fun r0 => adjusted srv r0 (loop_index st)) rs).
    rewrite (last_cons_Z l adj p).
    replace (List.last l adj - p)%Z with ((adj - p) + (List.last l adj - adj))%Z by lia.
    rewrite total_seconds_plus. field. lra.
Qed.

Lemma adjusted_increasing (k : Z) (l : list source_event) :
  strictly_increasing l -> Sorted Z.lt (map (fun r => adjusted srv r k) l).
Proof.
  induction 1 as [|x l Hs IH Hhd]; [constructor|].
  cbn [map]. constructor; [exact IH|].
  destruct Hhd; cbn [map]; constructor. unfold adjusted. lia.
Qed.

(** X22: at a positive speed, one pass over records with strictly
    increasing timestamps sleeps in total the time between the first and
    the last timestamp divided by the speed. *)
Theorem one_pass_takes_scaled_span (e0 : source_event) (rest : list source_event) :
  events srv = e0 :: rest ->
  strictly_increasing (e0 :: rest) ->
  (total_sleep (handle isoformat srv 1) ==
   total_seconds (timestamp (List.last (e0 :: rest) e0) - timestamp e0) / speed srv)%Q.
Proof.
  intros Hev Hinc. unfold handle. cbn [total_sleep replay_cycles]. rewrite Hev.
  cbn [replay_records]. unfold replay_record at 1. cbn [prev initial_session loop_index].
  set (st1 := {| loop_index := 0; prev := Some (adjusted srv e0 0);
                 sequence := (sequence initial_session + 1)%Z |}).
  assert (Hs : Sorted Z.lt (adjusted srv e0 0
                            :: map (fun r => adjusted srv r (loop_index st1)) rest)).
  { cbn [loop_index st1]. exact (adjusted_increasing 0 (e0 :: rest) Hinc). }
  pose proof (replay_records_elapsed rest st1 (adjusted srv e0 0) eq_refl Hs) as E.
  destruct (replay_records isoformat srv st1 rest) as [out2 st2].
  cbn [fst] in E. cbn [app].
  assert (forall x, total_sleep (concat (x :: (if loop srv then [] else [])))
                    = total_sleep (x ++ [])) as Hc
    by (intros x; destruct (loop srv); reflexivity).
  rewrite Hc, app_nil_r. cbn [app total_sleep]. rewrite E.
  cbn [loop_index st1].
  assert (List.last (map (fun r => adjusted srv r 0) rest) (adjusted srv e0 0)
            - adjusted srv e0 0
          = timestamp (List.last (e0 :: rest) e0) - timestamp e0)%Z as ->.
  { rewrite last_map_timestamp. cbn [map].
    assert (forall l d, List.last (map (fun r => adjusted srv r 0) l) (adjusted srv d 0)
                        = (List.last (map timestamp l) (timestamp d)
                           + cycle_span srv * 0)%Z) as Hl.
    { induction l as [|y l IHl]; intros d; [reflexivity|].
      destruct l as [|z l]; [reflexivity|]. apply (IHl d). }
    rewrite Hl. unfold adjusted.
    rewrite (last_cons_Z (map timestamp rest) (timestamp e0) (timestamp e0)).
    lia. }
  reflexivity.
Qed.

End OnePass.

(** * More on the dataset merger *)

Section MergerMore.

Variable fromisoformat : string -> option Z.

Lemma tag_events_first_bad (name src : string) (good : list dict) (event : dict)
    (later : list dict) :
  Forall (fun ev => event_time fromisoformat ev <> None) good ->
  event_time fromisoformat event = None ->
  tag_events fromisoformat name src (good ++ event :: later) =
    inl (timestamp_error name src (dict_get event "timestamp")).
Proof.
  intros Hgood Hbad. induction Hgood as [|ev good Hev _ IH]; cbn [app tag_events].
  - rewrite parse_timestamp_spec, Hbad. reflexivity.
  - rewrite parse_timestamp_spec.
    destruct (event_time fromisoformat ev); [|contradiction].
    cbn [bind]. rewrite IH. reflexivity.
Qed.

Lemma tag_events_all_good (f : dataset_file) :
  Forall (fun ev => event_time fromisoformat ev <> None) (loaded f) ->
  exists l, tag_events fromisoformat (dataset_name_of f) (source f) (loaded f) = inr l.
Proof.
  intros Hall. pose proof (tag_events_spec fromisoformat f) as T.
  destruct (tag_events fromisoformat _ _ (loaded f)) as [err|l]; [|eauto].
  destruct T as (ev & Hin & Hbad & _). rewrite List.Forall_forall in Hall.
  exfalso. exact (Hall ev Hin Hbad).
Qed.

(** X23: the error of [collect_events] is that of the first record, in
    the order of the files and of the records within a file, whose
    timestamp is missing or does not parse: records after it and files
    after its file are not looked at, so that a later bad record or an
    empty result does not change the error. *)
Theorem first_bad_record_is_reported (before after : list dataset_file)
    (f : dataset_file) (good later : list dict) (event : dict) :
  all_parse fromisoformat before ->
  loaded f = good ++ event :: later ->
  Forall (fun ev => event_time fromisoformat ev <> None) good ->
  event_time fromisoformat event = None ->
  collect_events fromisoformat (before ++ f :: after) =
    inl (timestamp_error (dataset_name_of f) (source f) (dict_get event "timestamp")).
Proof.
  intros Hbefore Hloaded Hgood Hbad. unfold collect_events.
  assert (gather fromisoformat (before ++ f :: after) =
          inl (timestamp_error (dataset_name_of f) (source f)
                 (dict_get event "timestamp"))) as ->; [|reflexivity].
  induction Hbefore as [|g before Hg _ IH]; cbn [app gather].
  - rewrite Hloaded, (tag_events_first_bad _ _ good event later Hgood Hbad).
    reflexivity.
  - destruct (tag_events_all_good g Hg) as [l ->]. cbn [bind]. rewrite IH.
    reflexivity.
Qed.

End MergerMore.

(** * The stream reader *)

Lemma split_newline_none (s : string) :
  split_newline s = None -> raw_lines s = ([], s).
Proof.
  induction s as [|c s IH]; [reflexivity|]. cbn [split_newline raw_lines].
  destruct (Ascii.eqb c newline); [discriminate|].
  destruct (split_newline s) as [[line after]|]; [discriminate|].
  intros _. rewrite IH by reflexivity. reflexivity.
Qed.

Lemma split_newline_some (s line after : string) :
  split_newline s = Some (line, after) ->
  raw_lines s = (line :: fst (raw_lines after), snd (raw_lines after)) /\
  (String.length after < String.length s)%nat.
Proof.
  revert line after. induction s as [|c s IH]; intros line after; [discriminate|].
  cbn [split_newline raw_lines String.length].
  destruct (Ascii.eqb c newline).
  - intros H. inversion H; subst. destruct (raw_lines after). split; [reflexivity | lia].
  - destruct (split_newline s) as [[l a]|]; [|discriminate].
    intros H. inversion H; subst. destruct (IH l after eq_refl) as [E Hlen].
    rewrite E. split; [reflexivity | lia].
Qed.

Lemma drain_enough (turns : nat) : forall (s : string),
  (String.length s <= turns)%nat ->
  drain turns s = (flat_map yield_line (fst (raw_lines s)), snd (raw_lines s)).
Proof.
  induction turns as [|turns IH]; intros s Hlen.
  - destruct s; [reflexivity | simpl in Hlen; lia].
  - cbn [drain]. destruct (split_newline s) as [[line after]|] eqn:E.
    + destruct (split_newline_some s line after E) as [R Hlt].
      rewrite IH by lia. rewrite R. reflexivity.
    + rewrite (split_newline_none s E). reflexivity.
Qed.

Lemma raw_lines_cons (c : ascii) (s : string) :
  raw_lines (String c s) =
    if Ascii.eqb c newline then (EmptyString :: fst (raw_lines s), snd (raw_lines s))
    else
      match fst (raw_lines s) with
      | [] => ([], String c (snd (raw_lines s)))
      | l :: ls' => (String c l :: ls', snd (raw_lines s))
      end.
Proof. cbn [raw_lines]. destruct (raw_lines s); reflexivity. Qed.

Lemma raw_lines_append (a b : string) :
  raw_lines (String.append a b) =
    (fst (raw_lines a) ++ fst (raw_lines (String.append (snd (raw_lines a)) b)),
     snd (raw_lines (String.append (snd (raw_lines a)) b))).
Proof.
  induction a as [|c a IH].
  - cbn [raw_lines fst snd]. change (String.append "" b) with b.
    destruct (raw_lines b); reflexivity.
  - change (String.append (String c a) b) with (String c (String.append a b)).
    rewrite !raw_lines_cons, IH. cbn [fst snd].
    destruct (Ascii.eqb c newline) eqn:Ec; [reflexivity|].
    destruct (fst (raw_lines a)) as [|l la]; cbn [fst snd app].
    + change (String.append (String c (snd (raw_lines a))) b)
        with (String c (String.append (snd (raw_lines a)) b)).
      rewrite raw_lines_cons, Ec.
      destruct (fst (raw_lines (String.append (snd (raw_lines a)) b))); reflexivity.
    + reflexivity.
Qed.

Lemma raw_lines_rest_one_line (s : string) : one_line (snd (raw_lines s)).
Proof.
  unfold one_line. induction s as [|c s IH]; [reflexivity|]. cbn [raw_lines].
  destruct (raw_lines s) as [ls r]. cbn [snd] in IH.
  destruct (Ascii.eqb c newline) eqn:Ec; [exact IH|].
  destruct ls; cbn [snd]; [|exact IH]. cbn [split_newline]. rewrite Ec, IH.
  reflexivity.
Qed.

Lemma string_append_empty (s : string) : String.append s "" = s.
Proof.
  induction s as [|c s IH]; [reflexivity|].
  change (String c (String.append s "") = String c s). f_equal. exact IH.
Qed.

Lemma string_append_assoc (a b c : string) :
  String.append (String.append a b) c = String.append a (String.append b c).
Proof.
  induction a as [|x a IH]; [reflexivity|].
  change (String x (String.append (String.append a b) c)
          = String x (String.append a (String.append b c))).
  f_equal. exact IH.
Qed.

(** What is read from chunks none of which is empty is what their
    concatenation after the buffer holds in complete lines. *)
Lemma read_chunks_joined (chunks : list string) : forall (buff : string),
  one_line buff ->
  Forall (fun c => c <> "") chunks ->
  read_chunks buff chunks =
    flat_map yield_line (fst (raw_lines (String.append buff (join chunks)))).
Proof.
  induction chunks as [|chunk rest IH]; intros buff Hbuff Hne.
  - cbn. rewrite string_append_empty, (split_newline_none buff Hbuff). reflexivity.
  - inversion Hne as [|? ? Hc Hrest]; subst. cbn [read_chunks join fold_right].
    replace (String.eqb chunk "") with false
      by (symmetry; apply String.eqb_neq; exact Hc).
    rewrite drain_enough by lia.
    rewrite IH by (apply raw_lines_rest_one_line || exact Hrest).
    fold (join rest). rewrite <- flat_map_app, <- string_append_assoc.
    rewrite (raw_lines_append (String.append buff chunk) (join rest)).
    reflexivity.
Qed.

(** X24: the lines [readlines] yields do not depend on how the stream is
    cut into chunks: two sequences of non-empty chunks with the same
    concatenation yield the same lines. *)
Theorem readlines_ignores_chunking (chunks chunks' : list string) :
  Forall (fun c => c <> "") chunks ->
  Forall (fun c => c <> "") chunks' ->
  join chunks = join chunks' ->
  readlines chunks = readlines chunks'.
Proof.
  intros H H' E. unfold readlines.
  rewrite !read_chunks_joined by (reflexivity || assumption).
  change (String.append "" (join chunks)) with (join chunks).
  change (String.append "" (join chunks')) with (join chunks').
  rewrite E. reflexivity.
Qed.

(** ** What a yielded line looks like *)

Lemma one_line_cons (c : ascii) (s : string) :
  one_line (String c s) <-> Ascii.eqb c newline = false /\ one_line s.
Proof.
  unfold one_line. cbn [split_newline]. destruct (Ascii.eqb c newline).
  - split; [discriminate | intros [? _]; discriminate].
  - destruct (split_newline s) as [[l a]|]; split; try discriminate; auto.
    intros [_ ?]; discriminate.
Qed.

Lemma split_newline_line (s line after : string) :
  split_newline s = Some (line, after) -> one_line line.
Proof.
  revert line. induction s as [|c s IH]; intros line; [discriminate|].
  cbn [split_newline]. destruct (Ascii.eqb c newline) eqn:Ec.
  - intros H. inversion H. reflexivity.
  - destruct (split_newline s) as [[l a]|]; [|discriminate].
    intros H. inversion H; subst. apply one_line_cons. split; [exact Ec|].
    apply IH. reflexivity.
Qed.

Lemma lstrip_one_line (s : string) : one_line s -> one_line (lstrip s).
Proof.
  induction s as [|c s IH]; intros H; [exact H|]. cbn [lstrip].
  destruct (is_space c); [|exact H]. apply IH. apply one_line_cons in H. apply H.
Qed.

Lemma rstrip_one_line (s : string) : one_line s -> one_line (rstrip s).
Proof.
  induction s as [|c s IH]; intros H; [exact H|]. cbn [rstrip].
  apply one_line_cons in H. destruct H as [Hc Hs].
  destruct (is_space c && String.eqb (rstrip s) ""); [reflexivity|].
  apply one_line_cons. split; [exact Hc | apply IH, Hs].
Qed.

Lemma rstrip_idempotent (s : string) : rstrip (rstrip s) = rstrip s.
Proof.
  induction s as [|c s IH]; [reflexivity|]. cbn [rstrip].
  destruct (is_space c && String.eqb (rstrip s) "") eqn:E; [reflexivity|].
  cbn [rstrip]. rewrite IH, E. reflexivity.
Qed.

Lemma lstrip_starts_clean (s : string) : starts_clean (lstrip s).
Proof.
  induction s as [|c s IH]; [exact I|]. cbn [lstrip].
  destruct (is_space c) eqn:E; [exact IH | exact E].
Qed.

Lemma rstrip_starts_clean (s : string) : starts_clean s -> starts_clean (rstrip s).
Proof.
  destruct s as [|c s]; [intros _; exact I|]. cbn [starts_clean rstrip].
  intros H. rewrite H. exact H.
Qed.

Lemma lstrip_clean (s : string) : starts_clean s -> lstrip s = s.
Proof. destruct s as [|c s]; [reflexivity|]. cbn. intros ->. reflexivity. Qed.

Lemma strip_idempotent (s : string) : strip (strip s) = strip s.
Proof.
  unfold strip.
  rewrite (lstrip_clean (rstrip (lstrip s)))
    by apply rstrip_starts_clean, lstrip_starts_clean.
  apply rstrip_idempotent.
Qed.

Lemma yield_line_clean (line : string) :
  one_line line -> Forall clean_line (yield_line line).
Proof.
  intros H. unfold yield_line.
  destruct (String.eqb (strip line) "") eqn:E; [constructor|].
  repeat constructor.
  - apply String.eqb_neq. exact E.
  - apply rstrip_one_line, lstrip_one_line, H.
  - apply strip_idempotent.
Qed.

Lemma drain_clean (turns : nat) : forall (s : string),
  Forall clean_line (fst (drain turns s)).
Proof.
  induction turns as [|turns IH]; intros s; [constructor|]. cbn [drain].
  destruct (split_newline s) as [[line after]|] eqn:E; [|constructor].
  specialize (IH after). destruct (drain turns after) as [ys k]. cbn [fst] in *.
  apply Forall_app. split; [|exact IH].
  apply yield_line_clean, (split_newline_line s line after E).
Qed.

(** X25: every line [readlines] yields, whatever the chunks, is not
    empty, holds no newline and has no whitespace at either end. *)
Theorem readlines_yields_clean_lines (chunks : list string) (l : string) :
  In l (readlines chunks) ->
  l <> "" /\ one_line l /\ strip l = l.
Proof.
  intros Hin. change (clean_line l). revert Hin.
  unfold readlines. generalize "" as buff. revert l.
  induction chunks as [|chunk rest IH]; intros l buff Hin; [destruct Hin|].
  cbn [read_chunks] in Hin. destruct (String.eqb chunk ""); [destruct Hin|].
  pose proof (drain_clean (String.length (String.append buff chunk))
                (String.append buff chunk)) as Hd.
  destruct (drain _ (String.append buff chunk)) as [ys k]. cbn [fst] in Hd.
  apply in_app_iff in Hin. destruct Hin as [Hin|Hin].
  - rewrite List.Forall_forall in Hd. exact (Hd l Hin).
  - exact (IH l k Hin).
Qed.

(** ** Framing: what the server sends is what the reader yields *)

Lemma raw_lines_message (m rest : string) :
  one_line m ->
  raw_lines (String.append m (String newline rest)) =
    (m :: fst (raw_lines rest), snd (raw_lines rest)).
Proof.
  induction m as [|c m IH]; intros Hm.
  - change (String.append "" (String newline rest)) with (String newline rest).
    rewrite raw_lines_cons. reflexivity.
  - apply one_line_cons in Hm. destruct Hm as [Hc Hm].
    change (String.append (String c m) (String newline rest))
      with (String c (String.append m (String newline rest))).
    rewrite raw_lines_cons, Hc, (IH Hm). reflexivity.
Qed.

Lemma raw_lines_framed (messages : list string) (tail : string) :
  Forall one_line messages -> one_line tail ->
  raw_lines (framed messages tail) = (messages, tail).
Proof.
  intros Hm Ht. induction Hm as [|m ms H1 _ IH]; cbn [framed fold_right].
  - apply split_newline_none, Ht.
  - fold (framed ms tail). rewrite (raw_lines_message m _ H1), IH. reflexivity.
Qed.

(** X26: messages sent one per line are read back as sent. If each
    message is a clean line (not empty, no newline, no whitespace at its
    ends, as a JSON object written by [json.dumps] is), then from any
    cutting of the messages, each with its newline, into non-empty chunks
    [readlines] yields exactly the messages in order; text after the last
    newline is never yielded. *)
Theorem readlines_reads_back_messages (messages : list string) (tail : string)
    (chunks : list string) :
  Forall clean_line messages -> one_line tail ->
  Forall (fun c => c <> "") chunks ->
  join chunks = framed messages tail ->
  readlines chunks = messages.
Proof.
  intros Hm Ht Hc E. unfold readlines.
  rewrite read_chunks_joined by (reflexivity || assumption).
  change (String.append "" (join chunks)) with (join chunks). rewrite E.
  rewrite raw_lines_framed;
    [|eapply Forall_impl; [exact Hm|]; intros m H; apply H | exact Ht].
  cbn [fst]. clear E Hc Ht.
  induction Hm as [|m ms (Hne & _ & Hs) _ IH]; [reflexivity|].
  cbn [flat_map]. rewrite IH. unfold yield_line. rewrite Hs.
  replace (String.eqb m "") with false by (symmetry; apply String.eqb_neq, Hne).
  reflexivity.
Qed.

(** ** From the server's dataset names to the consumer's handlers *)

(** X27: every dataset of the alias table reaches a handler of its own
    in [consume_once], under its own name and under the name of its file:
    the name [collect_events] tags the events of a file with is the
    table's dataset name for the file's stem, that name and the stem are
    routed to the same branch, the branch is one of the five, and two
    datasets of the table that share a branch are the same dataset. *)
Theorem aliases_reach_their_handlers (name alias : string) (f : dataset_file) :
  In (name, alias) DATASET_ALIASES ->
  stem f = alias ->
  dataset_name_of f = name /\
  route_of (dataset_name_of f) = route_of alias /\
  route_of alias <> NoHandler /\
  (forall name' alias', In (name', alias') DATASET_ALIASES ->
     route_of name' = route_of name -> name' = name).
Proof.
  intros Hin Hstem. unfold dataset_name_of. rewrite Hstem. clear Hstem.
  simpl in Hin.
  destruct Hin as [E|[E|[E|[E|[E|[]]]]]]; inversion E; subst;
    (split; [reflexivity|]); (split; [reflexivity|]);
    (split; [discriminate|]);
    intros name' alias' Hin' Hr; simpl in Hin';
    destruct Hin' as [E'|[E'|[E'|[E'|[E'|[]]]]]]; inversion E'; subst;
    first [reflexivity | vm_compute in Hr; discriminate Hr].
Qed.

(** * Concrete runs for the properties above *)

Module MoreRuns.

Definition show_value : value -> string := fun _ => "?".
Definition show_2f : Q -> string := fun _ => "0.90".
Definition show_0f : Q -> string := fun _ => "100".
Definition show_float : Q -> string := fun _ => "500.0".

(** Eleven pushes of one POS record, then a score. *)
Definition eleven_pushes : list engine_op :=
  repeat (PushPos "SCC1" FusionRuns.pos_negative) 11 ++ [Compute "SCC1"].

(** Twenty-one RFID frames with a location and one with nothing. *)
Definition rfid_in : dict := [("sku", VStr "PRD_X_1"); ("location", VStr "IN_SCAN_AREA")].
Definition rfid_null : dict := [("sku", VNone); ("epc", VNone); ("location", VNone)].
Definition rfid_frames : list dict := rfid_null :: repeat rfid_in 21.

Definition vision_frames : list dict :=
  [("predicted_product", VNone)] :: repeat FusionRuns.vision_x 11.

(** The table and record of the 500 g against 400 g example. *)
Definition engine_table : FusionEngine := new_engine {[ "PRD_A" := 400%Q ]}.
Definition pos_heavy : dict := [("sku", VStr "PRD_A"); ("weight_g", VNum 500)].
Definition pos_records : list dict := repeat pos_heavy 11.

Definition pos_scanned : dict := [("sku", VStr "PRD_X_1")].

Definition vision_null_accuracy : dict :=
  [("predicted_product", VStr "PRD_X_1"); ("accuracy", VNone)].

Definition some_reasons : list reason :=
  [VisionNotInPos (VStr "PRD_X_1") (90 # 100); RfidInBag;
   WeightDelta 500 400; HighQueuePressure].

Definition queue_bad_dwell : dict :=
  [("customer_count", VNum 7); ("average_dwell_time", VStr "long")].

End MoreRuns.

Lemma buffers_stay_bounded_witness :
  state FusionRuns.engine0 = ∅ /\
  exists s,
    state (snd (run_ops FusionRuns.no_float FusionRuns.engine0 MoreRuns.eleven_pushes))
      !! "SCC1" = Some s /\
    length (pos s) = 10%nat /\ station_ok s.
Proof.
  split; [reflexivity|].
  destruct (state (snd (run_ops FusionRuns.no_float FusionRuns.engine0
                          MoreRuns.eleven_pushes)) !! "SCC1") as [s|] eqn:E.
  - exists s. split; [reflexivity|]. split.
    + vm_compute in E. inversion E. reflexivity.
    + apply (buffers_stay_bounded FusionRuns.no_float FusionRuns.engine0
               MoreRuns.eleven_pushes "SCC1" s eq_refl E).
  - vm_compute in E. discriminate E.
Defined.

Lemma score_is_clamped_sum_witness :
  exists res,
    fst (compute FusionRuns.no_float FusionRuns.engine_vision "SCC1") = inr res /\
    (0 <= r_score res <= 1)%Q /\
    (r_score res == clamp (total_weight (r_reasons res)))%Q.
Proof.
  destruct (fst (compute FusionRuns.no_float FusionRuns.engine_vision "SCC1"))
    as [x|res] eqn:E.
  - vm_compute in E. discriminate E.
  - exists res. split; [reflexivity|].
    destruct (score_is_clamped_sum FusionRuns.no_float FusionRuns.engine_vision
                "SCC1" res E) as (H1 & H2 & _).
    split; [exact H1 | exact H2].
Defined.

Lemma other_stations_untouched_witness :
  op_station (PushPos "SCC2" FusionRuns.pos_negative) <> "SCC1" /\
  fst (compute FusionRuns.no_float
         (snd (apply_op FusionRuns.no_float FusionRuns.engine_vision
                 (PushPos "SCC2" FusionRuns.pos_negative))) "SCC1") =
  fst (compute FusionRuns.no_float FusionRuns.engine_vision "SCC1").
Proof.
  assert (H : op_station (PushPos "SCC2" FusionRuns.pos_negative) <> "SCC1")
    by (simpl; discriminate).
  split; [exact H|].
  apply (other_stations_untouched FusionRuns.no_float FusionRuns.engine_vision
           (PushPos "SCC2" FusionRuns.pos_negative) "SCC1" H).
Defined.

Lemma rfid_buffer_is_newest_witness :
  (length (rfid (station_of FusionRuns.engine0 "SCC1")) <= 20)%nat /\
  rfid (station_of (fold_left (fun e d => push_rfid e "SCC1" d)
                      MoreRuns.rfid_frames FusionRuns.engine0) "SCC1") =
    repeat MoreRuns.rfid_in 20.
Proof.
  assert (H : (length (rfid (station_of FusionRuns.engine0 "SCC1")) <= 20)%nat)
    by (vm_compute; lia).
  split; [exact H|].
  rewrite (rfid_buffer_is_newest FusionRuns.engine0 "SCC1" MoreRuns.rfid_frames H).
  reflexivity.
Defined.

Lemma vision_buffer_is_newest_witness :
  (length (vision (station_of FusionRuns.engine0 "SCC1")) <= 10)%nat /\
  vision (station_of (fold_left (fun e d => push_vision e "SCC1" d)
                        MoreRuns.vision_frames FusionRuns.engine0) "SCC1") =
    repeat FusionRuns.vision_x 10.
Proof.
  assert (H : (length (vision (station_of FusionRuns.engine0 "SCC1")) <= 10)%nat)
    by (vm_compute; lia).
  split; [exact H|].
  rewrite (vision_buffer_is_newest FusionRuns.engine0 "SCC1" MoreRuns.vision_frames H).
  reflexivity.
Defined.

Lemma pos_buffer_is_newest_witness :
  (length (pos (station_of MoreRuns.engine_table "SCC1")) <= 10)%nat /\
  pos (station_of (fold_left (fun e d => snd (push_pos e "SCC1" d))
                     MoreRuns.pos_records MoreRuns.engine_table) "SCC1") =
    repeat (dict_set MoreRuns.pos_heavy "expected_weight" (VNum 400)) 10.
Proof.
  assert (H : (length (pos (station_of MoreRuns.engine_table "SCC1")) <= 10)%nat)
    by (vm_compute; lia).
  split; [exact H|].
  rewrite (pos_buffer_is_newest MoreRuns.engine_table "SCC1" MoreRuns.pos_records H).
  reflexivity.
Defined.

Lemma weight_rule_after_push_witness :
  dict_get MoreRuns.pos_heavy "sku" = VStr "PRD_A" /\
  weights MoreRuns.engine_table !! "PRD_A" = Some 400%Q /\
  py_float FusionRuns.no_float (VNum 500) = inr 500%Q /\
  fst (last_pos (snd (push_pos MoreRuns.engine_table "SCC1" MoreRuns.pos_heavy)) "SCC1")
    = Some (dict_set MoreRuns.pos_heavy "expected_weight" (VNum 400)) /\
  In (WeightDelta 500 400)
     (match fst (compute FusionRuns.no_float
                   (snd (push_pos MoreRuns.engine_table "SCC1" MoreRuns.pos_heavy))
                   "SCC1") with
      | inr res => r_reasons res
      | inl _ => []
      end) /\
  forall res o x,
    fst (compute FusionRuns.no_float
           (snd (push_pos MoreRuns.engine_table "SCC1" MoreRuns.pos_heavy)) "SCC1")
      = inr res ->
    In (WeightDelta o x) (r_reasons res) -> o = 500%Q /\ x = 400%Q.
Proof.
  assert (H1 : dict_get MoreRuns.pos_heavy "sku" = VStr "PRD_A") by reflexivity.
  assert (H2 : "PRD_A" <> "") by discriminate.
  assert (H3 : weights MoreRuns.engine_table !! "PRD_A" = Some 400%Q) by reflexivity.
  assert (H4 : Qeq_bool 400 0 = false) by reflexivity.
  assert (H5 : dict_lookup MoreRuns.pos_heavy "weight_g" = Some (VNum 500)) by reflexivity.
  assert (H6 : VNum 500 <> VNone) by discriminate.
  assert (H7 : py_float FusionRuns.no_float (VNum 500) = inr 500%Q) by reflexivity.
  destruct (weight_rule_after_push FusionRuns.no_float MoreRuns.engine_table "SCC1"
              MoreRuns.pos_heavy "PRD_A" 400 500 (VNum 500) H1 H2 H3 H4 H5 H6 H7)
    as (_ & Hlast & Hreasons & _).
  split; [exact H1|]. split; [exact H3|]. split; [exact H7|].
  split; [exact Hlast|]. split; [vm_compute; left; reflexivity | exact Hreasons].
Defined.

Lemma scan_avoidance_cleared_by_scan_witness :
  py_eq (dict_get MoreRuns.pos_scanned "sku") (VStr "PRD_X_1") = true /\
  exists res,
    fst (compute FusionRuns.no_float
           (snd (push_pos FusionRuns.engine_vision "SCC1" MoreRuns.pos_scanned)) "SCC1")
      = inr res /\
    ~ In (VisionNotInPos (VStr "PRD_X_1") (90 # 100)) (r_reasons res).
Proof.
  assert (H : py_eq (dict_get MoreRuns.pos_scanned "sku") (VStr "PRD_X_1") = true)
    by reflexivity.
  split; [exact H|].
  destruct (fst (compute FusionRuns.no_float
                   (snd (push_pos FusionRuns.engine_vision "SCC1" MoreRuns.pos_scanned))
                   "SCC1")) as [x|res] eqn:E.
  - vm_compute in E. discriminate E.
  - exists res. split; [reflexivity|].
    apply (scan_avoidance_cleared_by_scan FusionRuns.no_float FusionRuns.engine_vision
             "SCC1" MoreRuns.pos_scanned (VStr "PRD_X_1") res (90 # 100) H E).
Defined.

Lemma compute_returns_on_numbers_witness :
  exists res, fst (compute FusionRuns.no_float FusionRuns.engine_vision "SCC1") = inr res.
Proof.
  apply (compute_returns_on_numbers FusionRuns.no_float FusionRuns.engine_vision
           "SCC1" 0 0).
  - intros v Hv. vm_compute in Hv. inversion Hv; subst v.
    exists (90 # 100)%Q. reflexivity.
  - reflexivity.
  - reflexivity.
Defined.

Lemma bad_accuracy_makes_compute_raise_witness :
  truthy (dict_get MoreRuns.vision_null_accuracy "predicted_product") = true /\
  fst (compute FusionRuns.no_float
         (push_vision FusionRuns.engine0 "SCC1" MoreRuns.vision_null_accuracy) "SCC1")
    = inl TypeError.
Proof.
  split; [reflexivity|].
  apply (bad_accuracy_makes_compute_raise FusionRuns.no_float FusionRuns.engine0
           "SCC1" MoreRuns.vision_null_accuracy TypeError); reflexivity.
Defined.

Lemma crash_status_reported_witness :
  In (upper "cRaSh") ["CRASH"; "READ ERROR"; "FAILURE"] /\
  _counter (maybe_status MapperRuns.clock MoreRuns.show_value MapperRuns.mapper0
              "SCC1" "POS_Transactions" (VStr "Scanner cRaSh detected")) = 1%nat.
Proof.
  assert (H : In (upper "cRaSh") ["CRASH"; "READ ERROR"; "FAILURE"])
    by (left; reflexivity).
  split; [exact H|].
  destruct (crash_status_reported MapperRuns.clock MoreRuns.show_value
              MapperRuns.mapper0 "SCC1" "POS_Transactions" "Scanner " "cRaSh"
              " detected" H) as [E _].
  change (VStr "Scanner cRaSh detected")
    with (VStr (String.append "Scanner " (String.append "cRaSh" " detected"))).
  rewrite E. reflexivity.
Defined.

Lemma from_fusion_event_names_witness :
  Forall (unambiguous MoreRuns.show_value MoreRuns.show_2f MoreRuns.show_0f
            MoreRuns.show_float) MoreRuns.some_reasons /\
  exists new,
    _fh (from_fusion MapperRuns.clock MapperRuns.mapper0 "SCC1"
           (map (render MoreRuns.show_value MoreRuns.show_2f MoreRuns.show_0f
                   MoreRuns.show_float) MoreRuns.some_reasons) None)
      = _fh MapperRuns.mapper0 ++ new /\
    map (event_field "event_name") new =
      [VStr "Scanner Avoidance"; VStr "Weight Discrepancies"].
Proof.
  assert (H : Forall (unambiguous MoreRuns.show_value MoreRuns.show_2f MoreRuns.show_0f
                        MoreRuns.show_float) MoreRuns.some_reasons)
    by (repeat constructor).
  split; [exact H|].
  destruct (from_fusion_event_names MapperRuns.clock MoreRuns.show_value
              MoreRuns.show_2f MoreRuns.show_0f MoreRuns.show_float
              MapperRuns.mapper0 "SCC1" MoreRuns.some_reasons None H)
    as (new & E & N & _).
  exists new. split; [exact E | exact N].
Defined.


Lemma queue_tests_agree_witness :
  as_number (dict_get_default MapperRuns.queue_six "customer_count" (VNum 0)) = Some 6%Q /\
  as_number (dict_get_default MapperRuns.queue_six "average_dwell_time" (VNum 0))
    = Some 0%Q /\
  queue_test MapperRuns.queue_six = inr true /\
  length (_fh (snd (from_queue MapperRuns.clock MapperRuns.mapper0 "SCC1"
                      MapperRuns.queue_six))) = 3%nat.
Proof.
  split; [reflexivity|]. split; [reflexivity|].
  destruct (queue_tests_agree MapperRuns.clock MapperRuns.mapper0 "SCC1"
              MapperRuns.queue_six 6 0 eq_refl eq_refl) as (Ht & _ & Hl & _).
  split; [exact Ht | exact Hl].
Defined.

Lemma from_queue_type_errors_witness :
  as_number (queue_cc MoreRuns.queue_bad_dwell) = Some 7%Q /\
  as_number (queue_dt MoreRuns.queue_bad_dwell) = None /\
  fst (from_queue MapperRuns.clock MapperRuns.mapper0 "SCC1" MoreRuns.queue_bad_dwell)
    = Some TypeError /\
  length (_fh (snd (from_queue MapperRuns.clock MapperRuns.mapper0 "SCC1"
                      MoreRuns.queue_bad_dwell))) = 3%nat.
Proof.
  split; [reflexivity|]. split; [reflexivity|].
  destruct (proj2 (from_queue_type_errors MapperRuns.clock MapperRuns.mapper0 "SCC1"
                     MoreRuns.queue_bad_dwell) 7%Q eq_refl eq_refl eq_refl)
    as (new & E & N).
  rewrite E. cbn [fst snd _fh]. split; [reflexivity|].
  rewrite length_app, <- (length_map (event_field "event_name") new), N. reflexivity.
Defined.

Module MoreReplayRuns.

(** The server of [ReplayRuns] without the loop. *)
Definition server_once : ReplayTCPServer :=
  {| events := ReplayRuns.first_event :: ReplayRuns.later_events;
     dataset_names := ["POS_Transactions"; "RFID_data"];
     speed := 25; loop := false; cycle_span := 10000000 |}.

(** Two records five seconds apart. *)
Definition late_event : source_event :=
  {| dataset := "POS_Transactions"; timestamp := 10000000;
     payload := MergerRuns.pos_late |}.

Definition server_two : ReplayTCPServer :=
  {| events := [ReplayRuns.first_event; late_event];
     dataset_names := ["POS_Transactions"];
     speed := 25; loop := false; cycle_span := 10000000 |}.

(** The first frame of the second cycle of [ReplayRuns.server]. *)
Definition second_cycle : list output :=
  nth 1 (replay_cycles ReplayRuns.show_time ReplayRuns.server 2 initial_session) [].

Definition first_frame : frame :=
  match sent second_cycle with
  | f :: _ => f
  | [] => {| f_dataset := ""; f_sequence := 0; f_timestamp := "";
             f_original_timestamp := VNone; f_event := [] |}
  end.

Definition line_feed : string := String newline "".

(** A stream cut in two ways. *)
Definition cut_a : list string :=
  ["{a}"; String.append line_feed "{b"; String.append "}" line_feed; "{c"].
Definition cut_b : list string :=
  [String.append "{a}" (String.append line_feed "{b}"); String.append line_feed "{c"].

End MoreReplayRuns.

Lemma frame_carries_record_witness :
  replay_cycles ReplayRuns.show_time ReplayRuns.server 2 initial_session !! 1%nat
    = Some MoreReplayRuns.second_cycle /\
  sent MoreReplayRuns.second_cycle !! 0%nat = Some MoreReplayRuns.first_frame /\
  exists r,
    events ReplayRuns.server !! 0%nat = Some r /\
    f_dataset MoreReplayRuns.first_frame = dataset r /\
    dict_get (f_event MoreReplayRuns.first_frame) "timestamp"
      = VStr (f_timestamp MoreReplayRuns.first_frame).
Proof.
  assert (H1 : replay_cycles ReplayRuns.show_time ReplayRuns.server 2 initial_session
               !! 1%nat = Some MoreReplayRuns.second_cycle) by reflexivity.
  assert (H2 : sent MoreReplayRuns.second_cycle !! 0%nat
               = Some MoreReplayRuns.first_frame) by reflexivity.
  split; [exact H1|]. split; [exact H2|].
  destruct (frame_carries_record ReplayRuns.show_time ReplayRuns.server 2 1 0
              MoreReplayRuns.second_cycle MoreReplayRuns.first_frame H1 H2)
    as (r & Hr & Hd & _ & Ht & _).
  exists r. split; [exact Hr|]. split; [exact Hd | exact Ht].
Defined.

Lemma single_pass_without_loop_witness :
  loop MoreReplayRuns.server_once = false /\
  handle ReplayRuns.show_time MoreReplayRuns.server_once 3 =
    handle ReplayRuns.show_time MoreReplayRuns.server_once 1.
Proof.
  split; [reflexivity|].
  exact (proj1 (single_pass_without_loop ReplayRuns.show_time
                  MoreReplayRuns.server_once 2 eq_refl)).
Defined.

Lemma one_pass_takes_scaled_span_witness :
  (0 < speed MoreReplayRuns.server_two)%Q /\
  strictly_increasing [ReplayRuns.first_event; MoreReplayRuns.late_event] /\
  (total_sleep (handle ReplayRuns.show_time MoreReplayRuns.server_two 1) ==
   total_seconds 5000000 / 25)%Q.
Proof.
  assert (H1 : (0 < speed MoreReplayRuns.server_two)%Q) by reflexivity.
  assert (H2 : strictly_increasing [ReplayRuns.first_event; MoreReplayRuns.late_event]).
  { unfold strictly_increasing. repeat constructor. }
  split; [exact H1|]. split; [exact H2|].
  exact (one_pass_takes_scaled_span ReplayRuns.show_time MoreReplayRuns.server_two H1
           ReplayRuns.first_event [MoreReplayRuns.late_event] eq_refl H2).
Defined.

Lemma first_bad_record_is_reported_witness :
  all_parse MergerRuns.read_time [MergerRuns.pos_file] /\
  event_time MergerRuns.read_time MergerRuns.rfid_null = None /\
  collect_events MergerRuns.read_time [MergerRuns.pos_file; MergerRuns.rfid_file_bad] =
    inl (MissingStringTimestamp "RFID_data" "data/input/rfid_readings.jsonl" VNone).
Proof.
  assert (H1 : all_parse MergerRuns.read_time [MergerRuns.pos_file])
    by (unfold all_parse; repeat constructor; discriminate).
  assert (H2 : Forall (fun ev => event_time MergerRuns.read_time ev <> None)
                 [MergerRuns.rfid_early])
    by (repeat constructor; discriminate).
  split; [exact H1|]. split; [reflexivity|].
  exact (first_bad_record_is_reported MergerRuns.read_time [MergerRuns.pos_file] []
           MergerRuns.rfid_file_bad [MergerRuns.rfid_early] []
           MergerRuns.rfid_null H1 eq_refl H2 eq_refl).
Defined.

Lemma readlines_ignores_chunking_witness :
  join MoreReplayRuns.cut_a = join MoreReplayRuns.cut_b /\
  readlines MoreReplayRuns.cut_a = readlines MoreReplayRuns.cut_b.
Proof.
  assert (Ha : Forall (fun c => c <> "") MoreReplayRuns.cut_a)
    by (repeat constructor; discriminate).
  assert (Hb : Forall (fun c => c <> "") MoreReplayRuns.cut_b)
    by (repeat constructor; discriminate).
  split; [reflexivity|].
  exact (readlines_ignores_chunking MoreReplayRuns.cut_a MoreReplayRuns.cut_b
           Ha Hb eq_refl).
Defined.

Lemma readlines_yields_clean_lines_witness :
  In "{a}" (readlines MoreReplayRuns.cut_a) /\
  strip "{a}" = "{a}".
Proof.
  assert (H : In "{a}" (readlines MoreReplayRuns.cut_a)) by (left; reflexivity).
  split; [exact H|].
  exact (proj2 (proj2 (readlines_yields_clean_lines MoreReplayRuns.cut_a "{a}" H))).
Defined.

Lemma readlines_reads_back_messages_witness :
  Forall clean_line ["{a}"; "{b}"] /\ one_line "{c" /\
  join MoreReplayRuns.cut_a = framed ["{a}"; "{b}"] "{c" /\
  readlines MoreReplayRuns.cut_a = ["{a}"; "{b}"].
Proof.
  assert (H1 : Forall clean_line ["{a}"; "{b}"]).
  { repeat constructor; try discriminate; reflexivity. }
  assert (H2 : one_line "{c") by reflexivity.
  assert (H3 : Forall (fun c => c <> "") MoreReplayRuns.cut_a)
    by (repeat constructor; discriminate).
  split; [exact H1|]. split; [exact H2|]. split; [reflexivity|].
  exact (readlines_reads_back_messages ["{a}"; "{b}"] "{c" MoreReplayRuns.cut_a
           H1 H2 H3 eq_refl).
Defined.

Lemma aliases_reach_their_handlers_witness :
  In ("Product_recognism", "product_recognition") DATASET_ALIASES /\
  route_of "product_recognition" <> NoHandler /\
  dataset_name_of {| source := "data/input/product_recognition.jsonl";
                     stem := "product_recognition"; loaded := [] |}
    = "Product_recognism".
Proof.
  assert (H : In ("Product_recognism", "product_recognition") DATASET_ALIASES)
    by (simpl; tauto).
  split; [exact H|].
  destruct (aliases_reach_their_handlers "Product_recognism" "product_recognition"
              {| source := "data/input/product_recognition.jsonl";
                 stem := "product_recognition"; loaded := [] |} H eq_refl)
    as (Hn & _ & Hr & _).
  split; [exact Hr | exact Hn].
Defined.

Lemma merged_cycles_keep_order_witness :
  exists merged names,
    collect_events MergerRuns.read_time [MergerRuns.pos_file; MergerRuns.rfid_file]
      = inr (merged, names) /\
    compute_cycle_span merged = inr 10000000%Z /\
    forall r r', In r merged -> In r' merged ->
      (timestamp r - timestamp r' < 10000000)%Z.
Proof.
  eexists. eexists. split; [reflexivity|].
  destruct (merged_cycles_keep_order MergerRuns.read_time
              [MergerRuns.pos_file; MergerRuns.rfid_file] _ _ eq_refl)
    as (span & Hspan & _ & Hrange & _).
  assert (E : span = 10000000%Z) by (vm_compute in Hspan; congruence).
  subst span. split; [reflexivity | exact Hrange].
Defined.
